(** * Agenium Python SDK: name validation, frames, tool registry,
      directory resolver, agent sessions and the [validate] command

    A shallow embedding of the Python sources
    - [src/agenium/core/types.py]
    - [src/agenium/protocol/types.py]
    - [src/agenium/tools/registry.py]
    - [src/agenium/dns/resolver.py]
    - [src/agenium/agent.py]
    - [src/agenium/cli.py]
    followed by the properties of the specification that concern them. *)

From Stdlib Require Import ZArith NArith Ascii String Lia.
From Stdlib Require Import Floats.PrimFloat Floats.SpecFloat Floats.FloatOps.
From stdpp Require Import gmap strings list pretty.

Set Warnings "-register-all".

(** ** Python data shared by all modules *)

(** A Python [str] is a sequence of Unicode code points; a Python [float]
    is an IEEE 754 double. *)
Abbreviation pystr := (list N).
Abbreviation pyfloat := PrimFloat.float.

Module Py.

(** Literals: an ASCII Rocq string read as a Python string. *)
Definition str (s : string) : pystr := N_of_ascii <$> list_ascii_of_string s.

(** [s.startswith(p)]. *)
Fixpoint startswith (p s : pystr) : bool :=
  match p, s with
  | [], _ => true
  | _ :: _, [] => false
  | a :: p', b :: s' => (a =? b)%N && startswith p' s'
  end.

(** [s.endswith(p)]. *)
Definition endswith (p s : pystr) : bool := startswith (rev p) (rev s).

(** *** [str.lower()]

    The case data are those of CPython 3.11 (Unicode 14.0.0). *)

Definition in_ranges (c : N) (ranges : list (N * N)) : bool :=
  existsb (fun lh => (fst lh <=? c)%N && (c <=? snd lh)%N) ranges.

(** The lowercase mappings to one code point.  [(first, last, step,
    target)] stands for the code points [first], [first + step], ... up to
    [last], mapped in this order to [target], [target + step], ... *)
Definition lower_ranges : list (N * N * N * N) :=
  [
   (0x41, 0x5A, 1, 0x61); (0xC0, 0xD6, 1, 0xE0); (0xD8, 0xDE, 1, 0xF8);
   (0x100, 0x12E, 2, 0x101); (0x132, 0x136, 2, 0x133);
   (0x139, 0x147, 2, 0x13A); (0x14A, 0x176, 2, 0x14B);
   (0x178, 0x178, 1, 0xFF); (0x179, 0x17D, 2, 0x17A);
   (0x181, 0x181, 1, 0x253); (0x182, 0x184, 2, 0x183);
   (0x186, 0x186, 1, 0x254); (0x187, 0x187, 1, 0x188);
   (0x189, 0x18A, 1, 0x256); (0x18B, 0x18B, 1, 0x18C);
   (0x18E, 0x18E, 1, 0x1DD); (0x18F, 0x18F, 1, 0x259);
   (0x190, 0x190, 1, 0x25B); (0x191, 0x191, 1, 0x192);
   (0x193, 0x193, 1, 0x260); (0x194, 0x194, 1, 0x263);
   (0x196, 0x196, 1, 0x269); (0x197, 0x197, 1, 0x268);
   (0x198, 0x198, 1, 0x199); (0x19C, 0x19C, 1, 0x26F);
   (0x19D, 0x19D, 1, 0x272); (0x19F, 0x19F, 1, 0x275);
   (0x1A0, 0x1A4, 2, 0x1A1); (0x1A6, 0x1A6, 1, 0x280);
   (0x1A7, 0x1A7, 1, 0x1A8); (0x1A9, 0x1A9, 1, 0x283);
   (0x1AC, 0x1AC, 1, 0x1AD); (0x1AE, 0x1AE, 1, 0x288);
   (0x1AF, 0x1AF, 1, 0x1B0); (0x1B1, 0x1B2, 1, 0x28A);
   (0x1B3, 0x1B5, 2, 0x1B4); (0x1B7, 0x1B7, 1, 0x292);
   (0x1B8, 0x1B8, 1, 0x1B9); (0x1BC, 0x1BC, 1, 0x1BD);
   (0x1C4, 0x1C4, 1, 0x1C6); (0x1C5, 0x1C5, 1, 0x1C6);
   (0x1C7, 0x1C7, 1, 0x1C9); (0x1C8, 0x1C8, 1, 0x1C9);
   (0x1CA, 0x1CA, 1, 0x1CC); (0x1CB, 0x1DB, 2, 0x1CC);
   (0x1DE, 0x1EE, 2, 0x1DF); (0x1F1, 0x1F1, 1, 0x1F3);
   (0x1F2, 0x1F4, 2, 0x1F3); (0x1F6, 0x1F6, 1, 0x195);
   (0x1F7, 0x1F7, 1, 0x1BF); (0x1F8, 0x21E, 2, 0x1F9);
   (0x220, 0x220, 1, 0x19E); (0x222, 0x232, 2, 0x223);
   (0x23A, 0x23A, 1, 0x2C65); (0x23B, 0x23B, 1, 0x23C);
   (0x23D, 0x23D, 1, 0x19A); (0x23E, 0x23E, 1, 0x2C66);
   (0x241, 0x241, 1, 0x242); (0x243, 0x243, 1, 0x180);
   (0x244, 0x244, 1, 0x289); (0x245, 0x245, 1, 0x28C);
   (0x246, 0x24E, 2, 0x247); (0x370, 0x372, 2, 0x371);
   (0x376, 0x376, 1, 0x377); (0x37F, 0x37F, 1, 0x3F3);
   (0x386, 0x386, 1, 0x3AC); (0x388, 0x38A, 1, 0x3AD);
   (0x38C, 0x38C, 1, 0x3CC); (0x38E, 0x38F, 1, 0x3CD);
   (0x391, 0x3A1, 1, 0x3B1); (0x3A3, 0x3AB, 1, 0x3C3);
   (0x3CF, 0x3CF, 1, 0x3D7); (0x3D8, 0x3EE, 2, 0x3D9);
   (0x3F4, 0x3F4, 1, 0x3B8); (0x3F7, 0x3F7, 1, 0x3F8);
   (0x3F9, 0x3F9, 1, 0x3F2); (0x3FA, 0x3FA, 1, 0x3FB);
   (0x3FD, 0x3FF, 1, 0x37B); (0x400, 0x40F, 1, 0x450);
   (0x410, 0x42F, 1, 0x430); (0x460, 0x480, 2, 0x461);
   (0x48A, 0x4BE, 2, 0x48B); (0x4C0, 0x4C0, 1, 0x4CF);
   (0x4C1, 0x4CD, 2, 0x4C2); (0x4D0, 0x52E, 2, 0x4D1);
   (0x531, 0x556, 1, 0x561); (0x10A0, 0x10C5, 1, 0x2D00);
   (0x10C7, 0x10C7, 1, 0x2D27); (0x10CD, 0x10CD, 1, 0x2D2D);
   (0x13A0, 0x13EF, 1, 0xAB70); (0x13F0, 0x13F5, 1, 0x13F8);
   (0x1C90, 0x1CBA, 1, 0x10D0); (0x1CBD, 0x1CBF, 1, 0x10FD);
   (0x1E00, 0x1E94, 2, 0x1E01); (0x1E9E, 0x1E9E, 1, 0xDF);
   (0x1EA0, 0x1EFE, 2, 0x1EA1); (0x1F08, 0x1F0F, 1, 0x1F00);
   (0x1F18, 0x1F1D, 1, 0x1F10); (0x1F28, 0x1F2F, 1, 0x1F20);
   (0x1F38, 0x1F3F, 1, 0x1F30); (0x1F48, 0x1F4D, 1, 0x1F40);
   (0x1F59, 0x1F5F, 2, 0x1F51); (0x1F68, 0x1F6F, 1, 0x1F60);
   (0x1F88, 0x1F8F, 1, 0x1F80); (0x1F98, 0x1F9F, 1, 0x1F90);
   (0x1FA8, 0x1FAF, 1, 0x1FA0); (0x1FB8, 0x1FB9, 1, 0x1FB0);
   (0x1FBA, 0x1FBB, 1, 0x1F70); (0x1FBC, 0x1FBC, 1, 0x1FB3);
   (0x1FC8, 0x1FCB, 1, 0x1F72); (0x1FCC, 0x1FCC, 1, 0x1FC3);
   (0x1FD8, 0x1FD9, 1, 0x1FD0); (0x1FDA, 0x1FDB, 1, 0x1F76);
   (0x1FE8, 0x1FE9, 1, 0x1FE0); (0x1FEA, 0x1FEB, 1, 0x1F7A);
   (0x1FEC, 0x1FEC, 1, 0x1FE5); (0x1FF8, 0x1FF9, 1, 0x1F78);
   (0x1FFA, 0x1FFB, 1, 0x1F7C); (0x1FFC, 0x1FFC, 1, 0x1FF3);
   (0x2126, 0x2126, 1, 0x3C9); (0x212A, 0x212A, 1, 0x6B);
   (0x212B, 0x212B, 1, 0xE5); (0x2132, 0x2132, 1, 0x214E);
   (0x2160, 0x216F, 1, 0x2170); (0x2183, 0x2183, 1, 0x2184);
   (0x24B6, 0x24CF, 1, 0x24D0); (0x2C00, 0x2C2F, 1, 0x2C30);
   (0x2C60, 0x2C60, 1, 0x2C61); (0x2C62, 0x2C62, 1, 0x26B);
   (0x2C63, 0x2C63, 1, 0x1D7D); (0x2C64, 0x2C64, 1, 0x27D);
   (0x2C67, 0x2C6B, 2, 0x2C68); (0x2C6D, 0x2C6D, 1, 0x251);
   (0x2C6E, 0x2C6E, 1, 0x271); (0x2C6F, 0x2C6F, 1, 0x250);
   (0x2C70, 0x2C70, 1, 0x252); (0x2C72, 0x2C72, 1, 0x2C73);
   (0x2C75, 0x2C75, 1, 0x2C76); (0x2C7E, 0x2C7F, 1, 0x23F);
   (0x2C80, 0x2CE2, 2, 0x2C81); (0x2CEB, 0x2CED, 2, 0x2CEC);
   (0x2CF2, 0x2CF2, 1, 0x2CF3); (0xA640, 0xA66C, 2, 0xA641);
   (0xA680, 0xA69A, 2, 0xA681); (0xA722, 0xA72E, 2, 0xA723);
   (0xA732, 0xA76E, 2, 0xA733); (0xA779, 0xA77B, 2, 0xA77A);
   (0xA77D, 0xA77D, 1, 0x1D79); (0xA77E, 0xA786, 2, 0xA77F);
   (0xA78B, 0xA78B, 1, 0xA78C); (0xA78D, 0xA78D, 1, 0x265);
   (0xA790, 0xA792, 2, 0xA791); (0xA796, 0xA7A8, 2, 0xA797);
   (0xA7AA, 0xA7AA, 1, 0x266); (0xA7AB, 0xA7AB, 1, 0x25C);
   (0xA7AC, 0xA7AC, 1, 0x261); (0xA7AD, 0xA7AD, 1, 0x26C);
   (0xA7AE, 0xA7AE, 1, 0x26A); (0xA7B0, 0xA7B0, 1, 0x29E);
   (0xA7B1, 0xA7B1, 1, 0x287); (0xA7B2, 0xA7B2, 1, 0x29D);
   (0xA7B3, 0xA7B3, 1, 0xAB53); (0xA7B4, 0xA7C2, 2, 0xA7B5);
   (0xA7C4, 0xA7C4, 1, 0xA794); (0xA7C5, 0xA7C5, 1, 0x282);
   (0xA7C6, 0xA7C6, 1, 0x1D8E); (0xA7C7, 0xA7C9, 2, 0xA7C8);
   (0xA7D0, 0xA7D0, 1, 0xA7D1); (0xA7D6, 0xA7D8, 2, 0xA7D7);
   (0xA7F5, 0xA7F5, 1, 0xA7F6); (0xFF21, 0xFF3A, 1, 0xFF41);
   (0x10400, 0x10427, 1, 0x10428); (0x104B0, 0x104D3, 1, 0x104D8);
   (0x10570, 0x1057A, 1, 0x10597); (0x1057C, 0x1058A, 1, 0x105A3);
   (0x1058C, 0x10592, 1, 0x105B3); (0x10594, 0x10595, 1, 0x105BB);
   (0x10C80, 0x10CB2, 1, 0x10CC0); (0x118A0, 0x118BF, 1, 0x118C0);
   (0x16E40, 0x16E5F, 1, 0x16E60); (0x1E900, 0x1E921, 1, 0x1E922)
  ]%N.

Definition expand (r : N * N * N * N) : list (N * N) :=
  let '(first, last, step, target) := r in
  (fun k => (first + N.of_nat k * step, target + N.of_nat k * step)%N)
    <$> seq 0 (S (N.to_nat ((last - first) / step))).

(** The same mappings, one pair for each code point that has one. *)
Definition lower_pairs : list (N * N) :=
  Eval vm_compute in flat_map expand lower_ranges.

Fixpoint lookup_pair (c : N) (pairs : list (N * N)) : option N :=
  match pairs with
  | [] => None
  | (k, d) :: pairs' => if (c =? k)%N then Some d else lookup_pair c pairs'
  end.

(** The lowercase form of one code point taken alone: U+0130 (capital I
    with dot above) is the one code point whose form is two code points
    long. *)
Definition lower_cp (c : N) : list N :=
  if (c =? 0x130)%N then [0x69; 0x307]%N
  else [default c (lookup_pair c lower_pairs)].

(** The code points with the Unicode property Cased. *)
Definition cased_ranges : list (N * N) :=
  [
   (0x41, 0x5A); (0x61, 0x7A); (0xAA, 0xAA); (0xB5, 0xB5); (0xBA, 0xBA);
   (0xC0, 0xD6); (0xD8, 0xF6); (0xF8, 0x1BA); (0x1BC, 0x1BF); (0x1C4, 0x293);
   (0x295, 0x2B8); (0x2C0, 0x2C1); (0x2E0, 0x2E4); (0x345, 0x345);
   (0x370, 0x373); (0x376, 0x377); (0x37A, 0x37D); (0x37F, 0x37F);
   (0x386, 0x386); (0x388, 0x38A); (0x38C, 0x38C); (0x38E, 0x3A1);
   (0x3A3, 0x3F5); (0x3F7, 0x481); (0x48A, 0x52F); (0x531, 0x556);
   (0x560, 0x588); (0x10A0, 0x10C5); (0x10C7, 0x10C7); (0x10CD, 0x10CD);
   (0x10D0, 0x10FA); (0x10FD, 0x10FF); (0x13A0, 0x13F5); (0x13F8, 0x13FD);
   (0x1C80, 0x1C88); (0x1C90, 0x1CBA); (0x1CBD, 0x1CBF); (0x1D00, 0x1DBF);
   (0x1E00, 0x1F15); (0x1F18, 0x1F1D); (0x1F20, 0x1F45); (0x1F48, 0x1F4D);
   (0x1F50, 0x1F57); (0x1F59, 0x1F59); (0x1F5B, 0x1F5B); (0x1F5D, 0x1F5D);
   (0x1F5F, 0x1F7D); (0x1F80, 0x1FB4); (0x1FB6, 0x1FBC); (0x1FBE, 0x1FBE);
   (0x1FC2, 0x1FC4); (0x1FC6, 0x1FCC); (0x1FD0, 0x1FD3); (0x1FD6, 0x1FDB);
   (0x1FE0, 0x1FEC); (0x1FF2, 0x1FF4); (0x1FF6, 0x1FFC); (0x2071, 0x2071);
   (0x207F, 0x207F); (0x2090, 0x209C); (0x2102, 0x2102); (0x2107, 0x2107);
   (0x210A, 0x2113); (0x2115, 0x2115); (0x2119, 0x211D); (0x2124, 0x2124);
   (0x2126, 0x2126); (0x2128, 0x2128); (0x212A, 0x212D); (0x212F, 0x2134);
   (0x2139, 0x2139); (0x213C, 0x213F); (0x2145, 0x2149); (0x214E, 0x214E);
   (0x2160, 0x217F); (0x2183, 0x2184); (0x24B6, 0x24E9); (0x2C00, 0x2CE4);
   (0x2CEB, 0x2CEE); (0x2CF2, 0x2CF3); (0x2D00, 0x2D25); (0x2D27, 0x2D27);
   (0x2D2D, 0x2D2D); (0xA640, 0xA66D); (0xA680, 0xA69D); (0xA722, 0xA787);
   (0xA78B, 0xA78E); (0xA790, 0xA7CA); (0xA7D0, 0xA7D1); (0xA7D3, 0xA7D3);
   (0xA7D5, 0xA7D9); (0xA7F5, 0xA7F6); (0xA7F8, 0xA7FA); (0xAB30, 0xAB5A);
   (0xAB5C, 0xAB68); (0xAB70, 0xABBF); (0xFB00, 0xFB06); (0xFB13, 0xFB17);
   (0xFF21, 0xFF3A); (0xFF41, 0xFF5A); (0x10400, 0x1044F); (0x104B0, 0x104D3);
   (0x104D8, 0x104FB); (0x10570, 0x1057A); (0x1057C, 0x1058A);
   (0x1058C, 0x10592); (0x10594, 0x10595); (0x10597, 0x105A1);
   (0x105A3, 0x105B1); (0x105B3, 0x105B9); (0x105BB, 0x105BC);
   (0x10780, 0x10780); (0x10783, 0x10785); (0x10787, 0x107B0);
   (0x107B2, 0x107BA); (0x10C80, 0x10CB2); (0x10CC0, 0x10CF2);
   (0x118A0, 0x118DF); (0x16E40, 0x16E7F); (0x1D400, 0x1D454);
   (0x1D456, 0x1D49C); (0x1D49E, 0x1D49F); (0x1D4A2, 0x1D4A2);
   (0x1D4A5, 0x1D4A6); (0x1D4A9, 0x1D4AC); (0x1D4AE, 0x1D4B9);
   (0x1D4BB, 0x1D4BB); (0x1D4BD, 0x1D4C3); (0x1D4C5, 0x1D505);
   (0x1D507, 0x1D50A); (0x1D50D, 0x1D514); (0x1D516, 0x1D51C);
   (0x1D51E, 0x1D539); (0x1D53B, 0x1D53E); (0x1D540, 0x1D544);
   (0x1D546, 0x1D546); (0x1D54A, 0x1D550); (0x1D552, 0x1D6A5);
   (0x1D6A8, 0x1D6C0); (0x1D6C2, 0x1D6DA); (0x1D6DC, 0x1D6FA);
   (0x1D6FC, 0x1D714); (0x1D716, 0x1D734); (0x1D736, 0x1D74E);
   (0x1D750, 0x1D76E); (0x1D770, 0x1D788); (0x1D78A, 0x1D7A8);
   (0x1D7AA, 0x1D7C2); (0x1D7C4, 0x1D7CB); (0x1DF00, 0x1DF09);
   (0x1DF0B, 0x1DF1E); (0x1E900, 0x1E943); (0x1F130, 0x1F149);
   (0x1F150, 0x1F169); (0x1F170, 0x1F189)
  ]%N.

(** The code points with the Unicode property Case_Ignorable. *)
Definition case_ignorable_ranges : list (N * N) :=
  [
   (0x27, 0x27); (0x2E, 0x2E); (0x3A, 0x3A); (0x5E, 0x5E); (0x60, 0x60);
   (0xA8, 0xA8); (0xAD, 0xAD); (0xAF, 0xAF); (0xB4, 0xB4); (0xB7, 0xB8);
   (0x2B0, 0x36F); (0x374, 0x375); (0x37A, 0x37A); (0x384, 0x385);
   (0x387, 0x387); (0x483, 0x489); (0x559, 0x559); (0x55F, 0x55F);
   (0x591, 0x5BD); (0x5BF, 0x5BF); (0x5C1, 0x5C2); (0x5C4, 0x5C5);
   (0x5C7, 0x5C7); (0x5F4, 0x5F4); (0x600, 0x605); (0x610, 0x61A);
   (0x61C, 0x61C); (0x640, 0x640); (0x64B, 0x65F); (0x670, 0x670);
   (0x6D6, 0x6DD); (0x6DF, 0x6E8); (0x6EA, 0x6ED); (0x70F, 0x70F);
   (0x711, 0x711); (0x730, 0x74A); (0x7A6, 0x7B0); (0x7EB, 0x7F5);
   (0x7FA, 0x7FA); (0x7FD, 0x7FD); (0x816, 0x82D); (0x859, 0x85B);
   (0x888, 0x888); (0x890, 0x891); (0x898, 0x89F); (0x8C9, 0x902);
   (0x93A, 0x93A); (0x93C, 0x93C); (0x941, 0x948); (0x94D, 0x94D);
   (0x951, 0x957); (0x962, 0x963); (0x971, 0x971); (0x981, 0x981);
   (0x9BC, 0x9BC); (0x9C1, 0x9C4); (0x9CD, 0x9CD); (0x9E2, 0x9E3);
   (0x9FE, 0x9FE); (0xA01, 0xA02); (0xA3C, 0xA3C); (0xA41, 0xA42);
   (0xA47, 0xA48); (0xA4B, 0xA4D); (0xA51, 0xA51); (0xA70, 0xA71);
   (0xA75, 0xA75); (0xA81, 0xA82); (0xABC, 0xABC); (0xAC1, 0xAC5);
   (0xAC7, 0xAC8); (0xACD, 0xACD); (0xAE2, 0xAE3); (0xAFA, 0xAFF);
   (0xB01, 0xB01); (0xB3C, 0xB3C); (0xB3F, 0xB3F); (0xB41, 0xB44);
   (0xB4D, 0xB4D); (0xB55, 0xB56); (0xB62, 0xB63); (0xB82, 0xB82);
   (0xBC0, 0xBC0); (0xBCD, 0xBCD); (0xC00, 0xC00); (0xC04, 0xC04);
   (0xC3C, 0xC3C); (0xC3E, 0xC40); (0xC46, 0xC48); (0xC4A, 0xC4D);
   (0xC55, 0xC56); (0xC62, 0xC63); (0xC81, 0xC81); (0xCBC, 0xCBC);
   (0xCBF, 0xCBF); (0xCC6, 0xCC6); (0xCCC, 0xCCD); (0xCE2, 0xCE3);
   (0xD00, 0xD01); (0xD3B, 0xD3C); (0xD41, 0xD44); (0xD4D, 0xD4D);
   (0xD62, 0xD63); (0xD81, 0xD81); (0xDCA, 0xDCA); (0xDD2, 0xDD4);
   (0xDD6, 0xDD6); (0xE31, 0xE31); (0xE34, 0xE3A); (0xE46, 0xE4E);
   (0xEB1, 0xEB1); (0xEB4, 0xEBC); (0xEC6, 0xEC6); (0xEC8, 0xECD);
   (0xF18, 0xF19); (0xF35, 0xF35); (0xF37, 0xF37); (0xF39, 0xF39);
   (0xF71, 0xF7E); (0xF80, 0xF84); (0xF86, 0xF87); (0xF8D, 0xF97);
   (0xF99, 0xFBC); (0xFC6, 0xFC6); (0x102D, 0x1030); (0x1032, 0x1037);
   (0x1039, 0x103A); (0x103D, 0x103E); (0x1058, 0x1059); (0x105E, 0x1060);
   (0x1071, 0x1074); (0x1082, 0x1082); (0x1085, 0x1086); (0x108D, 0x108D);
   (0x109D, 0x109D); (0x10FC, 0x10FC); (0x135D, 0x135F); (0x1712, 0x1714);
   (0x1732, 0x1733); (0x1752, 0x1753); (0x1772, 0x1773); (0x17B4, 0x17B5);
   (0x17B7, 0x17BD); (0x17C6, 0x17C6); (0x17C9, 0x17D3); (0x17D7, 0x17D7);
   (0x17DD, 0x17DD); (0x180B, 0x180F); (0x1843, 0x1843); (0x1885, 0x1886);
   (0x18A9, 0x18A9); (0x1920, 0x1922); (0x1927, 0x1928); (0x1932, 0x1932);
   (0x1939, 0x193B); (0x1A17, 0x1A18); (0x1A1B, 0x1A1B); (0x1A56, 0x1A56);
   (0x1A58, 0x1A5E); (0x1A60, 0x1A60); (0x1A62, 0x1A62); (0x1A65, 0x1A6C);
   (0x1A73, 0x1A7C); (0x1A7F, 0x1A7F); (0x1AA7, 0x1AA7); (0x1AB0, 0x1ACE);
   (0x1B00, 0x1B03); (0x1B34, 0x1B34); (0x1B36, 0x1B3A); (0x1B3C, 0x1B3C);
   (0x1B42, 0x1B42); (0x1B6B, 0x1B73); (0x1B80, 0x1B81); (0x1BA2, 0x1BA5);
   (0x1BA8, 0x1BA9); (0x1BAB, 0x1BAD); (0x1BE6, 0x1BE6); (0x1BE8, 0x1BE9);
   (0x1BED, 0x1BED); (0x1BEF, 0x1BF1); (0x1C2C, 0x1C33); (0x1C36, 0x1C37);
   (0x1C78, 0x1C7D); (0x1CD0, 0x1CD2); (0x1CD4, 0x1CE0); (0x1CE2, 0x1CE8);
   (0x1CED, 0x1CED); (0x1CF4, 0x1CF4); (0x1CF8, 0x1CF9); (0x1D2C, 0x1D6A);
   (0x1D78, 0x1D78); (0x1D9B, 0x1DFF); (0x1FBD, 0x1FBD); (0x1FBF, 0x1FC1);
   (0x1FCD, 0x1FCF); (0x1FDD, 0x1FDF); (0x1FED, 0x1FEF); (0x1FFD, 0x1FFE);
   (0x200B, 0x200F); (0x2018, 0x2019); (0x2024, 0x2024); (0x2027, 0x2027);
   (0x202A, 0x202E); (0x2060, 0x2064); (0x2066, 0x206F); (0x2071, 0x2071);
   (0x207F, 0x207F); (0x2090, 0x209C); (0x20D0, 0x20F0); (0x2C7C, 0x2C7D);
   (0x2CEF, 0x2CF1); (0x2D6F, 0x2D6F); (0x2D7F, 0x2D7F); (0x2DE0, 0x2DFF);
   (0x2E2F, 0x2E2F); (0x3005, 0x3005); (0x302A, 0x302D); (0x3031, 0x3035);
   (0x303B, 0x303B); (0x3099, 0x309E); (0x30FC, 0x30FE); (0xA015, 0xA015);
   (0xA4F8, 0xA4FD); (0xA60C, 0xA60C); (0xA66F, 0xA672); (0xA674, 0xA67D);
   (0xA67F, 0xA67F); (0xA69C, 0xA69F); (0xA6F0, 0xA6F1); (0xA700, 0xA721);
   (0xA770, 0xA770); (0xA788, 0xA78A); (0xA7F2, 0xA7F4); (0xA7F8, 0xA7F9);
   (0xA802, 0xA802); (0xA806, 0xA806); (0xA80B, 0xA80B); (0xA825, 0xA826);
   (0xA82C, 0xA82C); (0xA8C4, 0xA8C5); (0xA8E0, 0xA8F1); (0xA8FF, 0xA8FF);
   (0xA926, 0xA92D); (0xA947, 0xA951); (0xA980, 0xA982); (0xA9B3, 0xA9B3);
   (0xA9B6, 0xA9B9); (0xA9BC, 0xA9BD); (0xA9CF, 0xA9CF); (0xA9E5, 0xA9E6);
   (0xAA29, 0xAA2E); (0xAA31, 0xAA32); (0xAA35, 0xAA36); (0xAA43, 0xAA43);
   (0xAA4C, 0xAA4C); (0xAA70, 0xAA70); (0xAA7C, 0xAA7C); (0xAAB0, 0xAAB0);
   (0xAAB2, 0xAAB4); (0xAAB7, 0xAAB8); (0xAABE, 0xAABF); (0xAAC1, 0xAAC1);
   (0xAADD, 0xAADD); (0xAAEC, 0xAAED); (0xAAF3, 0xAAF4); (0xAAF6, 0xAAF6);
   (0xAB5B, 0xAB5F); (0xAB69, 0xAB6B); (0xABE5, 0xABE5); (0xABE8, 0xABE8);
   (0xABED, 0xABED); (0xFB1E, 0xFB1E); (0xFBB2, 0xFBC2); (0xFE00, 0xFE0F);
   (0xFE13, 0xFE13); (0xFE20, 0xFE2F); (0xFE52, 0xFE52); (0xFE55, 0xFE55);
   (0xFEFF, 0xFEFF); (0xFF07, 0xFF07); (0xFF0E, 0xFF0E); (0xFF1A, 0xFF1A);
   (0xFF3E, 0xFF3E); (0xFF40, 0xFF40); (0xFF70, 0xFF70); (0xFF9E, 0xFF9F);
   (0xFFE3, 0xFFE3); (0xFFF9, 0xFFFB); (0x101FD, 0x101FD); (0x102E0, 0x102E0);
   (0x10376, 0x1037A); (0x10780, 0x10785); (0x10787, 0x107B0);
   (0x107B2, 0x107BA); (0x10A01, 0x10A03); (0x10A05, 0x10A06);
   (0x10A0C, 0x10A0F); (0x10A38, 0x10A3A); (0x10A3F, 0x10A3F);
   (0x10AE5, 0x10AE6); (0x10D24, 0x10D27); (0x10EAB, 0x10EAC);
   (0x10F46, 0x10F50); (0x10F82, 0x10F85); (0x11001, 0x11001);
   (0x11038, 0x11046); (0x11070, 0x11070); (0x11073, 0x11074);
   (0x1107F, 0x11081); (0x110B3, 0x110B6); (0x110B9, 0x110BA);
   (0x110BD, 0x110BD); (0x110C2, 0x110C2); (0x110CD, 0x110CD);
   (0x11100, 0x11102); (0x11127, 0x1112B); (0x1112D, 0x11134);
   (0x11173, 0x11173); (0x11180, 0x11181); (0x111B6, 0x111BE);
   (0x111C9, 0x111CC); (0x111CF, 0x111CF); (0x1122F, 0x11231);
   (0x11234, 0x11234); (0x11236, 0x11237); (0x1123E, 0x1123E);
   (0x112DF, 0x112DF); (0x112E3, 0x112EA); (0x11300, 0x11301);
   (0x1133B, 0x1133C); (0x11340, 0x11340); (0x11366, 0x1136C);
   (0x11370, 0x11374); (0x11438, 0x1143F); (0x11442, 0x11444);
   (0x11446, 0x11446); (0x1145E, 0x1145E); (0x114B3, 0x114B8);
   (0x114BA, 0x114BA); (0x114BF, 0x114C0); (0x114C2, 0x114C3);
   (0x115B2, 0x115B5); (0x115BC, 0x115BD); (0x115BF, 0x115C0);
   (0x115DC, 0x115DD); (0x11633, 0x1163A); (0x1163D, 0x1163D);
   (0x1163F, 0x11640); (0x116AB, 0x116AB); (0x116AD, 0x116AD);
   (0x116B0, 0x116B5); (0x116B7, 0x116B7); (0x1171D, 0x1171F);
   (0x11722, 0x11725); (0x11727, 0x1172B); (0x1182F, 0x11837);
   (0x11839, 0x1183A); (0x1193B, 0x1193C); (0x1193E, 0x1193E);
   (0x11943, 0x11943); (0x119D4, 0x119D7); (0x119DA, 0x119DB);
   (0x119E0, 0x119E0); (0x11A01, 0x11A0A); (0x11A33, 0x11A38);
   (0x11A3B, 0x11A3E); (0x11A47, 0x11A47); (0x11A51, 0x11A56);
   (0x11A59, 0x11A5B); (0x11A8A, 0x11A96); (0x11A98, 0x11A99);
   (0x11C30, 0x11C36); (0x11C38, 0x11C3D); (0x11C3F, 0x11C3F);
   (0x11C92, 0x11CA7); (0x11CAA, 0x11CB0); (0x11CB2, 0x11CB3);
   (0x11CB5, 0x11CB6); (0x11D31, 0x11D36); (0x11D3A, 0x11D3A);
   (0x11D3C, 0x11D3D); (0x11D3F, 0x11D45); (0x11D47, 0x11D47);
   (0x11D90, 0x11D91); (0x11D95, 0x11D95); (0x11D97, 0x11D97);
   (0x11EF3, 0x11EF4); (0x13430, 0x13438); (0x16AF0, 0x16AF4);
   (0x16B30, 0x16B36); (0x16B40, 0x16B43); (0x16F4F, 0x16F4F);
   (0x16F8F, 0x16F9F); (0x16FE0, 0x16FE1); (0x16FE3, 0x16FE4);
   (0x1AFF0, 0x1AFF3); (0x1AFF5, 0x1AFFB); (0x1AFFD, 0x1AFFE);
   (0x1BC9D, 0x1BC9E); (0x1BCA0, 0x1BCA3); (0x1CF00, 0x1CF2D);
   (0x1CF30, 0x1CF46); (0x1D167, 0x1D169); (0x1D173, 0x1D182);
   (0x1D185, 0x1D18B); (0x1D1AA, 0x1D1AD); (0x1D242, 0x1D244);
   (0x1DA00, 0x1DA36); (0x1DA3B, 0x1DA6C); (0x1DA75, 0x1DA75);
   (0x1DA84, 0x1DA84); (0x1DA9B, 0x1DA9F); (0x1DAA1, 0x1DAAF);
   (0x1E000, 0x1E006); (0x1E008, 0x1E018); (0x1E01B, 0x1E021);
   (0x1E023, 0x1E024); (0x1E026, 0x1E02A); (0x1E130, 0x1E13D);
   (0x1E2AE, 0x1E2AE); (0x1E2EC, 0x1E2EF); (0x1E8D0, 0x1E8D6);
   (0x1E944, 0x1E94B); (0x1F3FB, 0x1F3FF); (0xE0001, 0xE0001);
   (0xE0020, 0xE007F); (0xE0100, 0xE01EF)
  ]%N.

Definition cased (c : N) : bool := in_ranges c cased_ranges.
Definition case_ignorable (c : N) : bool := in_ranges c case_ignorable_ranges.

(** Whether the first code point of [s] that is not case-ignorable exists
    and is cased. *)
Fixpoint next_cased (s : pystr) : bool :=
  match s with
  | [] => false
  | c :: s' => if case_ignorable c then next_cased s' else cased c
  end.

(** A capital sigma (U+03A3) is in final position when, case-ignorable
    code points aside, a cased code point comes before it and none comes
    after it.  [before_rev] holds the code points before the sigma, the
    nearest first. *)
Definition final_sigma (before_rev after : pystr) : bool :=
  next_cased before_rev && negb (next_cased after).

(** The lowercase form of the code point [c] between [before_rev] and
    [after]: a capital sigma becomes U+03C2 in final position and U+03C3
    elsewhere; every other code point is lowercased alone. *)
Definition lower_at (before_rev : pystr) (c : N) (after : pystr) : list N :=
  if (c =? 0x3A3)%N
  then [if final_sigma before_rev after then 0x3C2%N else 0x3C3%N]
  else lower_cp c.

Fixpoint lower_from (before_rev s : pystr) : pystr :=
  match s with
  | [] => []
  | c :: s' => lower_at before_rev c s' ++ lower_from (c :: before_rev) s'
  end.

Definition lower (s : pystr) : pystr := lower_from [] s.

(** Two notions for the properties of [lower].  What is checked of every
    pair [(k, d)] of the table: [d] is neither a capital sigma nor U+0130
    and has no lowercase form of its own, and neither [k] nor [d] is a
    hyphen or a newline.  And a code point that lowercasing leaves alone, a
    capital sigma apart. *)
Definition pair_ok (kd : N * N) : bool :=
  let d := snd kd in
  negb (d =? 0x3A3)%N && negb (d =? 0x130)%N
  && bool_decide (lookup_pair d lower_pairs = None)
  && negb (fst kd =? 0x2D)%N && negb (fst kd =? 10)%N
  && negb (d =? 0x2D)%N && negb (d =? 10)%N.

Definition fixed (d : N) : Prop := d <> 0x3A3%N /\ lower_cp d = [d].

(** *** Exceptions *)

(** Exception classes that the modelled code raises, catches or lets
    through.  [DNSErrorCode] is the enum of [dns/resolver.py]; it sits here
    because [DNSError] is one of the classes. *)
Inductive DNSErrorCode := NOT_FOUND | INVALID_NAME | TIMEOUT | SERVER_ERROR | NETWORK_ERROR.

Inductive exc_class :=
  | TypeError | AttributeError | ValueError | JSONDecodeError
  | KeyError | RuntimeError | OverflowError
  | HttpxTimeoutException | HttpxConnectError | HttpxOtherError
  | DNSError (code : DNSErrorCode)
  | SystemExit | KeyboardInterrupt | CancelledError | GeneratorExit.

(** [issubclass(c, Exception)]: the last four derive from [BaseException]
    only. *)
Definition is_Exception (c : exc_class) : bool :=
  match c with
  | SystemExit | KeyboardInterrupt | CancelledError | GeneratorExit => false
  | _ => true
  end.

Definition is_TypeError (c : exc_class) : bool :=
  match c with TypeError => true | _ => false end.

(** A raised exception: its class and [str(e)]. *)
Record exn := Exn { exn_class : exc_class; exn_msg : pystr }.

(** The outcome of running Python code: a value or a raised exception. *)
Inductive result (A : Type) :=
  | Ret (a : A)
  | Raise (e : exn).
Arguments Ret {A} a.
Arguments Raise {A} e.

(** Sequencing: the first exception raised ends the computation. *)
Definition bind {A B} (m : result A) (k : A -> result B) : result B :=
  match m with
  | Ret a => k a
  | Raise e => Raise e
  end.

Notation "'let*' x ':=' m 'in' k" := (bind m (fun x => k))
  (at level 10, x name, m at level 200, k at level 200).

(** *** Values *)

(** Dynamically typed values: what JSON decoding yields and what tool
    handlers take and return.  A [VDict] keeps its items in insertion
    order, each key once. *)
Inductive pyval :=
  | VNone
  | VBool (b : bool)
  | VInt (z : Z)
  | VFloat (x : pyfloat)
  | VStr (s : pystr)
  | VList (l : list pyval)
  | VDict (d : list (pystr * pyval)).

(** [type(v).__name__]. *)
Definition type_name (v : pyval) : pystr :=
  match v with
  | VNone => str "NoneType"
  | VBool _ => str "bool"
  | VInt _ => str "int"
  | VFloat _ => str "float"
  | VStr _ => str "str"
  | VList _ => str "list"
  | VDict _ => str "dict"
  end.

(** [bool(v)]: a float is false when it equals zero, so NaN is true. *)
Definition truthy (v : pyval) : bool :=
  match v with
  | VNone => false
  | VBool b => b
  | VInt z => negb (z =? 0)%Z
  | VFloat x => negb (PrimFloat.eqb x 0)
  | VStr s => negb (bool_decide (s = []))
  | VList l => match l with [] => false | _ => true end
  | VDict d => match d with [] => false | _ => true end
  end.

Fixpoint assoc (k : pystr) (d : list (pystr * pyval)) : option pyval :=
  match d with
  | [] => None
  | (k', v) :: d' => if bool_decide (k = k') then Some v else assoc k d'
  end.

(** [v.get(k, dflt)]: only a dict has the method. *)
Definition get (v : pyval) (k : pystr) (dflt : pyval) : result pyval :=
  match v with
  | VDict d => Ret (default dflt (assoc k d))
  | _ => Raise (Exn AttributeError
                  (str "'" ++ type_name v ++ str "' object has no attribute 'get'"))
  end.

(** The numbers among the values; a [bool] takes part in arithmetic as the
    [int] 0 or 1. *)
Inductive number :=
  | NInt (z : Z)
  | NFloat (x : pyfloat).

Definition as_number (v : pyval) : option number :=
  match v with
  | VInt z => Some (NInt z)
  | VBool b => Some (NInt (Z.b2z b))
  | VFloat x => Some (NFloat x)
  | _ => None
  end.

(** The conversion of an [int] to a [float]: the nearest double, ties to
    even; from [2^1024 - 2^970] on that would be infinite, and
    [OverflowError] is raised. *)
Definition float_of_int (z : Z) : result pyfloat :=
  if (2 ^ 1024 - 2 ^ 970 <=? Z.abs z)%Z then
    Raise (Exn OverflowError (str "int too large to convert to float"))
  else Ret (SF2Prim (binary_normalize 53 1024 z 0 false)).

(** [x + v] for a float [x]. *)
Definition float_add (x : pyfloat) (v : pyval) : result pyfloat :=
  match as_number v with
  | Some (NFloat y) => Ret (PrimFloat.add x y)
  | Some (NInt z) => let* y := float_of_int z in Ret (PrimFloat.add x y)
  | None => Raise (Exn TypeError
                     (str "unsupported operand type(s) for +: 'float' and '"
                      ++ type_name v ++ str "'"))
  end.

End Py.

(** ** The fragment of Python's [re] used by [core/types.py] *)

Module Re.

Inductive regex :=
  | Void                             (* no string; arises in derivatives only *)
  | Eps                              (* the empty string *)
  | Class (ranges : list (N * N))    (* a bracket class of inclusive ranges *)
  | Cat (r1 r2 : regex)
  | Alt (r1 r2 : regex)              (* arises in derivatives only *)
  | Star (r : regex)                 (* r* *)
  | Opt (r : regex).                 (* (r)? *)

Definition in_class (c : N) (ranges : list (N * N)) : bool :=
  existsb (fun lh => (fst lh <=? c)%N && (c <=? snd lh)%N) ranges.

(** The strings of a regular expression. *)
Inductive matches : regex -> pystr -> Prop :=
  | MEps : matches Eps []
  | MClass rs c : in_class c rs = true -> matches (Class rs) [c]
  | MCat r1 r2 s1 s2 :
      matches r1 s1 -> matches r2 s2 -> matches (Cat r1 r2) (s1 ++ s2)
  | MAltL r1 r2 s : matches r1 s -> matches (Alt r1 r2) s
  | MAltR r1 r2 s : matches r2 s -> matches (Alt r1 r2) s
  | MStarNil r : matches (Star r) []
  | MStarApp r s1 s2 :
      matches r s1 -> matches (Star r) s2 -> matches (Star r) (s1 ++ s2)
  | MOptNone r : matches (Opt r) []
  | MOptSome r s : matches r s -> matches (Opt r) s.

(** Matching by derivatives: the executable matcher. *)
Fixpoint nullable (r : regex) : bool :=
  match r with
  | Void => false
  | Eps => true
  | Class _ => false
  | Cat r1 r2 => nullable r1 && nullable r2
  | Alt r1 r2 => nullable r1 || nullable r2
  | Star _ => true
  | Opt _ => true
  end.

Fixpoint deriv (c : N) (r : regex) : regex :=
  match r with
  | Void => Void
  | Eps => Void
  | Class rs => if in_class c rs then Eps else Void
  | Cat r1 r2 =>
      if nullable r1 then Alt (Cat (deriv c r1) r2) (deriv c r2)
      else Cat (deriv c r1) r2
  | Alt r1 r2 => Alt (deriv c r1) (deriv c r2)
  | Star r1 => Cat (deriv c r1) (Star r1)
  | Opt r1 => deriv c r1
  end.

Fixpoint fullmatch (r : regex) (s : pystr) : bool :=
  match s with
  | [] => nullable r
  | c :: s' => fullmatch (deriv c r) s'
  end.

(** [re.compile("^" + r + "$").match(s) is not None], no flags.  [match]
    anchors at the start; [$] holds at the end of the string and also just
    before a newline that is the last character. *)
Definition match_anchored (r : regex) (s : pystr) : bool :=
  fullmatch r s ||
  match rev s with
  | c :: s' => (c =? 10)%N && fullmatch r (rev s')
  | [] => false
  end.

End Re.

(** ** [core/types.py] *)

Module Core.
Import Py.

Record AgentID := {
  name : pystr;
  public_key : pyval;
  description : pystr;
}.

Inductive SessionState :=
  | INITIATING | HANDSHAKE | ACTIVE | SUSPENDED | RESUMING | CLOSING | CLOSED | ERROR.

Module Session.
Record t := {
  id : pystr;
  local_agent : AgentID;
  remote_agent : AgentID;
  state : SessionState;
  created_at : pyfloat;
  updated_at : pyfloat;
  metadata : gmap pystr pyval;
}.

(** The dataclass constructor [Session(id=.., local_agent=..,
    remote_agent=.., state=..)]: an omitted [state] is [INITIATING]; both
    timestamps default to a reading of [time.time()], the metadata to an
    empty dict. *)
Definition new (id : pystr) (local_agent remote_agent : AgentID)
    (state : option SessionState) (t_created t_updated : pyfloat) : t :=
  {| id := id; local_agent := local_agent; remote_agent := remote_agent;
     state := default INITIATING state;
     created_at := t_created; updated_at := t_updated; metadata := ∅ |}.

(** The attribute assignment [session.state = st]. *)
Definition set_state (st : SessionState) (s : t) : t :=
  {| id := id s; local_agent := local_agent s; remote_agent := remote_agent s;
     state := st;
     created_at := created_at s; updated_at := updated_at s;
     metadata := metadata s |}.
End Session.

(** [[a-z0-9\u0080-\uffff]] and the same class with the hyphen added. *)
Definition name_char : list (N * N) :=
  [(0x61, 0x7A); (0x30, 0x39); (0x80, 0xFFFF)]%N.
Definition name_char_hyphen : list (N * N) :=
  [(0x61, 0x7A); (0x30, 0x39); (0x80, 0xFFFF); (0x2D, 0x2D)]%N.

(** The body of [_AGENT_NAME_RE], between [^] and [$]:
    [[a-z0-9\u0080-\uffff]([a-z0-9\u0080-\uffff-]*[a-z0-9\u0080-\uffff])?]. *)
Definition _AGENT_NAME_RE : Re.regex :=
  Re.Cat (Re.Class name_char)
         (Re.Opt (Re.Cat (Re.Star (Re.Class name_char_hyphen)) (Re.Class name_char))).

Definition parse_agent_uri (uri : pystr) : option pystr :=
  if negb (startswith (str "agent://") uri) then None
  else
    let name := lower (drop 8 uri) in
    if (length name <? 2) || (50 <? length name) then None
    else if startswith (str "-") name || endswith (str "-") name then None
    else if negb (Re.match_anchored _AGENT_NAME_RE name) then None
    else Some name.

Definition is_valid_agent_uri (uri : pystr) : bool :=
  bool_decide (parse_agent_uri uri ≠ None).

Definition validate_agent_name (name : pystr) : bool :=
  if (length name <? 2) || (50 <? length name) then false
  else if startswith (str "-") name || endswith (str "-") name then false
  else Re.match_anchored _AGENT_NAME_RE (lower name).

Definition to_agent_uri (name : pystr) : pystr :=
  str "agent://" ++ lower name.

End Core.

(** ** [protocol/types.py] *)

Module Protocol.
Import Py.

Inductive MessageType := REQUEST | RESPONSE | EVENT | ERROR.

Module ErrorCodes.
Definition INVALID_REQUEST : Z := -32600.
Definition METHOD_NOT_FOUND : Z := -32601.
Definition INVALID_PARAMS : Z := -32602.
Definition INTERNAL_ERROR : Z := -32603.
Definition TIMEOUT : Z := -32000.
Definition SESSION_NOT_FOUND : Z := -32001.
Definition DUPLICATE_MESSAGE : Z := -32002.
End ErrorCodes.

Module RequestFrame.
Record t := {
  type : MessageType;
  id : pystr;
  method : pystr;
  params : list (pystr * pyval);
  session_id : option pystr;
  timestamp : pyfloat;
}.
End RequestFrame.

Module ResponseFrame.
Record t := {
  type : MessageType;
  id : pystr;
  request_id : pystr;
  result : pyval;
  session_id : option pystr;
  timestamp : pyfloat;
}.
End ResponseFrame.

Module EventFrame.
Record t := {
  type : MessageType;
  id : pystr;
  event : pystr;
  data : pyval;
  session_id : option pystr;
  timestamp : pyfloat;
}.
End EventFrame.

Module ErrorFrame.
Record t := {
  type : MessageType;
  id : pystr;
  request_id : pystr;
  code : Z;
  message : pystr;
  data : pyval;
  session_id : option pystr;
  timestamp : pyfloat;
}.
End ErrorFrame.

(** What [validate_frame] may be handed: an instance of one of the four
    frame classes, or any other object. *)
Inductive pyobj :=
  | ARequest (f : RequestFrame.t)
  | AResponse (f : ResponseFrame.t)
  | AnEvent (f : EventFrame.t)
  | AnError (f : ErrorFrame.t)
  | Other (v : pyval).

(** The constructors: [generate_id()] and [time.time()] are read from the
    environment and passed in as [new_id] and [now]. *)
Definition create_request_frame (new_id : pystr) (now : pyfloat) (method : pystr)
    (params : option (list (pystr * pyval))) (session_id : option pystr)
    : RequestFrame.t :=
  {| RequestFrame.type := REQUEST; RequestFrame.id := new_id;
     RequestFrame.method := method;
     RequestFrame.params :=
       match params with
       | Some ((_ :: _) as p) => p
       | _ => []
       end;
     RequestFrame.session_id := session_id; RequestFrame.timestamp := now |}.

Definition create_response_frame (new_id : pystr) (now : pyfloat) (request_id : pystr)
    (result : pyval) (session_id : option pystr) : ResponseFrame.t :=
  {| ResponseFrame.type := RESPONSE; ResponseFrame.id := new_id;
     ResponseFrame.request_id := request_id; ResponseFrame.result := result;
     ResponseFrame.session_id := session_id; ResponseFrame.timestamp := now |}.

Definition create_event_frame (new_id : pystr) (now : pyfloat) (event : pystr)
    (data : pyval) (session_id : option pystr) : EventFrame.t :=
  {| EventFrame.type := EVENT; EventFrame.id := new_id;
     EventFrame.event := event; EventFrame.data := data;
     EventFrame.session_id := session_id; EventFrame.timestamp := now |}.

Definition create_error_frame (new_id : pystr) (now : pyfloat) (request_id : pystr)
    (code : Z) (message : pystr) (data : pyval) (session_id : option pystr)
    : ErrorFrame.t :=
  {| ErrorFrame.type := ERROR; ErrorFrame.id := new_id;
     ErrorFrame.request_id := request_id; ErrorFrame.code := code;
     ErrorFrame.message := message; ErrorFrame.data := data;
     ErrorFrame.session_id := session_id; ErrorFrame.timestamp := now |}.

(** [not s] for a [str]. *)
Definition is_empty (s : pystr) : bool := bool_decide (s = []).

(** The [id] attribute, once the [isinstance] test has passed. *)
Definition frame_id (frame : pyobj) : option pystr :=
  match frame with
  | ARequest f => Some (RequestFrame.id f)
  | AResponse f => Some (ResponseFrame.id f)
  | AnEvent f => Some (EventFrame.id f)
  | AnError f => Some (ErrorFrame.id f)
  | Other _ => None
  end.

Definition validate_frame (frame : pyobj) : bool :=
  match frame_id frame with
  | None => false
  | Some frame_id =>
      if is_empty frame_id then false
      else if match frame with ARequest f => is_empty (RequestFrame.method f) | _ => false end
      then false
      else if match frame with AResponse f => is_empty (ResponseFrame.request_id f) | _ => false end
      then false
      else if match frame with AnEvent f => is_empty (EventFrame.event f) | _ => false end
      then false
      else if match frame with AnError f => is_empty (ErrorFrame.request_id f) | _ => false end
      then false
      else true
  end.

End Protocol.

(** ** [tools/registry.py] *)

Module Tools.
Import Py.

Record ToolDefinition := {
  name : pystr;
  description : pystr;
  input_schema : option pyval;
  output_schema : option pyval;
}.

Module ToolContext.
Record t := {
  session_id : pystr;
  agent_name : pystr;
  metadata : gmap pystr pyval;
}.
End ToolContext.

Record ToolInvokeResult := {
  success : bool;
  result : pyval;
  error : option pystr;
}.

(** A handler is called as [await handler( **params )]: from the keyword
    arguments, a dict in insertion order, to the awaited value, or to the
    exception raised on the way (by the binding of the arguments, by the
    body, or by the [await]). *)
Abbreviation ToolHandler := (list (pystr * pyval) -> Py.result pyval).

Record ToolRegistry := {
  _tools : gmap pystr (ToolDefinition * ToolHandler);
}.

Definition init : ToolRegistry := {| _tools := ∅ |}.

Definition register (self : ToolRegistry) (name : pystr) (handler : ToolHandler)
    (description : pystr) (input_schema output_schema : option pyval)
    : ToolRegistry * ToolDefinition :=
  let defn := {| name := name; description := description;
                 input_schema := input_schema; output_schema := output_schema |} in
  ({| _tools := <[name := (defn, handler)]> (_tools self) |}, defn).

Definition unregister (self : ToolRegistry) (name : pystr) : ToolRegistry * bool :=
  ({| _tools := delete name (_tools self) |},
   bool_decide (is_Some (_tools self !! name))).

Definition get (self : ToolRegistry) (name : pystr)
    : option (ToolDefinition * ToolHandler) :=
  _tools self !! name.

Definition len (self : ToolRegistry) : nat := size (_tools self).

Definition contains (self : ToolRegistry) (name : pystr) : bool :=
  bool_decide (is_Some (_tools self !! name)).

(** [invoke] reads [self._tools] and never assigns to it; the [context]
    argument is not passed on to the handler. *)
Definition invoke (self : ToolRegistry) (name : pystr)
    (params : list (pystr * pyval)) (context : ToolContext.t)
    : Py.result ToolInvokeResult :=
  match _tools self !! name with
  | None =>
      Ret {| success := false; result := VNone;
             error := Some (str "Tool not found: " ++ name) |}
  | Some (_, handler) =>
      match handler params with
      | Ret result => Ret {| success := true; result := result; error := None |}
      | Raise e =>
          if is_TypeError (exn_class e) then
            Ret {| success := false; result := VNone;
                   error := Some (str "Invalid parameters: " ++ exn_msg e) |}
          else if is_Exception (exn_class e) then
            Ret {| success := false; result := VNone;
                   error := Some (str "Tool error: " ++ exn_msg e) |}
          else Raise e
      end
  end.

(** Handlers of the shapes the test-suite registers.  [handler0 f body] is
    [async def f(): body]; [handler2 f a b body] is [async def f(a, b):
    body], [f] being the qualified name of the function.  Binding the
    keyword arguments raises [TypeError] at the first keyword that is not a
    parameter and, if there is none, on a missing argument. *)
Definition unexpected_keyword (f k : pystr) : exn :=
  Exn TypeError (f ++ str "() got an unexpected keyword argument '" ++ k ++ str "'").

Definition handler0 (f : pystr) (body : Py.result pyval) : ToolHandler :=
  fun params =>
    match params with
    | [] => body
    | (k, _) :: _ => Raise (unexpected_keyword f k)
    end.

Definition handler2 (f a b : pystr) (body : pyval -> pyval -> Py.result pyval)
    : ToolHandler :=
  fun params =>
    match List.find (fun kv => negb (bool_decide (fst kv = a))
                               && negb (bool_decide (fst kv = b))) params with
    | Some (k, _) => Raise (unexpected_keyword f k)
    | None =>
        match assoc a params, assoc b params with
        | Some x, Some y => body x y
        | Some _, None =>
            Raise (Exn TypeError
                     (f ++ str "() missing 1 required positional argument: '"
                      ++ b ++ str "'"))
        | None, Some _ =>
            Raise (Exn TypeError
                     (f ++ str "() missing 1 required positional argument: '"
                      ++ a ++ str "'"))
        | None, None =>
            Raise (Exn TypeError
                     (f ++ str "() missing 2 required positional arguments: '"
                      ++ a ++ str "' and '" ++ b ++ str "'"))
        end
    end.

(** [x + y]. *)
Definition unsupported_add (x y : pyval) : exn :=
  Exn TypeError (str "unsupported operand type(s) for +: '" ++ type_name x
                 ++ str "' and '" ++ type_name y ++ str "'").

Definition cannot_concatenate (x y : pyval) : exn :=
  Exn TypeError (str "can only concatenate " ++ type_name x ++ str " (not "
                 ++ [34%N] ++ type_name y ++ [34%N] ++ str ") to " ++ type_name x).

Definition py_add (x y : pyval) : Py.result pyval :=
  match x, y with
  | VStr s, VStr t => Ret (VStr (s ++ t))
  | VStr _, _ => Raise (cannot_concatenate x y)
  | VList l, VList k => Ret (VList (l ++ k))
  | VList _, _ => Raise (cannot_concatenate x y)
  | _, _ =>
      match as_number x, as_number y with
      | Some (NInt a), Some (NInt b) => Ret (VInt (a + b))
      | Some (NInt a), Some (NFloat b) =>
          let* a' := float_of_int a in Ret (VFloat (PrimFloat.add a' b))
      | Some (NFloat a), Some _ => let* r := float_add a y in Ret (VFloat r)
      | _, _ => Raise (unsupported_add x y)
      end
  end.

End Tools.

(** ** [dns/resolver.py] *)

Module DNS.
Import Py.

Module AgentTool.
Record t := {
  name : pyval;
  description : pyval;
  input_schema : pyval;
  output_schema : pyval;
}.
End AgentTool.

(** The dataclass does not check its fields: what the directory sent is
    stored as decoded. *)
Module ResolvedAgent.
Record t := {
  name : pystr;
  endpoint : pyval;
  public_key : pyval;
  tools : list AgentTool.t;
  capabilities : pyval;
  ttl : pyval;
  resolved_at : pyfloat;
  metadata : list (pystr * pyval);
}.
Definition uri (a : t) : pystr := str "agent://" ++ name a.
End ResolvedAgent.

Definition code_value (code : DNSErrorCode) : pystr :=
  match code with
  | NOT_FOUND => str "NOT_FOUND"
  | INVALID_NAME => str "INVALID_NAME"
  | TIMEOUT => str "TIMEOUT"
  | SERVER_ERROR => str "SERVER_ERROR"
  | NETWORK_ERROR => str "NETWORK_ERROR"
  end.

(** [DNSError(code, message)]. *)
Definition DNSError_new (code : DNSErrorCode) (message : pystr) : exn :=
  Exn (DNSError code) (str "[" ++ code_value code ++ str "] " ++ message).

Record _CacheEntry := {
  agent : ResolvedAgent.t;
  expires_at : pyfloat;
}.

Record DNSResolverConfig := {
  server : pystr;
  timeout_ms : Z;
  default_ttl_seconds : Z;
  use_https : bool;
  port : Z;
}.

Record DNSResolver := {
  _config : DNSResolverConfig;
  _cache : gmap pystr _CacheEntry;
  _base_url : pystr;
}.

(** [DNSResolver(server, port, timeout_ms, use_https)]. *)
Definition init (server : pystr) (port timeout_ms : Z) (use_https : bool)
    : DNSResolver :=
  {| _config := {| server := server; timeout_ms := timeout_ms;
                   default_ttl_seconds := 300; use_https := use_https;
                   port := port |};
     _cache := ∅;
     _base_url := (if use_https then str "https" else str "http")
                  ++ str "://" ++ server ++ str ":" ++ str (pretty port) |}.

(** What the directory service answers to one GET: the request raises, or
    a response arrives with a status code and a body that [resp.json()]
    decodes or fails on. *)
Inductive http_reply :=
  | GetRaises (e : exn)
  | Response (status_code : Z) (json : Py.result pyval).

(** What one call of [resolve] reads from outside: the clock at the cache
    check, the service, the clock when the [ResolvedAgent] is built
    ([resolved_at]) and the clock when the entry is stored. *)
Record Env := {
  time_check : pyfloat;
  http_get : pystr -> http_reply;
  time_resolved : pyfloat;
  time_store : pyfloat;
}.

(** Lines 134-142: the name under which the cache and the service are
    asked, or [INVALID_NAME]. *)
Definition checked_name (name : pystr) : Py.result pystr :=
  let* name :=
    if startswith (str "agent://") name then
      match Core.parse_agent_uri name with
      | None => Raise (DNSError_new INVALID_NAME (str "Invalid URI: " ++ name))
      | Some parsed => Ret parsed
      end
    else Ret name
  in
  if negb (Core.validate_agent_name name) then
    Raise (DNSError_new INVALID_NAME (str "Invalid agent name: " ++ name))
  else Ret name.

(** Lines 151-163, the body of the [try]. *)
Definition lookup_try (reply : http_reply) (name : pystr) : Py.result pyval :=
  match reply with
  | GetRaises e => Raise e
  | Response status_code json =>
      if (status_code =? 404)%Z then
        Raise (DNSError_new NOT_FOUND (str "Agent not found: " ++ name))
      else if negb (status_code =? 200)%Z then
        Raise (DNSError_new SERVER_ERROR
                 (str "DNS server error: " ++ str (pretty status_code)))
      else json
  end.

(** Lines 165-172, the [except] clauses in their order. *)
Definition lookup_except (name : pystr) (e : exn) : exn :=
  match exn_class e with
  | HttpxTimeoutException =>
      DNSError_new TIMEOUT (str "DNS lookup timed out for " ++ name)
  | HttpxConnectError =>
      DNSError_new NETWORK_ERROR (str "Cannot reach DNS server: " ++ exn_msg e)
  | DNSError _ => e
  | c =>
      if is_Exception c then
        DNSError_new SERVER_ERROR (str "Unexpected error: " ++ exn_msg e)
      else e
  end.

Definition lookup (reply : http_reply) (name : pystr) : Py.result pyval :=
  match lookup_try reply name with
  | Ret data => Ret data
  | Raise e => Raise (lookup_except name e)
  end.

(** [for t in v]: the items a comprehension draws from [v]. *)
Definition iterate (v : pyval) : Py.result (list pyval) :=
  match v with
  | VList l => Ret l
  | VDict d => Ret ((fun kv => VStr (fst kv)) <$> d)
  | VStr s => Ret ((fun c => VStr [c]) <$> s)
  | _ => Raise (Exn TypeError
                  (str "'" ++ type_name v ++ str "' object is not iterable"))
  end.

Fixpoint mapM {A B} (f : A -> Py.result B) (l : list A) : Py.result (list B) :=
  match l with
  | [] => Ret []
  | x :: l' => let* y := f x in let* ys := mapM f l' in Ret (y :: ys)
  end.

(** Lines 178-183, one element of the comprehension. *)
Definition parse_tool (t : pyval) : Py.result AgentTool.t :=
  let* name := Py.get t (str "name") (VStr []) in
  let* description := Py.get t (str "description") (VStr []) in
  let* i1 := Py.get t (str "inputSchema") VNone in
  let* input_schema :=
    if truthy i1 then Ret i1 else Py.get t (str "input_schema") VNone in
  let* o1 := Py.get t (str "outputSchema") VNone in
  let* output_schema :=
    if truthy o1 then Ret o1 else Py.get t (str "output_schema") VNone in
  Ret {| AgentTool.name := name; AgentTool.description := description;
         AgentTool.input_schema := input_schema;
         AgentTool.output_schema := output_schema |}.

Definition known_keys : list pystr :=
  [str "name"; str "endpoint"; str "publicKey"; str "public_key";
   str "tools"; str "capabilities"; str "ttl"].

(** [agent_data.items()]. *)
Definition items (v : pyval) : Py.result (list (pystr * pyval)) :=
  match v with
  | VDict d => Ret d
  | _ => Raise (Exn AttributeError
                  (str "'" ++ type_name v ++ str "' object has no attribute 'items'"))
  end.

(** Lines 175-199: from the decoded body to the [ResolvedAgent]. *)
Definition parse_response (self : DNSResolver) (name : pystr) (t_resolved : pyfloat)
    (data : pyval) : Py.result ResolvedAgent.t :=
  let* agent_data := Py.get data (str "agent") data in
  let* tools_raw := Py.get agent_data (str "tools") (VList []) in
  let* ts := iterate tools_raw in
  let* tools := mapM parse_tool ts in
  let* endpoint := Py.get agent_data (str "endpoint") (VStr []) in
  let* pk := Py.get agent_data (str "public_key") (VStr []) in
  let* public_key := Py.get agent_data (str "publicKey") pk in
  let* capabilities := Py.get agent_data (str "capabilities") (VList []) in
  let* ttl := Py.get agent_data (str "ttl") (VInt (default_ttl_seconds (_config self))) in
  let* kvs := items agent_data in
  Ret {| ResolvedAgent.name := name;
         ResolvedAgent.endpoint := endpoint;
         ResolvedAgent.public_key := public_key;
         ResolvedAgent.tools := tools;
         ResolvedAgent.capabilities := capabilities;
         ResolvedAgent.ttl := ttl;
         ResolvedAgent.resolved_at := t_resolved;
         ResolvedAgent.metadata :=
           filter (fun kv => fst kv ∉ known_keys) kvs |}.

(** [time.time() + agent.ttl], the clock reading being [t]. *)
Definition add_ttl (t : pyfloat) (ttl : pyval) : Py.result pyfloat :=
  float_add t ttl.

(** The result of one call: the resolver afterwards, the URLs it sent a
    GET to, and what the call returned or raised. *)
Record Outcome := {
  after : DNSResolver;
  requests : list pystr;
  returned : Py.result ResolvedAgent.t;
}.

Definition set_cache (self : DNSResolver) (c : gmap pystr _CacheEntry)
    : DNSResolver :=
  {| _config := _config self; _cache := c; _base_url := _base_url self |}.

(** Lines 144-147: the entry, if it is there and not expired. *)
Definition cache_hit (self : DNSResolver) (now : pyfloat) (name : pystr)
    : option ResolvedAgent.t :=
  match _cache self !! name with
  | Some cached =>
      if PrimFloat.ltb now (expires_at cached) then Some (agent cached) else None
  | None => None
  end.

Definition resolve (env : Env) (self : DNSResolver) (name : pystr) : Outcome :=
  match checked_name name with
  | Raise e => {| after := self; requests := []; returned := Raise e |}
  | Ret name =>
      match cache_hit self (time_check env) name with
      | Some a => {| after := self; requests := []; returned := Ret a |}
      | None =>
          let url := _base_url self ++ str "/dns/lookup/" ++ name in
          match
            let* data := lookup (http_get env url) name in
            let* agent := parse_response self name (time_resolved env) data in
            let* expires_at := add_ttl (time_store env) (ResolvedAgent.ttl agent) in
            Ret {| agent := agent; expires_at := expires_at |}
          with
          | Raise e => {| after := self; requests := [url]; returned := Raise e |}
          | Ret entry =>
              {| after := set_cache self (<[name := entry]> (_cache self));
                 requests := [url];
                 returned := Ret (agent entry) |}
          end
      end
  end.

(** [resolve_uri] hands its argument to [resolve]. *)
Definition resolve_uri (env : Env) (self : DNSResolver) (uri : pystr) : Outcome :=
  resolve env self uri.

Definition clear_cache (self : DNSResolver) : DNSResolver := set_cache self ∅.

Definition cache_size (self : DNSResolver) : nat := size (_cache self).

End DNS.

(** ** [agent.py] *)

Module AgentPy.
Import Py.

Definition DEFAULT_DNS_SERVER : pystr := str "185.204.169.26".
Definition DEFAULT_DNS_PORT : Z := 3000.

Record AgentConfig := {
  dns_server : pystr;
  dns_port : Z;
  data_dir : pystr;
  connection_timeout_ms : Z;
  request_timeout_ms : Z;
  persistence : bool;
}.

Definition AgentConfig_default : AgentConfig :=
  {| dns_server := DEFAULT_DNS_SERVER; dns_port := DEFAULT_DNS_PORT;
     data_dir := str "~/.agenium";
     connection_timeout_ms := 30000; request_timeout_ms := 30000;
     persistence := true |}.

(** The key pair of [crypto/keys.py], as far as the agent reads it. *)
Record KeyPair := { public_key_b64 : pystr }.

(** Sessions are objects: the agent's dict and the [ConnectResult] handed
    to the caller hold references to the same [Session].  The object store
    maps a reference to the object's current fields. *)
Abbreviation ref := positive.
Abbreviation store := (gmap positive Core.Session.t).

Record ConnectResult := {
  success : bool;
  session : option ref;
  error : option pystr;
}.

(** The attributes of an [Agent]; the two handler dicts play no part in
    the operations below and are left out. *)
Record Agent := {
  _name : pystr;
  _config : AgentConfig;
  _keys : KeyPair;
  _identity : Core.AgentID;
  _tool_registry : Tools.ToolRegistry;
  _resolver : DNS.DNSResolver;
  _sessions : gmap pystr ref;
  _dns_api_key : option pystr;
  _is_running : bool;
}.

(** [Agent(name, config)], with the key pair [generate_keypair()] made.
    The message of the [ValueError] quotes [repr(name)]; its text is taken
    as given, in [name_repr], the escaping rules of [repr] not being
    modelled. *)
Definition init (name name_repr : pystr) (config : option AgentConfig)
    (keys : KeyPair) : Py.result Agent :=
  if negb (Core.validate_agent_name name) then
    Raise (Exn ValueError
             (str "Invalid agent name: " ++ name_repr ++ str ". "
              ++ str "Must be 2-50 chars, lowercase alphanumeric/hyphens, "
              ++ str "no leading/trailing hyphen."))
  else
    let config := default AgentConfig_default config in
    Ret {| _name := name;
           _config := config;
           _keys := keys;
           _identity :=
             {| Core.name := name;
                Core.public_key := VStr (public_key_b64 keys);
                Core.description := str "AGENIUM Agent: " ++ name |};
           _tool_registry := Tools.init;
           _resolver := DNS.init (dns_server config) (dns_port config) 10000 false;
           _sessions := ∅;
           _dns_api_key := None;
           _is_running := false |}.

Definition set_running (b : bool) (self : Agent) : Agent :=
  {| _name := _name self; _config := _config self; _keys := _keys self;
     _identity := _identity self; _tool_registry := _tool_registry self;
     _resolver := _resolver self; _sessions := _sessions self;
     _dns_api_key := _dns_api_key self; _is_running := b |}.

Definition set_sessions (m : gmap pystr ref) (self : Agent) : Agent :=
  {| _name := _name self; _config := _config self; _keys := _keys self;
     _identity := _identity self; _tool_registry := _tool_registry self;
     _resolver := _resolver self; _sessions := m;
     _dns_api_key := _dns_api_key self; _is_running := _is_running self |}.

Definition set_resolver (r : DNS.DNSResolver) (self : Agent) : Agent :=
  {| _name := _name self; _config := _config self; _keys := _keys self;
     _identity := _identity self; _tool_registry := _tool_registry self;
     _resolver := r; _sessions := _sessions self;
     _dns_api_key := _dns_api_key self; _is_running := _is_running self |}.

(** [self._sessions.values()]. *)
Definition values (m : gmap pystr ref) : list ref := snd <$> map_to_list m.

Definition invoke_tool (self : Agent) (name : pystr)
    (params : list (pystr * pyval)) (session_id : pystr)
    : Py.result Tools.ToolInvokeResult :=
  let ctx := {| Tools.ToolContext.session_id := session_id;
                Tools.ToolContext.agent_name := _name self;
                Tools.ToolContext.metadata := ∅ |} in
  Tools.invoke (_tool_registry self) name params ctx.

Definition start (self : Agent) : Agent :=
  if _is_running self then self else set_running true self.

(** [stop]: the loop assigns [CLOSED] to the [state] of every object the
    dict refers to, then the dict is cleared. *)
Definition close_all (refs : list ref) (objs : store) : store :=
  foldl (fun objs r => alter (Core.Session.set_state Core.CLOSED) r objs) objs refs.

Definition stop (objs : store) (self : Agent) : store * Agent :=
  if negb (_is_running self) then (objs, self)
  else
    (close_all (values (_sessions self)) objs,
     set_running false (set_sessions ∅ self)).

(** What one call of [connect] reads from outside besides the directory
    service: the identifier [generate_id()] returns and the two clock
    readings that fill [created_at] and [updated_at]. *)
Record ConnectEnv := {
  dns_env : DNS.Env;
  new_id : pystr;
  time_created : pyfloat;
  time_updated : pyfloat;
}.

(** The state after [connect] and what it returned or raised. *)
Record Connected := {
  objs_after : store;
  agent_after : Agent;
  got : Py.result ConnectResult;
}.

Definition connect (env : ConnectEnv) (objs : store) (self : Agent)
    (target : pystr) : Connected :=
  let o := DNS.resolve (dns_env env) (_resolver self) target in
  let self := set_resolver (DNS.after o) self in
  match DNS.returned o with
  | Raise e =>
      {| objs_after := objs; agent_after := self;
         got :=
           if is_Exception (exn_class e) then
             Ret {| success := false; session := None;
                    error := Some (str "DNS resolution failed: " ++ exn_msg e) |}
           else Raise e |}
  | Ret resolved =>
      let session :=
        Core.Session.new (new_id env) (_identity self)
          {| Core.name := DNS.ResolvedAgent.name resolved;
             Core.public_key := DNS.ResolvedAgent.public_key resolved;
             Core.description := [] |}
          (Some Core.ACTIVE) (time_created env) (time_updated env) in
      let r := fresh (dom objs) in
      {| objs_after := <[r := session]> objs;
         agent_after :=
           set_sessions (<[Core.Session.id session := r]> (_sessions self)) self;
         got := Ret {| success := true; session := Some r; error := None |} |}
  end.

(** The properties [name], [uri], [identity], [is_running] and [sessions]
    (a copy of the dict). *)
Definition name (self : Agent) : pystr := _name self.
Definition uri (self : Agent) : pystr := str "agent://" ++ _name self.
Definition identity (self : Agent) : Core.AgentID := _identity self.
Definition is_running (self : Agent) : bool := _is_running self.
Definition sessions (self : Agent) : gmap pystr ref := _sessions self.

Definition set_tool_registry (r : Tools.ToolRegistry) (self : Agent) : Agent :=
  {| _name := _name self; _config := _config self; _keys := _keys self;
     _identity := _identity self; _tool_registry := r;
     _resolver := _resolver self; _sessions := _sessions self;
     _dns_api_key := _dns_api_key self; _is_running := _is_running self |}.

Definition set_dns_api_key (k : option pystr) (self : Agent) : Agent :=
  {| _name := _name self; _config := _config self; _keys := _keys self;
     _identity := _identity self; _tool_registry := _tool_registry self;
     _resolver := _resolver self; _sessions := _sessions self;
     _dns_api_key := k; _is_running := _is_running self |}.

Definition register_tool (self : Agent) (name : pystr) (handler : Tools.ToolHandler)
    (description : pystr) (input_schema output_schema : option pyval)
    : Agent * Tools.ToolDefinition :=
  let rd := Tools.register (_tool_registry self) name handler description
              input_schema output_schema in
  (set_tool_registry (fst rd) self, snd rd).

(** [Agent.resolve] hands the target to the agent's resolver. *)
Definition resolve (env : DNS.Env) (self : Agent) (target : pystr)
    : Agent * DNS.Outcome :=
  let o := DNS.resolve env (_resolver self) target in
  (set_resolver (DNS.after o) self, o).

(** [send] returns whether the session is known.  For a known session it
    builds an event frame, which the source then drops (the transport is a
    stub); the frame is kept here beside the returned flag. *)
Definition send (new_id : pystr) (now : pyfloat) (self : Agent)
    (session_id event : pystr) (data : pyval)
    : bool * option Protocol.EventFrame.t :=
  match _sessions self !! session_id with
  | None => (false, None)
  | Some _ =>
      (true,
       Some (Protocol.create_event_frame new_id now event data (Some session_id)))
  end.

(** [call_tool] raises [RuntimeError] for an unknown session.  For a known
    one it builds the request frame, drops it and returns [None]; the frame
    is kept here beside the result. *)
Definition call_tool (new_id : pystr) (now : pyfloat) (self : Agent)
    (session_id tool_name : pystr) (params : option (list (pystr * pyval)))
    : Py.result pyval * option Protocol.RequestFrame.t :=
  match _sessions self !! session_id with
  | None =>
      (Raise (Exn RuntimeError (str "Session not found: " ++ session_id)), None)
  | Some _ =>
      (Ret VNone,
       Some (Protocol.create_request_frame new_id now (str "tool.invoke")
               (Some [(str "tool", VStr tool_name);
                      (str "input", VDict (default [] params))])
               (Some session_id)))
  end.

Module DNSRegistrationResult.
Record t := {
  success : bool;
  domain : option pystr;
  tools : nat;
  error : option pystr;
}.
End DNSRegistrationResult.

(** What the directory answers to the registration POST: the request
    raises, or a response arrives with its status code, its text and what
    [resp.json()] gives. *)
Inductive post_reply :=
  | PostRaises (e : exn)
  | PostResponse (status_code : Z) (text : pystr) (json : Py.result pyval).

(** [register(api_key, host)], given the answer to its POST.  The body of
    the request (name, endpoint, key and the tool list) is not modelled:
    nothing of what [register] returns or stores depends on it.  The number
    of tools reported is the length of the list comprehension over
    [list_tools()], one item per registered tool. *)
Definition register (reply : post_reply) (self : Agent) (api_key : pystr)
    (host : option pystr) : Agent * Py.result DNSRegistrationResult.t :=
  let self := set_dns_api_key (Some api_key) self in
  let n := Tools.len (_tool_registry self) in
  let caught (e : exn) : Py.result DNSRegistrationResult.t :=
    if is_Exception (exn_class e) then
      Ret {| DNSRegistrationResult.success := false;
             DNSRegistrationResult.domain := None;
             DNSRegistrationResult.tools := 0;
             DNSRegistrationResult.error := Some (exn_msg e) |}
    else Raise e in
  (self,
   match reply with
   | PostRaises e => caught e
   | PostResponse status_code text json =>
       if (status_code =? 200)%Z || (status_code =? 201)%Z then
         match json with
         | Ret data =>
             Ret {| DNSRegistrationResult.success := true;
                    DNSRegistrationResult.domain :=
                      Some (str "agent://" ++ _name self);
                    DNSRegistrationResult.tools := n;
                    DNSRegistrationResult.error := None |}
         | Raise e => caught e
         end
       else
         Ret {| DNSRegistrationResult.success := false;
                DNSRegistrationResult.domain := None;
                DNSRegistrationResult.tools := 0;
                DNSRegistrationResult.error :=
                  Some (str "Registration failed: " ++ str (pretty status_code)
                        ++ str " " ++ text) |}
   end).

End AgentPy.

(** ** [cli.py], the [validate] command *)

Module Cli.
Import Py.

(** What a command leaves behind: the text printed to standard output and
    the status passed to [sys.exit], if it is called. *)
Record Ran := {
  stdout : pystr;
  exit_status : option Z;
}.

(** [print(line)]. *)
Definition printed (line : pystr) : pystr := line ++ [10%N].

Definition check_mark : pystr := [0x2713%N].
Definition cross_mark : pystr := [0x2717%N].
Definition arrow : pystr := [0x2192%N].

Definition _validate (name : pystr) : Ran :=
  if startswith (str "agent://") name then
    match Core.parse_agent_uri name with
    | Some ((_ :: _) as result) =>
        {| stdout := printed (check_mark ++ str " Valid URI: agent://" ++ result);
           exit_status := None |}
    | _ =>
        {| stdout := printed (cross_mark ++ str " Invalid URI: " ++ name);
           exit_status := Some 1%Z |}
    end
  else if Core.validate_agent_name name then
    {| stdout := printed (check_mark ++ str " Valid name: " ++ name ++ str " "
                          ++ arrow ++ str " agent://" ++ name);
       exit_status := None |}
  else
    {| stdout := printed (cross_mark ++ str " Invalid name: " ++ name);
       exit_status := Some 1%Z |}.

End Cli.

(** ** The name grammar and frame validity as the specification words them *)

Module Spec.
Import Py.

(** Lowercase ASCII alphanumeric, hyphen, or a non-ASCII code point from
    U+0080 on. *)
Definition name_alphabet (c : N) : bool :=
  ((0x61 <=? c)%N && (c <=? 0x7A)%N) || ((0x30 <=? c)%N && (c <=? 0x39)%N)
  || (c =? 0x2D)%N || (0x80 <=? c)%N.

(** The same alphabet with the non-ASCII part ending at U+FFFF, the upper
    end of the range the source's pattern spells out. *)
Definition name_alphabet_bmp (c : N) : bool :=
  ((0x61 <=? c)%N && (c <=? 0x7A)%N) || ((0x30 <=? c)%N && (c <=? 0x39)%N)
  || (c =? 0x2D)%N || ((0x80 <=? c)%N && (c <=? 0xFFFF)%N).

(** The AgentName grammar over an alphabet, applied after lowercasing:
    length 2 to 50, every character in the alphabet, no hyphen first or
    last. *)
Definition name_grammar (alphabet : N -> bool) (s : pystr) : bool :=
  let t := lower s in
  (2 <=? length t) && (length t <=? 50)
  && forallb alphabet t
  && negb (bool_decide (head t = Some 0x2D%N))
  && negb (bool_decide (last t = Some 0x2D%N)).

Definition validate_name : pystr -> bool := name_grammar name_alphabet.

Definition validate_name_bmp : pystr -> bool := name_grammar name_alphabet_bmp.

(** Frame validity: one of the four variants, with a non-empty id and the
    variant's own required field non-empty. *)
Definition frame_valid (frame : Protocol.pyobj) : Prop :=
  match frame with
  | Protocol.ARequest f =>
      Protocol.RequestFrame.id f <> [] /\ Protocol.RequestFrame.method f <> []
  | Protocol.AResponse f =>
      Protocol.ResponseFrame.id f <> [] /\ Protocol.ResponseFrame.request_id f <> []
  | Protocol.AnEvent f =>
      Protocol.EventFrame.id f <> [] /\ Protocol.EventFrame.event f <> []
  | Protocol.AnError f =>
      Protocol.ErrorFrame.id f <> [] /\ Protocol.ErrorFrame.request_id f <> []
  | Protocol.Other _ => False
  end.

End Spec.

(** ** Invariants of the resolver's cache *)

Module Inv.

(** Every cache entry holds an agent named as the key it is stored
    under. *)
Definition cache_named (self : DNS.DNSResolver) : Prop :=
  forall key entry,
    DNS._cache self !! key = Some entry ->
    DNS.ResolvedAgent.name (DNS.agent entry) = key.

End Inv.

(** ** Sample objects, after the test-suite *)

Module Examples.
Import Py.

Definition ctx : Tools.ToolContext.t :=
  {| Tools.ToolContext.session_id := str "s1";
     Tools.ToolContext.agent_name := str "test";
     Tools.ToolContext.metadata := ∅ |}.

(** [async def add(a, b): return a + b]. *)
Definition add : Tools.ToolHandler :=
  Tools.handler2 (str "add") (str "a") (str "b") Tools.py_add.

(** [async def fail(): raise ValueError("boom")]. *)
Definition fail : Tools.ToolHandler :=
  Tools.handler0 (str "fail") (Raise (Exn ValueError (str "boom"))).

(** A registry holding [add] and [fail], each registered with its name
    alone; [definition name] is the [ToolDefinition] this gives. *)
Definition registry : Tools.ToolRegistry :=
  let r0 := Tools.init in
  let r1 := fst (Tools.register r0 (str "add") add [] None None) in
  fst (Tools.register r1 (str "fail") fail [] None None).

Definition definition (name : pystr) : Tools.ToolDefinition :=
  {| Tools.name := name; Tools.description := [];
     Tools.input_schema := None; Tools.output_schema := None |}.

Definition add_params (x y : Z) : list (pystr * pyval) :=
  [(str "a", VInt x); (str "b", VInt y)].

(** The directory's answer for a registered agent: status 200 and a JSON
    object with an endpoint, a key and a ttl of 60 seconds. *)
Definition payload : pyval :=
  VDict [(str "endpoint", VStr (str "https://bob.example:8443"));
         (str "publicKey", VStr (str "a2V5"));
         (str "ttl", VInt 60)].

Definition service_ok (url : pystr) : DNS.http_reply :=
  DNS.Response 200 (Ret payload).

(** One call at time [t]: the three clock readings are [t], [t] and
    [t + 1]. *)
Definition env_at (t : pyfloat) (service : pystr -> DNS.http_reply) : DNS.Env :=
  {| DNS.time_check := t; DNS.http_get := service;
     DNS.time_resolved := t; DNS.time_store := PrimFloat.add t 1 |}.

Definition resolver : DNS.DNSResolver :=
  DNS.init AgentPy.DEFAULT_DNS_SERVER AgentPy.DEFAULT_DNS_PORT 10000 false.

(** A first resolution of "alice" at time 100 on a fresh resolver. *)
Definition first_call : DNS.Outcome :=
  DNS.resolve (env_at 100 service_ok) resolver (str "alice").

(** The agent that [payload] is read as, under the name "alice" at time
    [t]. *)
Definition alice_at (t : pyfloat) : DNS.ResolvedAgent.t :=
  {| DNS.ResolvedAgent.name := str "alice";
     DNS.ResolvedAgent.endpoint := VStr (str "https://bob.example:8443");
     DNS.ResolvedAgent.public_key := VStr (str "a2V5");
     DNS.ResolvedAgent.tools := [];
     DNS.ResolvedAgent.capabilities := VList [];
     DNS.ResolvedAgent.ttl := VInt 60;
     DNS.ResolvedAgent.resolved_at := t;
     DNS.ResolvedAgent.metadata := [] |}.

(** Answers with status 200 whose body is not what [resolve] expects:
    no JSON at all, a JSON array, and an object whose ttl is a string. *)
Definition service_no_json (url : pystr) : DNS.http_reply :=
  DNS.Response 200 (Raise (Exn JSONDecodeError (str "Expecting value"))).
Definition service_array (url : pystr) : DNS.http_reply :=
  DNS.Response 200 (Ret (VList [])).
Definition service_ttl_string (url : pystr) : DNS.http_reply :=
  DNS.Response 200 (Ret (VDict [(str "ttl", VStr (str "soon"))])).

(** [Agent("test-agent")], with a key pair. *)
Definition agent : AgentPy.Agent :=
  {| AgentPy._name := str "test-agent";
     AgentPy._config := AgentPy.AgentConfig_default;
     AgentPy._keys := {| AgentPy.public_key_b64 := str "cHVi" |};
     AgentPy._identity :=
       {| Core.name := str "test-agent";
          Core.public_key := VStr (str "cHVi");
          Core.description := str "AGENIUM Agent: test-agent" |};
     AgentPy._tool_registry := Tools.init;
     AgentPy._resolver := resolver;
     AgentPy._sessions := ∅;
     AgentPy._dns_api_key := None;
     AgentPy._is_running := false |}.

Definition connect_env (id : pystr) (t : pyfloat) : AgentPy.ConnectEnv :=
  {| AgentPy.dns_env := env_at t service_ok; AgentPy.new_id := id;
     AgentPy.time_created := PrimFloat.add t 2;
     AgentPy.time_updated := PrimFloat.add t 2 |}.

Definition bob : Core.AgentID :=
  {| Core.name := str "bob"; Core.public_key := VStr (str "a2V5");
     Core.description := [] |}.

(** Two session objects, one active and one already in the error state,
    and a running agent whose dict refers to both. *)
Definition session1 : Core.Session.t :=
  Core.Session.new (str "s1") (AgentPy._identity agent) bob (Some Core.ACTIVE) 5 5.
Definition session2 : Core.Session.t :=
  Core.Session.new (str "s2") (AgentPy._identity agent) bob (Some Core.ERROR) 6 6.

Definition objects : AgentPy.store :=
  <[1%positive := session1]> (<[2%positive := session2]> ∅).

Definition running_agent : AgentPy.Agent :=
  AgentPy.set_sessions
    (<[str "s1" := 1%positive]> (<[str "s2" := 2%positive]> ∅))
    (AgentPy.start agent).

End Examples.

(** * Properties *)

(** ** The matcher decides the language of a regular expression *)

Section ReFacts.
Import Re.

Lemma app_nil_inv (s1 s2 : pystr) : s1 ++ s2 = [] -> s1 = [] /\ s2 = [].
Proof. destruct s1; [tauto | discriminate]. Qed.

Lemma nullable_matches r : nullable r = true <-> matches r [].
Proof.
  induction r as [| |rs|r1 IH1 r2 IH2|r1 IH1 r2 IH2|r IH|r IH]; simpl.
  - split; [discriminate | inversion 1].
  - split; [constructor | reflexivity].
  - split; [discriminate | inversion 1].
  - rewrite andb_true_iff, IH1, IH2. split.
    + intros [H1 H2]. exact (MCat _ _ [] [] H1 H2).
    + intros H. inversion H; subst.
      match goal with E : _ ++ _ = [] |- _ => apply app_nil_inv in E as [-> ->] end.
      tauto.
  - rewrite orb_true_iff, IH1, IH2. split.
    + intros [H|H]; [apply MAltL | apply MAltR]; exact H.
    + inversion 1; subst; tauto.
  - split; [constructor | reflexivity].
  - split; [constructor | reflexivity].
Qed.

(** A non-empty string of [r*] starts with a non-empty string of [r]. *)
Lemma star_cons_inv r c s :
  matches (Star r) (c :: s) ->
  exists s1 s2, s = s1 ++ s2 /\ matches r (c :: s1) /\ matches (Star r) s2.
Proof.
  intros H. remember (Star r) as e eqn:He. remember (c :: s) as w eqn:Hw.
  revert s Hw.
  induction H as [| | | | | |r' s1 s2 H1 _ H2 IH2| |]; intros t Ht;
    try discriminate.
  injection He as ->.
  destruct s1 as [|c1 s1]; simpl in Ht.
  - apply IH2; [reflexivity | exact Ht].
  - injection Ht as -> <-. exists s1, s2. auto.
Qed.

Lemma cat_cons_inv r1 r2 c s :
  matches (Cat r1 r2) (c :: s) ->
  (exists s1 s2, s = s1 ++ s2 /\ matches r1 (c :: s1) /\ matches r2 s2) \/
  (matches r1 [] /\ matches r2 (c :: s)).
Proof.
  intros H. inversion H as [| |e1 e2 s1 s2 H1 H2 [E1 E2] Hs| | | | | |]; subst.
  destruct s1 as [|c1 s1]; simpl in Hs.
  - right. subst s2. auto.
  - injection Hs as -> <-. left. eauto.
Qed.

Lemma cat_inv r1 r2 s :
  matches (Cat r1 r2) s ->
  exists s1 s2, s = s1 ++ s2 /\ matches r1 s1 /\ matches r2 s2.
Proof. intros H. inversion H; subst. eauto. Qed.

Lemma deriv_matches c r s : matches (deriv c r) s <-> matches r (c :: s).
Proof.
  revert s.
  induction r as [| |rs|r1 IH1 r2 IH2|r1 IH1 r2 IH2|r IH|r IH]; intros s; simpl.
  - split; inversion 1.
  - split; inversion 1.
  - destruct (in_class c rs) eqn:Hc; split; intros H; inversion H; subst.
    + constructor. exact Hc.
    + constructor.
    + congruence.
  - assert (Hcat : matches (Cat (deriv c r1) r2) s ->
                   matches (Cat r1 r2) (c :: s)).
    { intros H. apply cat_inv in H as (s1 & s2 & -> & H1 & H2).
      apply IH1 in H1. exact (MCat _ _ (c :: s1) s2 H1 H2). }
    assert (Hinv : matches (Cat r1 r2) (c :: s) ->
                   matches (Cat (deriv c r1) r2) s \/
                   (matches r1 [] /\ matches (deriv c r2) s)).
    { intros H. apply cat_cons_inv in H as [(s1 & s2 & -> & H1 & H2)|[H1 H2]].
      - left. constructor; [apply IH1; exact H1 | exact H2].
      - right. split; [exact H1 | apply IH2; exact H2]. }
    destruct (nullable r1) eqn:Hn.
    + split.
      * intros H. inversion H as [| | |e1 e2 w Hl|e1 e2 w Hr| | | |]; subst;
          [auto |].
        apply nullable_matches in Hn. apply IH2 in Hr.
        exact (MCat _ _ [] (c :: s) Hn Hr).
      * intros H.
        destruct (Hinv H) as [H'|[_ H']]; [apply MAltL | apply MAltR]; exact H'.
    + split; [exact Hcat |].
      intros H. destruct (Hinv H) as [H'|[H' _]]; [exact H' |].
      apply nullable_matches in H'. congruence.
  - split; intros H; inversion H; subst.
    + apply MAltL, IH1. assumption.
    + apply MAltR, IH2. assumption.
    + apply MAltL, IH1. assumption.
    + apply MAltR, IH2. assumption.
  - split.
    + intros H. apply cat_inv in H as (s1 & s2 & -> & H1 & H2).
      apply IH in H1. exact (MStarApp _ (c :: s1) s2 H1 H2).
    + intros H. apply star_cons_inv in H as (s1 & s2 & -> & H1 & H2).
      constructor; [apply IH; exact H1 | exact H2].
  - split.
    + intros H. apply MOptSome, IH, H.
    + intros H. inversion H; subst. apply IH. assumption.
Qed.

Lemma fullmatch_matches r s : fullmatch r s = true <-> matches r s.
Proof.
  revert r. induction s as [|c s IH]; intros r; simpl.
  - apply nullable_matches.
  - rewrite IH. apply deriv_matches.
Qed.

End ReFacts.

(** ** Strings: prefixes, suffixes and lowercasing *)

Section StrFacts.
Import Py.

Lemma startswith_prefix (p s : pystr) :
  startswith p s = true <-> exists t, s = p ++ t.
Proof.
  revert s. induction p as [|a p IH]; intros s; simpl.
  - split; [eauto | reflexivity].
  - destruct s as [|b s].
    + split; [discriminate | intros [t Ht]; discriminate].
    + rewrite andb_true_iff, N.eqb_eq, IH. split.
      * intros [-> [t ->]]. eauto.
      * intros [t Ht]. injection Ht as -> ->. eauto.
Qed.

Lemma startswith_one (x : N) (s : pystr) :
  startswith [x] s = true <-> head s = Some x.
Proof.
  destruct s as [|b s]; simpl; [split; discriminate |].
  rewrite andb_true_r, N.eqb_eq. split; [intros ->; reflexivity | congruence].
Qed.

Lemma endswith_one (x : N) (s : pystr) :
  endswith [x] s = true <-> last s = Some x.
Proof.
  unfold endswith. simpl rev. rewrite startswith_one.
  destruct s as [|b s] using rev_ind; [reflexivity |].
  rewrite rev_app_distr, last_snoc. reflexivity.
Qed.

(** *** The table of lowercase mappings *)

Lemma lookup_pair_In (c d : N) (pairs : list (N * N)) :
  lookup_pair c pairs = Some d -> In (c, d) pairs.
Proof.
  induction pairs as [|[k e] pairs IH]; [discriminate |]. simpl.
  destruct (N.eqb_spec c k) as [->|_].
  - intros [= ->]. auto.
  - auto.
Qed.

Lemma lower_pairs_ok : forallb pair_ok lower_pairs = true.
Proof. vm_compute. reflexivity. Qed.

Lemma lower_pairs_In (k d : N) :
  In (k, d) lower_pairs ->
  d <> 0x3A3%N /\ d <> 0x130%N /\ lookup_pair d lower_pairs = None /\
  k <> 0x2D%N /\ k <> 10%N /\ d <> 0x2D%N /\ d <> 10%N.
Proof.
  intros Hin. pose proof lower_pairs_ok as Hok.
  rewrite forallb_forall in Hok. specialize (Hok _ Hin).
  unfold pair_ok in Hok. cbn [fst snd] in Hok.
  rewrite !andb_true_iff, !negb_true_iff, !N.eqb_neq, bool_decide_eq_true in Hok.
  tauto.
Qed.

(** The three ways a code point is lowercased alone. *)
Lemma lower_cp_cases (c : N) :
  (c = 0x130%N /\ lower_cp c = [0x69; 0x307]%N) \/
  (c <> 0x130%N /\ lookup_pair c lower_pairs = None /\ lower_cp c = [c]) \/
  (exists d, c <> 0x130%N /\ In (c, d) lower_pairs /\ lower_cp c = [d]).
Proof.
  unfold lower_cp. destruct (N.eqb_spec c 0x130%N) as [->|Hne]; [auto |].
  destruct (lookup_pair c lower_pairs) as [d|] eqn:Hl.
  - right. right. exists d. split; [exact Hne |].
    split; [apply lookup_pair_In; exact Hl | reflexivity].
  - right. left. auto.
Qed.

Lemma lower_cp_fixed (c : N) : c <> 0x3A3%N -> Forall fixed (lower_cp c).
Proof.
  intros Hs.
  destruct (lower_cp_cases c) as [[-> ->]|[(Hne & Hl & ->)|(d & Hne & Hin & ->)]].
  - repeat constructor; (discriminate || (vm_compute; reflexivity)).
  - repeat constructor; [exact Hs |]. unfold lower_cp.
    rewrite (proj2 (N.eqb_neq _ _) Hne), Hl. reflexivity.
  - apply lower_pairs_In in Hin as (H1 & H2 & H3 & _).
    repeat constructor; [exact H1 |]. unfold lower_cp.
    rewrite (proj2 (N.eqb_neq _ _) H2), H3. reflexivity.
Qed.

Lemma lower_cp_nonempty (c : N) : lower_cp c <> [].
Proof. unfold lower_cp. destruct (c =? 0x130)%N; discriminate. Qed.

Lemma lower_cp_head (c x : N) :
  x = 0x2D%N \/ x = 10%N -> (head (lower_cp c) = Some x <-> c = x).
Proof.
  intros Hx.
  destruct (lower_cp_cases c) as [[-> ->]|[(Hne & Hl & ->)|(d & Hne & Hin & ->)]];
    cbn [head].
  - split; [intros [= <-] | intros <-]; destruct Hx; discriminate.
  - split; congruence.
  - apply lower_pairs_In in Hin as (_ & _ & _ & H1 & H2 & H3 & H4).
    split; [intros [= ->] | intros ->]; destruct Hx; congruence.
Qed.

Lemma lower_cp_last (c x : N) :
  x = 0x2D%N \/ x = 10%N -> (last (lower_cp c) = Some x <-> c = x).
Proof.
  intros Hx.
  destruct (lower_cp_cases c) as [[-> ->]|[(Hne & Hl & ->)|(d & Hne & Hin & ->)]];
    cbn [last].
  - split; [intros [= <-] | intros <-]; destruct Hx; discriminate.
  - split; congruence.
  - apply lower_pairs_In in Hin as (_ & _ & _ & H1 & H2 & H3 & H4).
    split; [intros [= ->] | intros ->]; destruct Hx; congruence.
Qed.

(** *** One code point in its context *)

Lemma lower_at_plain (b : pystr) (c : N) (after : pystr) :
  c <> 0x3A3%N -> lower_at b c after = lower_cp c.
Proof.
  intros Hc. unfold lower_at. rewrite (proj2 (N.eqb_neq _ _) Hc). reflexivity.
Qed.

Lemma lower_at_sigma (b : pystr) (after : pystr) :
  lower_at b 0x3A3%N after = [0x3C2%N] \/ lower_at b 0x3A3%N after = [0x3C3%N].
Proof.
  unfold lower_at. rewrite N.eqb_refl.
  destruct (final_sigma b after); auto.
Qed.

Lemma lower_at_nonempty (b : pystr) (c : N) (after : pystr) :
  lower_at b c after <> [].
Proof.
  destruct (N.eq_dec c 0x3A3%N) as [->|Hc].
  - destruct (lower_at_sigma b after) as [-> | ->]; discriminate.
  - rewrite lower_at_plain by exact Hc. apply lower_cp_nonempty.
Qed.

Lemma lower_at_fixed (b : pystr) (c : N) (after : pystr) :
  Forall fixed (lower_at b c after).
Proof.
  destruct (N.eq_dec c 0x3A3%N) as [->|Hc].
  - destruct (lower_at_sigma b after) as [-> | ->];
      repeat constructor; (discriminate || (vm_compute; reflexivity)).
  - rewrite lower_at_plain by exact Hc. apply lower_cp_fixed, Hc.
Qed.

Lemma lower_at_head (b : pystr) (c : N) (after : pystr) (x : N) :
  x = 0x2D%N \/ x = 10%N -> (head (lower_at b c after) = Some x <-> c = x).
Proof.
  intros Hx. destruct (N.eq_dec c 0x3A3%N) as [->|Hc].
  - destruct (lower_at_sigma b after) as [-> | ->]; cbn [head];
      (split; [intros [= <-] | intros <-]; destruct Hx; discriminate).
  - rewrite lower_at_plain by exact Hc. apply lower_cp_head, Hx.
Qed.

Lemma lower_at_last (b : pystr) (c : N) (after : pystr) (x : N) :
  x = 0x2D%N \/ x = 10%N -> (last (lower_at b c after) = Some x <-> c = x).
Proof.
  intros Hx. destruct (N.eq_dec c 0x3A3%N) as [->|Hc].
  - destruct (lower_at_sigma b after) as [-> | ->]; cbn [last];
      (split; [intros [= <-] | intros <-]; destruct Hx; discriminate).
  - rewrite lower_at_plain by exact Hc. apply lower_cp_last, Hx.
Qed.

(** *** Whole strings *)

Lemma lower_from_fixed (b s : pystr) : Forall fixed (lower_from b s).
Proof.
  revert b. induction s as [|c s IH]; intros b; [constructor |].
  cbn [lower_from]. apply Forall_app. split; [apply lower_at_fixed | apply IH].
Qed.

Lemma fixed_lower_from (b t : pystr) : Forall fixed t -> lower_from b t = t.
Proof.
  intros H. revert b. induction H as [|d t [Hd Hfix] _ IH]; intros b; [reflexivity |].
  cbn [lower_from]. rewrite lower_at_plain by exact Hd. rewrite Hfix, IH. reflexivity.
Qed.

(** Lowercasing twice is lowercasing once. *)
Lemma lower_idem (s : pystr) : lower (lower s) = lower s.
Proof. apply fixed_lower_from, lower_from_fixed. Qed.

Lemma lower_from_nonempty (b : pystr) (c : N) (s : pystr) :
  lower_from b (c :: s) <> [].
Proof.
  cbn [lower_from]. pose proof (lower_at_nonempty b c s).
  destruct (lower_at b c s); [congruence | discriminate].
Qed.

Lemma lower_head (s : pystr) (x : N) :
  x = 0x2D%N \/ x = 10%N -> (head (lower s) = Some x <-> head s = Some x).
Proof.
  intros Hx. destruct s as [|c s]; [reflexivity |].
  unfold lower. cbn [lower_from].
  pose proof (lower_at_nonempty [] c s) as Hne.
  pose proof (lower_at_head [] c s x Hx) as Hh.
  destruct (lower_at [] c s) as [|d l] eqn:E; [congruence |].
  simpl in *. rewrite Hh. split; congruence.
Qed.

Lemma last_app_nonempty {A} (l k : list A) : k <> [] -> last (l ++ k) = last k.
Proof.
  intros Hk. destruct k as [|a k _] using rev_ind; [congruence |].
  rewrite app_assoc, !last_snoc. reflexivity.
Qed.

Lemma lower_from_last (b s : pystr) (x : N) :
  x = 0x2D%N \/ x = 10%N -> (last (lower_from b s) = Some x <-> last s = Some x).
Proof.
  intros Hx. revert b. induction s as [|c s IH]; intros b; [reflexivity |].
  destruct s as [|c' s'].
  - cbn [lower_from last]. rewrite app_nil_r, (lower_at_last b c [] x Hx).
    split; congruence.
  - change (lower_from b (c :: c' :: s'))
      with (lower_at b c (c' :: s') ++ lower_from (c :: b) (c' :: s')).
    rewrite last_app_nonempty by apply lower_from_nonempty.
    rewrite IH. reflexivity.
Qed.

Lemma lower_last (s : pystr) (x : N) :
  x = 0x2D%N \/ x = 10%N -> (last (lower s) = Some x <-> last s = Some x).
Proof. apply lower_from_last. Qed.

(** How a sigma is lowercased depends on what comes before it only
    through [next_cased]. *)
Lemma lower_from_ctx (b1 b2 s : pystr) :
  next_cased b1 = next_cased b2 -> lower_from b1 s = lower_from b2 s.
Proof.
  revert b1 b2. induction s as [|c s IH]; intros b1 b2 Hb; [reflexivity |].
  cbn [lower_from]. f_equal.
  - unfold lower_at, final_sigma. rewrite Hb. reflexivity.
  - apply IH. cbn [next_cased]. rewrite Hb. reflexivity.
Qed.

(** A prefix without a capital sigma is lowercased code point by code
    point. *)
Lemma lower_from_plain_app (b p t : pystr) :
  Forall (fun c => c <> 0x3A3%N) p ->
  lower_from b (p ++ t) = flat_map lower_cp p ++ lower_from (rev p ++ b) t.
Proof.
  intros H. revert b. induction H as [|c p Hc _ IH]; intros b; [reflexivity |].
  cbn [app lower_from flat_map rev]. rewrite lower_at_plain by exact Hc.
  rewrite IH, <- !app_assoc. reflexivity.
Qed.

(** The scheme of an agent URI is lowercase already and does not reach
    into the name. *)
Lemma lower_agent_prefix (t : pystr) :
  lower (str "agent://" ++ t) = str "agent://" ++ lower t.
Proof.
  assert (Hp : flat_map lower_cp (str "agent://") = str "agent://")
    by (vm_compute; reflexivity).
  unfold lower.
  rewrite lower_from_plain_app by (vm_compute; repeat constructor; discriminate).
  rewrite Hp, (lower_from_ctx _ [] t); [reflexivity | vm_compute; reflexivity].
Qed.

Lemma next_cased_snoc (s : pystr) (x : N) :
  case_ignorable x = false -> cased x = false ->
  next_cased (s ++ [x]) = next_cased s.
Proof.
  intros Hi Hc. induction s as [|c s IH]; cbn [app next_cased].
  - rewrite Hi. exact Hc.
  - rewrite IH. reflexivity.
Qed.

(** A last code point that is neither cased nor case-ignorable, and no
    sigma, does not change how the code points before it are lowercased. *)
Lemma lower_from_snoc (b s : pystr) (x : N) :
  x <> 0x3A3%N -> case_ignorable x = false -> cased x = false ->
  lower_from b (s ++ [x]) = lower_from b s ++ lower_cp x.
Proof.
  intros Hx Hi Hc. revert b. induction s as [|c s IH]; intros b.
  - cbn [app lower_from]. rewrite lower_at_plain by exact Hx. apply app_nil_r.
  - cbn [app lower_from]. rewrite IH, app_assoc. f_equal. f_equal.
    unfold lower_at, final_sigma. rewrite next_cased_snoc by assumption.
    reflexivity.
Qed.

Lemma lower_newline (s : pystr) : lower (s ++ [10%N]) = lower s ++ [10%N].
Proof.
  unfold lower. rewrite lower_from_snoc;
    [reflexivity | discriminate | vm_compute; reflexivity | vm_compute; reflexivity].
Qed.

End StrFacts.

(** ** [_AGENT_NAME_RE] and the two validators *)

Section CoreFacts.
Import Py Re Core.

Lemma in_name_char_hyphen (c : N) :
  in_class c name_char_hyphen = in_class c name_char || (c =? 0x2D)%N.
Proof.
  unfold in_class, name_char_hyphen, name_char. cbn [existsb fst snd].
  rewrite !orb_false_r.
  destruct (N.eqb_spec c 0x2D) as [->|Hne]; [reflexivity |].
  replace ((0x2D <=? c)%N && (c <=? 0x2D)%N) with false
    by (symmetry; apply andb_false_iff; rewrite !N.leb_gt; lia).
  rewrite !orb_false_r. reflexivity.
Qed.

Lemma in_name_char_hyphen_alphabet (c : N) :
  in_class c name_char_hyphen = Spec.name_alphabet_bmp c.
Proof.
  rewrite in_name_char_hyphen. unfold in_class, name_char, Spec.name_alphabet_bmp.
  cbn [existsb fst snd]. rewrite !orb_false_r.
  repeat match goal with |- context [(?a && ?b)] =>
    let x := fresh "b" in set (x := a && b) end.
  destruct b, b0, b1, (c =? 0x2D)%N; reflexivity.
Qed.

Lemma star_class_Forall rs (s : pystr) :
  matches (Star (Class rs)) s <-> Forall (fun c => in_class c rs = true) s.
Proof.
  split.
  - intros H. remember (Star (Class rs)) as e eqn:He.
    induction H as [| | | | | |r' s1 s2 H1 _ H2 IH2| |]; try discriminate.
    + constructor.
    + injection He as ->. inversion H1; subst.
      constructor; [assumption | apply IH2; reflexivity].
  - induction 1 as [|c s Hc _ IH]; [constructor |].
    exact (MStarApp _ [c] s (MClass _ _ Hc) IH).
Qed.

(** The strings of the pattern body: non-empty, over the class with the
    hyphen, first and last character in the class without it. *)
Lemma agent_name_re_matches (s : pystr) :
  matches _AGENT_NAME_RE s <->
  Forall (fun c => in_class c name_char_hyphen = true) s /\
  (exists c, head s = Some c /\ in_class c name_char = true) /\
  (exists d, last s = Some d /\ in_class d name_char = true).
Proof.
  assert (Hsub : forall c, in_class c name_char = true ->
                           in_class c name_char_hyphen = true).
  { intros c Hc. rewrite in_name_char_hyphen, Hc. reflexivity. }
  unfold _AGENT_NAME_RE. split.
  - intros H. apply cat_inv in H as (s1 & s2 & -> & H1 & H2).
    inversion H1 as [|rs c Hc| | | | | | |]; subst. cbn [app].
    inversion H2 as [| | | | | | |r|r t Ht]; subst.
    + split; [|split]; [constructor; [auto | constructor] | eauto | eauto].
    + apply cat_inv in Ht as (mid & l & -> & Hmid & Hl).
      inversion Hl as [|rs d Hd| | | | | | |]; subst.
      apply star_class_Forall in Hmid.
      split; [|split]; [| eauto |].
      * constructor; [auto |]. apply Forall_app. split; [exact Hmid |].
        constructor; [auto | constructor].
      * exists d. split; [|exact Hd].
        change (c :: mid ++ [d]) with ((c :: mid) ++ [d]). apply last_snoc.
  - intros (Hall & (c & Hhd & Hc) & (d & Hlast & Hd)).
    destruct s as [|c' t]; [discriminate |]. injection Hhd as ->.
    apply (MCat _ _ [c] t); [constructor; exact Hc |].
    destruct t as [|x t _] using rev_ind; [apply MOptNone |].
    apply MOptSome.
    change (c :: t ++ [x]) with ((c :: t) ++ [x]) in Hlast, Hall.
    rewrite last_snoc in Hlast. injection Hlast as ->.
    apply Forall_app in Hall as [Hall _]. inversion Hall; subst.
    apply MCat; [apply star_class_Forall; assumption | constructor; exact Hd].
Qed.

Lemma match_anchored_spec r (s : pystr) :
  match_anchored r s = true <->
  matches r s \/ exists t, s = t ++ [10%N] /\ matches r t.
Proof.
  unfold match_anchored. rewrite orb_true_iff, fullmatch_matches.
  apply or_iff_compat_l.
  destruct s as [|c t _] using rev_ind.
  - simpl. split; [discriminate |]. intros (t & Ht & _).
    destruct t; discriminate.
  - rewrite rev_app_distr. simpl. rewrite andb_true_iff, N.eqb_eq, rev_involutive,
      fullmatch_matches.
    split.
    + intros [-> H]. eauto.
    + intros (t' & Ht & H). apply app_inj_tail in Ht as [-> <-]. auto.
Qed.

Lemma hyphen_literal : str "-" = [0x2D%N].
Proof. reflexivity. Qed.

Lemma length_range (n : nat) :
  (n <? 2) || (50 <? n) = false <-> 2 <= n <= 50.
Proof.
  rewrite orb_false_iff, !Nat.ltb_ge. lia.
Qed.

Lemma hyphen_edges (s : pystr) :
  startswith (str "-") s || endswith (str "-") s = false <->
  head s <> Some 0x2D%N /\ last s <> Some 0x2D%N.
Proof.
  rewrite hyphen_literal, orb_false_iff.
  rewrite <- !not_true_iff_false, startswith_one, endswith_one. reflexivity.
Qed.

(** [validate_agent_name], condition by condition. *)
Lemma validate_agent_name_true (s : pystr) :
  validate_agent_name s = true <->
  2 <= length s <= 50 /\ head s <> Some 0x2D%N /\ last s <> Some 0x2D%N /\
  match_anchored _AGENT_NAME_RE (lower s) = true.
Proof.
  unfold validate_agent_name.
  destruct ((length s <? 2) || (50 <? length s)) eqn:Hlen.
  - split; [discriminate |]. intros [H _]. apply length_range in H. congruence.
  - apply length_range in Hlen.
    destruct (startswith (str "-") s || endswith (str "-") s) eqn:Hhy.
    + split; [discriminate |]. intros (_ & H1 & H2 & _).
      assert (Hf : startswith (str "-") s || endswith (str "-") s = false)
        by (apply hyphen_edges; auto).
      congruence.
    + apply hyphen_edges in Hhy. tauto.
Qed.

(** [parse_agent_uri], condition by condition. *)
Lemma parse_agent_uri_Some (uri name : pystr) :
  parse_agent_uri uri = Some name <->
  startswith (str "agent://") uri = true /\ name = lower (drop 8 uri) /\
  2 <= length name <= 50 /\ head name <> Some 0x2D%N /\ last name <> Some 0x2D%N /\
  match_anchored _AGENT_NAME_RE name = true.
Proof.
  unfold parse_agent_uri.
  destruct (startswith (str "agent://") uri); cbn [negb];
    [| split; [discriminate | intros [? _]; discriminate]].
  set (n := lower (drop 8 uri)).
  destruct ((length n <? 2) || (50 <? length n)) eqn:Hlen.
  { split; [discriminate |]. intros (_ & -> & H & _).
    apply length_range in H. congruence. }
  apply length_range in Hlen.
  destruct (startswith (str "-") n || endswith (str "-") n) eqn:Hhy.
  { split; [discriminate |]. intros (_ & -> & _ & H1 & H2 & _).
    assert (Hf : startswith (str "-") n || endswith (str "-") n = false)
      by (apply hyphen_edges; auto).
    congruence. }
  apply hyphen_edges in Hhy.
  destruct (match_anchored _AGENT_NAME_RE n) eqn:Hre; cbn [negb].
  - split; [intros [= <-]; tauto | intros (_ & -> & _); reflexivity].
  - split; [discriminate |]. intros (_ & -> & _ & _ & _ & H). congruence.
Qed.

(** The grammar of the specification, condition by condition. *)
Lemma name_grammar_true (alphabet : N -> bool) (s : pystr) :
  Spec.name_grammar alphabet s = true <->
  2 <= length (lower s) <= 50 /\
  Forall (fun c => alphabet c = true) (lower s) /\
  head (lower s) <> Some 0x2D%N /\ last (lower s) <> Some 0x2D%N.
Proof.
  unfold Spec.name_grammar. cbv zeta.
  rewrite !andb_true_iff, !negb_true_iff, !bool_decide_eq_false,
    forallb_forall, Forall_forall, !Nat.leb_le.
  setoid_rewrite <- list_elem_of_In. tauto.
Qed.

Lemma lower_from_length_ge (b s : pystr) : length s <= length (lower_from b s).
Proof.
  revert b. induction s as [|c s IH]; intros b; [reflexivity |].
  cbn [lower_from]. rewrite length_app. pose proof (lower_at_nonempty b c s).
  specialize (IH (c :: b)).
  destruct (lower_at b c s); [congruence | simpl; lia].
Qed.

Lemma lower_length_ge (s : pystr) : length s <= length (lower s).
Proof. apply lower_from_length_ge. Qed.

(** On a string without a final newline the pattern accepts exactly the
    grammar over the alphabet that ends at U+FFFF, but for the length. *)
Lemma agent_name_re_grammar (t : pystr) :
  last t <> Some 10%N ->
  (match_anchored _AGENT_NAME_RE t = true <->
   t <> [] /\ Forall (fun c => Spec.name_alphabet_bmp c = true) t /\
   head t <> Some 0x2D%N /\ last t <> Some 0x2D%N).
Proof.
  intros Hnl. rewrite match_anchored_spec, agent_name_re_matches.
  assert (Hedge : forall c, in_class c name_char_hyphen = true ->
            (in_class c name_char = true <-> c <> 0x2D%N)).
  { intros c. rewrite in_name_char_hyphen.
    destruct (N.eqb_spec c 0x2D) as [->|Hne].
    - split; [discriminate | congruence].
    - rewrite orb_false_r. tauto. }
  split.
  - intros [(Hall & (c & Hh & Hc) & (d & Hl & Hd))|(t' & -> & _)];
      [| rewrite last_snoc in Hnl; congruence].
    assert (Hall' : Forall (fun c => Spec.name_alphabet_bmp c = true) t).
    { eapply Forall_impl; [exact Hall |]. intros x Hx.
      rewrite <- in_name_char_hyphen_alphabet. exact Hx. }
    split; [intros ->; discriminate |]. split; [exact Hall' |].
    rewrite Hh, Hl.
    split; intros [= ->]; [vm_compute in Hc | vm_compute in Hd]; discriminate.
  - intros (Hne & Hall & Hh & Hl). left.
    assert (Hall' : Forall (fun c => in_class c name_char_hyphen = true) t).
    { eapply Forall_impl; [exact Hall |]. intros x Hx.
      rewrite in_name_char_hyphen_alphabet. exact Hx. }
    split; [exact Hall' |]. split.
    + destruct t as [|c t']; [congruence |]. exists c. split; [reflexivity |].
      inversion Hall'; subst. apply Hedge; [assumption | simpl in Hh; congruence].
    + destruct t as [|d t' _] using rev_ind; [congruence |]. exists d.
      rewrite last_snoc in *. split; [reflexivity |].
      apply Forall_app in Hall' as [_ Hd]. inversion Hd; subst.
      apply Hedge; [assumption | congruence].
Qed.

End CoreFacts.

(** ** Names and URIs (claims C7 and C8) *)

Section NameClaims.
Import Py Re Core.

(** C8, as the specification states it, fails: the string "a" followed by
    U+1F600 has length 2, is over the stated alphabet (U+1F600 is a
    non-ASCII code point above U+0080) and has no hyphen, yet
    [validate_agent_name] rejects it, because the character class of the
    pattern ends at U+FFFF. *)
Lemma validate_agent_name_rejects_astral :
  Spec.validate_name [0x61; 0x1F600]%N = true /\
  validate_agent_name [0x61; 0x1F600]%N = false.
Proof. split; vm_compute; reflexivity. Qed.

(** C8, amended.  [validate_agent_name] is false on every string shorter
    than 2 or longer than 50 and on every string that starts or ends with a
    hyphen; and on a string that does not end in a newline and whose
    lowercase form has as many code points as the string itself, it is true
    exactly when the lowercased string has length 2 to 50, consists of
    lowercase ASCII alphanumerics, hyphens and code points U+0080 to U+FFFF,
    and neither starts nor ends with a hyphen. *)
Theorem validate_agent_name_grammar (s : pystr) :
  (length s < 2 \/ 50 < length s -> validate_agent_name s = false) /\
  (head s = Some 0x2D%N \/ last s = Some 0x2D%N -> validate_agent_name s = false) /\
  (last s <> Some 10%N -> length (lower s) = length s ->
   validate_agent_name s = Spec.validate_name_bmp s).
Proof.
  split; [|split].
  - intros Hlen. apply not_true_iff_false. rewrite validate_agent_name_true. lia.
  - intros Hhy. apply not_true_iff_false. rewrite validate_agent_name_true. tauto.
  - intros Hnl Hlen. apply eq_true_iff_eq. unfold Spec.validate_name_bmp.
    rewrite validate_agent_name_true, name_grammar_true.
    assert (Hnl' : last (lower s) <> Some 10%N).
    { rewrite lower_last by auto. exact Hnl. }
    rewrite (agent_name_re_grammar _ Hnl'), Hlen.
    rewrite (lower_head s 0x2D), (lower_last s 0x2D) by auto.
    split.
    + tauto.
    + intros (Hl & Hall & Hh & Hla). repeat split; try tauto; try lia.
      intros He. rewrite <- Hlen, He in Hl. simpl in Hl. lia.
Qed.

(** The three parts at "a", at "bad-" and at "My-Agent". *)
Lemma validate_agent_name_grammar_witness :
  validate_agent_name (str "a") = false /\
  validate_agent_name (str "bad-") = false /\
  validate_agent_name (str "My-Agent") = Spec.validate_name_bmp (str "My-Agent").
Proof.
  split; [|split].
  - apply (proj1 (validate_agent_name_grammar (str "a"))).
    left. vm_compute. lia.
  - apply (proj1 (proj2 (validate_agent_name_grammar (str "bad-")))).
    right. reflexivity.
  - apply (proj2 (proj2 (validate_agent_name_grammar (str "My-Agent")))).
    + vm_compute. discriminate.
    + reflexivity.
Defined.

(** What lets a valid name through [parse_agent_uri] again: its lowercase
    form must not exceed 50 code points. *)
Lemma parse_to_agent_uri (n : pystr) :
  validate_agent_name n = true -> length (lower n) <= 50 ->
  parse_agent_uri (to_agent_uri n) = Some (lower n).
Proof.
  intros Hv Hlen. apply validate_agent_name_true in Hv as (Hl & Hh & Hla & Hre).
  apply parse_agent_uri_Some. unfold to_agent_uri.
  assert (Hdrop : drop 8 (str "agent://" ++ lower n) = lower n) by reflexivity.
  rewrite Hdrop, lower_idem.
  split; [apply startswith_prefix; eauto |].
  split; [reflexivity |].
  pose proof (lower_length_ge n).
  rewrite (lower_head n 0x2D), (lower_last n 0x2D) by auto.
  repeat split; try assumption; lia.
Qed.

(** First part of C7 on the names that come back from [parse_agent_uri]. *)
Lemma to_agent_uri_roundtrip (n m : pystr) :
  parse_agent_uri (to_agent_uri n) = Some m -> to_agent_uri m = to_agent_uri n.
Proof.
  intros H. apply parse_agent_uri_Some in H as (_ & -> & _).
  unfold to_agent_uri.
  change (drop 8 (str "agent://" ++ lower n)) with (lower n).
  rewrite !lower_idem. reflexivity.
Qed.

(** Second part of C7: a valid URI that is already lowercase is rebuilt
    from its name. *)
Lemma to_agent_uri_parse_lowercase (u n : pystr) :
  parse_agent_uri u = Some n -> lower u = u -> to_agent_uri n = u.
Proof.
  intros H Hlow. apply parse_agent_uri_Some in H as (Hpre & -> & _).
  apply startswith_prefix in Hpre as [t ->].
  change (drop 8 (str "agent://" ++ t)) with t.
  rewrite lower_agent_prefix in Hlow.
  apply app_inv_head in Hlow. unfold to_agent_uri.
  rewrite lower_idem, Hlow. reflexivity.
Qed.

(** Third part of C7: the name part is case-folded. *)
Lemma parse_agent_uri_case_fold :
  parse_agent_uri (str "agent://My-Agent") = Some (str "my-agent").
Proof. vm_compute. reflexivity. Qed.

(** C7 at a name made of 26 times U+0130: [validate_agent_name] accepts
    it, since it measures the 26 code points before lowercasing; its URI
    carries the 52 code points of the lowercase form, which
    [parse_agent_uri] measures and rejects, so the round trip has no name
    to turn back into a URI. *)
Theorem to_agent_uri_roundtrip_dotted_I :
  let n := repeat 0x130%N 26 in
  validate_agent_name n = true /\
  length (lower n) = 52 /\
  parse_agent_uri (to_agent_uri n) = None.
Proof. repeat split; vm_compute; reflexivity. Qed.

End NameClaims.

(** ** Frames (claim C9) *)

Section FrameClaims.
Import Py Protocol.

Lemma is_empty_false (s : pystr) : is_empty s = false <-> s <> [].
Proof. unfold is_empty. apply bool_decide_eq_false. Qed.

Lemma is_empty_true (s : pystr) : is_empty s = true <-> s = [].
Proof. unfold is_empty. apply bool_decide_eq_true. Qed.

(** C9.  [validate_frame] is true exactly on the instances of the four
    frame classes that have a non-empty id and, for a request, a non-empty
    method, for a response, a non-empty request_id, for an event, a
    non-empty event name, for an error, a non-empty request_id.  It is
    false on every object that is not a frame and on every request frame
    whose method is empty. *)
Theorem validate_frame_exact :
  (forall frame, validate_frame frame = true <-> Spec.frame_valid frame) /\
  (forall v, validate_frame (Other v) = false) /\
  (forall f, RequestFrame.method f = [] -> validate_frame (ARequest f) = false).
Proof.
  assert (Hex : forall frame, validate_frame frame = true <-> Spec.frame_valid frame).
  { intros [f|f|f|f|v]; unfold validate_frame; cbn [frame_id Spec.frame_valid].
    - destruct (is_empty (RequestFrame.id f)) eqn:Hid;
        [apply is_empty_true in Hid | apply is_empty_false in Hid].
      + split; [discriminate | tauto].
      + destruct (is_empty (RequestFrame.method f)) eqn:Hm;
          [apply is_empty_true in Hm | apply is_empty_false in Hm];
          split; (discriminate || tauto).
    - destruct (is_empty (ResponseFrame.id f)) eqn:Hid;
        [apply is_empty_true in Hid | apply is_empty_false in Hid].
      + split; [discriminate | tauto].
      + destruct (is_empty (ResponseFrame.request_id f)) eqn:Hm;
          [apply is_empty_true in Hm | apply is_empty_false in Hm];
          split; (discriminate || tauto).
    - destruct (is_empty (EventFrame.id f)) eqn:Hid;
        [apply is_empty_true in Hid | apply is_empty_false in Hid].
      + split; [discriminate | tauto].
      + destruct (is_empty (EventFrame.event f)) eqn:Hm;
          [apply is_empty_true in Hm | apply is_empty_false in Hm];
          split; (discriminate || tauto).
    - destruct (is_empty (ErrorFrame.id f)) eqn:Hid;
        [apply is_empty_true in Hid | apply is_empty_false in Hid].
      + split; [discriminate | tauto].
      + destruct (is_empty (ErrorFrame.request_id f)) eqn:Hm;
          [apply is_empty_true in Hm | apply is_empty_false in Hm];
          split; (discriminate || tauto).
    - split; [discriminate | tauto]. }
  split; [exact Hex |]. split.
  - reflexivity.
  - intros f Hm. apply not_true_iff_false. rewrite Hex. simpl. tauto.
Qed.

(** The cases of the test-suite: a bare [RequestFrame()] and a string are
    rejected, frames made by the constructors are accepted. *)
Lemma validate_frame_exact_witness :
  validate_frame
    (ARequest {| RequestFrame.type := REQUEST; RequestFrame.id := str "f-1";
                 RequestFrame.method := []; RequestFrame.params := [];
                 RequestFrame.session_id := None; RequestFrame.timestamp := 0 |})
  = false /\
  validate_frame (Other (VStr (str "not a frame"))) = false /\
  validate_frame (ARequest (create_request_frame (str "f-2") 0 (str "test") None None))
  = true.
Proof.
  destruct validate_frame_exact as (Hex & Hother & Hreq).
  split; [|split].
  - apply Hreq. reflexivity.
  - apply Hother.
  - apply Hex. simpl. split; discriminate.
Defined.

End FrameClaims.

(** ** The tool registry (claim C1) *)

Section ToolClaims.
Import Py Tools.

(** C1, as the specification states it, fails: a handler that raises
    [SystemExit], which is not an [Exception], is caught by neither
    [except] clause, and [invoke] raises it to its caller. *)
Lemma invoke_propagates_SystemExit :
  let e := Exn SystemExit (str "bye") in
  let reg := fst (register init (str "quit") (handler0 (str "quit") (Raise e))
                    [] None None) in
  invoke reg (str "quit") []
    {| ToolContext.session_id := str "s1"; ToolContext.agent_name := str "test";
       ToolContext.metadata := ∅ |}
  = Raise e.
Proof. vm_compute. reflexivity. Qed.

(** C1, amended.  For every registry, name, parameters and context: if the
    name is not registered, [invoke] returns [success=False] with the error
    "Tool not found: " and the name; if the handler returns a value,
    [invoke] returns [success=True] with that value; if the handler raises
    a [TypeError], [invoke] returns [success=False] with the error
    "Invalid parameters: " and the exception's message; if it raises any
    other exception of class [Exception], [invoke] returns [success=False]
    with the error "Tool error: " and the exception's message; if it raises
    something outside [Exception], [invoke] raises it too.  So unless the
    handler raises something outside [Exception], [invoke] returns a
    result.  [invoke] only reads the registry. *)
Theorem invoke_total (self : ToolRegistry) (name : pystr)
    (params : list (pystr * pyval)) (context : ToolContext.t) :
  (_tools self !! name = None ->
   invoke self name params context =
   Ret {| success := false; result := VNone;
          error := Some (str "Tool not found: " ++ name) |}) /\
  (forall defn handler v,
     _tools self !! name = Some (defn, handler) -> handler params = Ret v ->
     invoke self name params context =
     Ret {| success := true; result := v; error := None |}) /\
  (forall defn handler e,
     _tools self !! name = Some (defn, handler) -> handler params = Raise e ->
     exn_class e = TypeError ->
     invoke self name params context =
     Ret {| success := false; result := VNone;
            error := Some (str "Invalid parameters: " ++ exn_msg e) |}) /\
  (forall defn handler e,
     _tools self !! name = Some (defn, handler) -> handler params = Raise e ->
     exn_class e <> TypeError -> is_Exception (exn_class e) = true ->
     invoke self name params context =
     Ret {| success := false; result := VNone;
            error := Some (str "Tool error: " ++ exn_msg e) |}) /\
  (forall defn handler e,
     _tools self !! name = Some (defn, handler) -> handler params = Raise e ->
     is_Exception (exn_class e) = false ->
     invoke self name params context = Raise e) /\
  ((forall defn handler e,
      _tools self !! name = Some (defn, handler) -> handler params = Raise e ->
      is_Exception (exn_class e) = true) ->
   exists r, invoke self name params context = Ret r).
Proof.
  unfold invoke. split; [|split; [|split; [|split; [|split]]]].
  - intros ->. reflexivity.
  - intros defn handler v -> ->. reflexivity.
  - intros defn handler e -> -> ->. reflexivity.
  - intros defn handler e -> -> Hne He.
    destruct (exn_class e); try congruence; try discriminate; reflexivity.
  - intros defn handler e -> -> He.
    destruct (exn_class e); try discriminate; reflexivity.
  - intros Hexc. destruct (_tools self !! name) as [[defn handler]|]; [| eauto].
    destruct (handler params) as [v|e] eqn:Hh; [eauto |].
    rewrite (Hexc defn handler e eq_refl Hh).
    destruct (is_TypeError (exn_class e)); eauto.
Qed.

(** What the sample registry holds. *)
Lemma registry_add :
  _tools Examples.registry !! str "add"
  = Some (Examples.definition (str "add"), Examples.add).
Proof.
  unfold Examples.registry, register. cbn [fst _tools].
  rewrite lookup_insert_ne by (vm_compute; discriminate).
  apply lookup_insert_eq.
Qed.

Lemma registry_fail :
  _tools Examples.registry !! str "fail"
  = Some (Examples.definition (str "fail"), Examples.fail).
Proof. unfold Examples.registry, register. cbn [fst _tools]. apply lookup_insert_eq. Qed.

(** The cases of the test-suite on one registry: a missing tool, [add] on
    3 and 4, [add] without its second argument, the failing handler, and
    [add] once more after the failures. *)
Lemma invoke_total_witness :
  invoke Examples.registry (str "missing") [] Examples.ctx =
    Ret {| success := false; result := VNone;
           error := Some (str "Tool not found: missing") |} /\
  invoke Examples.registry (str "add") (Examples.add_params 3 4) Examples.ctx =
    Ret {| success := true; result := VInt 7; error := None |} /\
  invoke Examples.registry (str "add") [(str "a", VInt 3)] Examples.ctx =
    Ret {| success := false; result := VNone;
           error :=
             Some (str "Invalid parameters: "
                   ++ str "add() missing 1 required positional argument: 'b'") |} /\
  invoke Examples.registry (str "fail") [] Examples.ctx =
    Ret {| success := false; result := VNone;
           error := Some (str "Tool error: boom") |} /\
  exists r, invoke Examples.registry (str "add") (Examples.add_params 2 3) Examples.ctx
            = Ret r.
Proof.
  pose proof registry_add as Hadd. pose proof registry_fail as Hfail.
  split; [|split; [|split; [|split]]].
  - apply (proj1 (invoke_total Examples.registry (str "missing") [] Examples.ctx)).
    vm_compute. reflexivity.
  - apply (proj1 (proj2 (invoke_total Examples.registry (str "add")
                           (Examples.add_params 3 4) Examples.ctx))
             (Examples.definition (str "add")) Examples.add (VInt 7) Hadd).
    vm_compute. reflexivity.
  - apply (proj1 (proj2 (proj2 (invoke_total Examples.registry (str "add")
                                  [(str "a", VInt 3)] Examples.ctx)))
             (Examples.definition (str "add")) Examples.add
             (Exn TypeError
                (str "add() missing 1 required positional argument: 'b'")) Hadd).
    + vm_compute. reflexivity.
    + reflexivity.
  - apply (proj1 (proj2 (proj2 (proj2 (invoke_total Examples.registry (str "fail") []
                                         Examples.ctx))))
             (Examples.definition (str "fail")) Examples.fail
             (Exn ValueError (str "boom")) Hfail).
    + vm_compute. reflexivity.
    + discriminate.
    + reflexivity.
  - apply (proj2 (proj2 (proj2 (proj2 (proj2 (invoke_total Examples.registry
                                                 (str "add")
                                                 (Examples.add_params 2 3)
                                                 Examples.ctx)))))).
    intros defn handler e Hreg Hh.
    rewrite Hadd in Hreg. injection Hreg as <- <-.
    vm_compute in Hh. discriminate.
Defined.

End ToolClaims.

(** ** Sessions (claims C5 and C6) *)

Section SessionClaims.
Import Py Core AgentPy.

Lemma values_elem (m : gmap pystr ref) (r : ref) :
  r ∈ values m <-> exists id, m !! id = Some r.
Proof.
  unfold values. rewrite list_elem_of_fmap. split.
  - intros ([id r'] & -> & Hin). apply elem_of_map_to_list in Hin. eauto.
  - intros [id Hid]. exists (id, r). split; [reflexivity |].
    apply elem_of_map_to_list. exact Hid.
Qed.

Lemma set_state_twice (st : SessionState) (s : Session.t) :
  Session.set_state st (Session.set_state st s) = Session.set_state st s.
Proof. reflexivity. Qed.

(** The loop of [stop], object by object. *)
Lemma close_all_lookup (refs : list ref) (objs : store) (r : ref) :
  close_all refs objs !! r =
  if decide (r ∈ refs) then Session.set_state CLOSED <$> objs !! r else objs !! r.
Proof.
  revert objs. induction refs as [|x refs IH]; intros objs.
  - rewrite decide_False by apply not_elem_of_nil. reflexivity.
  - change (close_all (x :: refs) objs)
      with (close_all refs (alter (Session.set_state CLOSED) x objs)).
    rewrite IH, lookup_alter.
    destruct (decide (r ∈ refs)) as [Hin|Hnin];
      destruct (decide (x = r)) as [->|Hne];
      destruct (decide (r ∈ _ :: refs)) as [Hc|Hc];
      rewrite ?elem_of_cons in Hc;
      try reflexivity; try (exfalso; tauto);
      try (destruct Hc; congruence).
    destruct (objs !! r); reflexivity.
Qed.

(** C6.  On a running agent, [stop] leaves the session dict empty and the
    agent not running; every session object the dict referred to has
    state [CLOSED] afterwards, whatever its state was, with its other
    fields as before; objects the dict did not refer to are untouched.
    [stop] has no failing case: no transition is checked. *)
Theorem stop_closes_every_session (objs : store) (self : Agent) :
  _is_running self = true ->
  _sessions (snd (stop objs self)) = ∅ /\
  _is_running (snd (stop objs self)) = false /\
  (forall id r s,
     _sessions self !! id = Some r -> objs !! r = Some s ->
     exists s',
       fst (stop objs self) !! r = Some s' /\
       Session.state s' = CLOSED /\
       Session.id s' = Session.id s /\
       Session.local_agent s' = Session.local_agent s /\
       Session.remote_agent s' = Session.remote_agent s /\
       Session.created_at s' = Session.created_at s /\
       Session.updated_at s' = Session.updated_at s /\
       Session.metadata s' = Session.metadata s) /\
  (forall r,
     (forall id, _sessions self !! id <> Some r) ->
     fst (stop objs self) !! r = objs !! r).
Proof.
  intros Hrun. unfold stop. rewrite Hrun. cbn [negb fst snd].
  split; [reflexivity |]. split; [reflexivity |]. split.
  - intros id r s Hid Hr. exists (Session.set_state CLOSED s).
    split; [| repeat split].
    rewrite close_all_lookup, Hr.
    rewrite decide_True by (apply values_elem; eauto). reflexivity.
  - intros r Hr. rewrite close_all_lookup.
    rewrite decide_False; [reflexivity |].
    rewrite values_elem. intros [id Hid]. exact (Hr id Hid).
Qed.

(** A running agent with two sessions, one active and one in state
    [ERROR]: both objects are [CLOSED] afterwards. *)
Lemma stop_closes_every_session_witness :
  Session.state <$> Examples.objects !! 1%positive = Some ACTIVE /\
  Session.state <$> Examples.objects !! 2%positive = Some ERROR /\
  _sessions (snd (stop Examples.objects Examples.running_agent)) = ∅ /\
  Session.state <$> fst (stop Examples.objects Examples.running_agent) !! 1%positive
  = Some CLOSED /\
  Session.state <$> fst (stop Examples.objects Examples.running_agent) !! 2%positive
  = Some CLOSED.
Proof.
  pose proof (stop_closes_every_session Examples.objects Examples.running_agent
                eq_refl) as (Hempty & _ & Hclosed & _).
  split; [reflexivity |]. split; [reflexivity |]. split; [exact Hempty |]. split.
  - destruct (Hclosed (str "s1") 1%positive Examples.session1)
      as (s' & Hs & Hst & _); [vm_compute; reflexivity .. |].
    rewrite Hs. exact (f_equal Some Hst).
  - destruct (Hclosed (str "s2") 2%positive Examples.session2)
      as (s' & Hs & Hst & _); [vm_compute; reflexivity .. |].
    rewrite Hs. exact (f_equal Some Hst).
Defined.

(** The sample agent is the one the constructor builds. *)
Lemma init_test_agent :
  init (str "test-agent") (str "'test-agent'") None {| public_key_b64 := str "cHVi" |}
  = Ret Examples.agent.
Proof. vm_compute. reflexivity. Qed.

(** When the agent is not running, [stop] changes nothing. *)
Lemma stop_not_running (objs : store) (self : Agent) :
  _is_running self = false -> stop objs self = (objs, self).
Proof. intros H. unfold stop. rewrite H. reflexivity. Qed.

(** C5, as the specification states it, fails: after a successful
    [connect] the session dict refers, under the new id, to a session whose
    state is [ACTIVE], not [INITIATING]. *)
Lemma connect_stores_active_session :
  let c := connect (Examples.connect_env (str "id-1") 100) ∅ Examples.agent
             (str "bob") in
  _sessions (agent_after c) !! str "id-1" = Some 1%positive /\
  Session.state <$> objs_after c !! 1%positive = Some ACTIVE /\
  ACTIVE <> INITIATING.
Proof. repeat split; [vm_compute; reflexivity .. | discriminate]. Qed.

(** C5, amended.  A [Session] built without an explicit state is in state
    [INITIATING]; the session a successful [connect] puts into the store is
    built with state [ACTIVE]; and assigning to [state], the one way the
    source changes it, takes every state in every state: no transition is
    checked and none signals an error. *)
Theorem session_states_unchecked :
  (forall id local remote t1 t2,
     Session.state (Session.new id local remote None t1 t2) = INITIATING) /\
  (forall env objs self target res,
     got (connect env objs self target) = Ret res -> success res = true ->
     exists r s,
       session res = Some r /\ objs !! r = None /\
       _sessions (agent_after (connect env objs self target)) !! new_id env = Some r /\
       objs_after (connect env objs self target) !! r = Some s /\
       Session.state s = ACTIVE) /\
  (forall st s, Session.state (Session.set_state st s) = st).
Proof.
  split; [reflexivity |]. split; [| reflexivity].
  intros env objs self target res. unfold connect.
  destruct (DNS.returned (DNS.resolve (dns_env env) (_resolver self) target))
    as [resolved|e]; cbn [got objs_after agent_after].
  - intros [= <-] _. cbn [session].
    eexists _, _. split; [reflexivity |]. split.
    + apply not_elem_of_dom, is_fresh.
    + cbn [set_sessions _sessions Session.new Session.id].
      rewrite !lookup_insert_eq. auto.
  - destruct (is_Exception (exn_class e)); [| discriminate].
    intros [= <-]. discriminate.
Qed.

(** A successful [connect] to "bob" on an agent without sessions. *)
Lemma session_states_unchecked_witness :
  exists r s,
    objs_after (connect (Examples.connect_env (str "id-1") 100) ∅ Examples.agent
                  (str "bob")) !! r = Some s /\
    Session.state s = ACTIVE.
Proof.
  destruct (proj1 (proj2 session_states_unchecked)
              (Examples.connect_env (str "id-1") 100) ∅ Examples.agent (str "bob")
              {| success := true; session := Some 1%positive; error := None |})
    as (r & s & _ & _ & _ & Hs & Hst).
  - vm_compute. reflexivity.
  - reflexivity.
  - exists r, s. auto.
Defined.

End SessionClaims.

(** ** The resolver (claims C2, C3, C4 and C10) *)

Section ResolverClaims.
Import Py Core DNS.

(** The three ways through [resolve]. *)
Lemma resolve_rejected env self name e :
  checked_name name = Raise e ->
  resolve env self name = {| after := self; requests := []; returned := Raise e |}.
Proof. intros H. unfold resolve. rewrite H. reflexivity. Qed.

Lemma resolve_hit env self name key a :
  checked_name name = Ret key -> cache_hit self (time_check env) key = Some a ->
  resolve env self name = {| after := self; requests := []; returned := Ret a |}.
Proof. intros H Hhit. unfold resolve. rewrite H, Hhit. reflexivity. Qed.

Lemma resolve_miss env self name key :
  checked_name name = Ret key -> cache_hit self (time_check env) key = None ->
  requests (resolve env self name) = [_base_url self ++ str "/dns/lookup/" ++ key] /\
  (forall e, returned (resolve env self name) = Raise e ->
             after (resolve env self name) = self) /\
  (forall a, returned (resolve env self name) = Ret a ->
     exists exp,
       add_ttl (time_store env) (ResolvedAgent.ttl a) = Ret exp /\
       after (resolve env self name) =
       set_cache self (<[key := {| agent := a; expires_at := exp |}]> (_cache self))).
Proof.
  intros H Hmiss. unfold resolve. rewrite H, Hmiss. cbv zeta.
  assert (Hraise : forall url e,
    let o := {| after := self; requests := [url]; returned := Raise e |} in
    requests o = [url] /\
    (forall e', returned o = Raise e' -> after o = self) /\
    (forall a, returned o = Ret a ->
       exists exp,
         add_ttl (time_store env) (ResolvedAgent.ttl a) = Ret exp /\
         after o =
         set_cache self (<[key := {| agent := a; expires_at := exp |}]> (_cache self)))).
  { intros url e. cbn. split; [reflexivity |]. split; [reflexivity |].
    intros a [=]. }
  destruct (lookup _ key) as [data|e]; cbn [bind]; [| apply Hraise].
  destruct (parse_response self key (time_resolved env) data) as [a|e];
    cbn [bind]; [| apply Hraise].
  destruct (add_ttl (time_store env) (ResolvedAgent.ttl a)) as [exp|e] eqn:Hexp;
    cbn [bind]; [| apply Hraise].
  cbn [after requests returned agent].
  split; [reflexivity |]. split; [intros e [=] |].
  intros a' [= <-]. exists exp. rewrite Hexp. auto.
Qed.

Lemma cache_hit_Some self now key a :
  cache_hit self now key = Some a <->
  exists entry, _cache self !! key = Some entry /\
                PrimFloat.ltb now (expires_at entry) = true /\
                agent entry = a.
Proof.
  unfold cache_hit. destruct (_cache self !! key) as [entry|].
  - destruct (PrimFloat.ltb now (expires_at entry)) eqn:Hlt.
    + split; [intros [= <-]; eauto |]. intros (? & [= <-] & _ & <-). reflexivity.
    + split; [discriminate |]. intros (? & [= <-] & ? & _). congruence.
  - split; [discriminate |]. intros (? & ? & _). discriminate.
Qed.

Lemma cache_hit_None self now key :
  cache_hit self now key = None <->
  forall entry, _cache self !! key = Some entry ->
                PrimFloat.ltb now (expires_at entry) = false.
Proof.
  unfold cache_hit. destruct (_cache self !! key) as [entry|].
  - destruct (PrimFloat.ltb now (expires_at entry)) eqn:Hlt.
    + split; [discriminate |]. intros Hx. specialize (Hx entry eq_refl). congruence.
    + split; [| reflexivity]. intros _ ? [= <-]. assumption.
  - split; [| reflexivity]. intros _ ? ?. discriminate.
Qed.

(** A miss that the directory answers with an agent. *)
Lemma resolve_miss_ok env self name key data a exp :
  checked_name name = Ret key -> cache_hit self (time_check env) key = None ->
  lookup (http_get env (_base_url self ++ str "/dns/lookup/" ++ key)) key = Ret data ->
  parse_response self key (time_resolved env) data = Ret a ->
  add_ttl (time_store env) (ResolvedAgent.ttl a) = Ret exp ->
  resolve env self name =
  {| after := set_cache self (<[key := {| agent := a; expires_at := exp |}]> (_cache self));
     requests := [_base_url self ++ str "/dns/lookup/" ++ key];
     returned := Ret a |}.
Proof.
  intros Hkey Hmiss Hl Hp Hexp. unfold resolve. rewrite Hkey, Hmiss. cbv zeta.
  rewrite Hl. cbn [bind]. rewrite Hp. cbn [bind]. rewrite Hexp. reflexivity.
Qed.

(** [time.time() + ttl] for a ttl that is an [int] or a [float]. *)
Lemma add_ttl_int (t : pyfloat) (z : Z) (x : pyfloat) :
  float_of_int z = Ret x -> add_ttl t (VInt z) = Ret (PrimFloat.add t x).
Proof.
  intros H. unfold add_ttl, float_add. cbn [as_number]. rewrite H. reflexivity.
Qed.

Lemma add_ttl_float (t x : pyfloat) :
  add_ttl t (VFloat x) = Ret (PrimFloat.add t x).
Proof. reflexivity. Qed.

(** A failed call leaves the resolver as it was. *)
Lemma resolve_failure_keeps_state env self name e :
  returned (resolve env self name) = Raise e -> after (resolve env self name) = self.
Proof.
  destruct (checked_name name) as [key|e0] eqn:Hk.
  - destruct (cache_hit self (time_check env) key) as [a|] eqn:Hhit.
    + rewrite (resolve_hit _ _ _ _ _ Hk Hhit). discriminate.
    + apply (resolve_miss env self name key Hk Hhit).
  - rewrite (resolve_rejected _ _ _ _ Hk). reflexivity.
Qed.

(** Which name an accepted target is looked up under. *)
Lemma checked_name_bare (n : pystr) :
  startswith (str "agent://") n = false -> validate_agent_name n = true ->
  checked_name n = Ret n.
Proof. intros Hp Hv. unfold checked_name. rewrite Hp. cbn [bind]. rewrite Hv. reflexivity. Qed.

Lemma parsed_name_valid (u k : pystr) :
  parse_agent_uri u = Some k -> validate_agent_name k = true /\ lower k = k.
Proof.
  intros H. apply parse_agent_uri_Some in H as (_ & -> & Hl & Hh & Hla & Hre).
  split; [| apply lower_idem].
  apply validate_agent_name_true. rewrite lower_idem. auto.
Qed.

Lemma checked_name_uri (u k : pystr) :
  parse_agent_uri u = Some k -> checked_name u = Ret k.
Proof.
  intros H. unfold checked_name.
  assert (Hp : startswith (str "agent://") u = true)
    by (apply parse_agent_uri_Some in H; tauto).
  rewrite Hp, H. cbn [bind].
  destruct (parsed_name_valid u k H) as [-> _]. reflexivity.
Qed.

(** C3.  A target that is neither a valid bare name nor a valid agent://
    URI makes [resolve] raise a [DNSError] with code [INVALID_NAME], send no
    request and leave the resolver, cache included, as it was; and whenever
    [resolve] fails, for whatever reason, the resolver afterwards is the
    resolver before: no cache entry is written. *)
Theorem resolve_invalid_target (env : Env) (self : DNSResolver) (target : pystr) :
  (validate_agent_name target = false -> is_valid_agent_uri target = false ->
   exists message,
     resolve env self target =
     {| after := self; requests := [];
        returned := Raise (DNSError_new INVALID_NAME message) |}) /\
  (forall e, returned (resolve env self target) = Raise e ->
             after (resolve env self target) = self).
Proof.
  split; [| intros e; apply resolve_failure_keeps_state].
  intros Hname Huri.
  assert (Hparse : parse_agent_uri target = None).
  { unfold is_valid_agent_uri in Huri. apply bool_decide_eq_false in Huri.
    destruct (parse_agent_uri target); [exfalso; apply Huri; discriminate | reflexivity]. }
  destruct (startswith (str "agent://") target) eqn:Hpre;
    eexists; apply resolve_rejected; unfold checked_name; rewrite Hpre.
  - rewrite Hparse. reflexivity.
  - cbn [bind]. rewrite Hname. reflexivity.
Qed.

(** The target of the specification's example, on a fresh resolver. *)
Lemma resolve_invalid_target_witness :
  exists message,
    resolve (Examples.env_at 100 Examples.service_ok) Examples.resolver
      (str "agent://bad_name!") =
    {| after := Examples.resolver; requests := [];
       returned := Raise (DNSError_new INVALID_NAME message) |}.
Proof.
  apply (proj1 (resolve_invalid_target (Examples.env_at 100 Examples.service_ok)
                  Examples.resolver (str "agent://bad_name!"))).
  - vm_compute. reflexivity.
  - vm_compute. reflexivity.
Defined.

(** C2.  Let [key] be the name an accepted target is looked up under.
    If the cache holds an entry for [key] that expires after the time of
    the call, [resolve] returns the entry's agent, sends no request and
    changes nothing.  If the cache holds no entry for [key], or one that
    has expired, [resolve] sends exactly one request; and when the
    directory answers it with an agent whose ttl is the integer [z],
    [resolve] returns that agent and the entry for [key] is overwritten
    with it and an expiry of the clock reading at the store plus [z].
    Every later call before that expiry returns the same agent without a
    request, so the two calls send one request between them. *)
Theorem resolve_cache_ttl (self : DNSResolver) (name key : pystr) :
  checked_name name = Ret key ->
  let url := _base_url self ++ str "/dns/lookup/" ++ key in
  let stale (env : Env) :=
    forall entry, _cache self !! key = Some entry ->
                  PrimFloat.ltb (time_check env) (expires_at entry) = false in
  (forall env entry,
     _cache self !! key = Some entry ->
     PrimFloat.ltb (time_check env) (expires_at entry) = true ->
     resolve env self name =
     {| after := self; requests := []; returned := Ret (agent entry) |}) /\
  (forall env, stale env -> requests (resolve env self name) = [url]) /\
  (forall env data a z x,
     stale env ->
     http_get env url = Response 200 (Ret data) ->
     parse_response self key (time_resolved env) data = Ret a ->
     ResolvedAgent.ttl a = VInt z -> float_of_int z = Ret x ->
     resolve env self name =
     {| after :=
          set_cache self
            (<[key := {| agent := a;
                         expires_at := PrimFloat.add (time_store env) x |}]>
               (_cache self));
        requests := [url];
        returned := Ret a |} /\
     forall env2,
       PrimFloat.ltb (time_check env2) (PrimFloat.add (time_store env) x) = true ->
       resolve env2 (after (resolve env self name)) name =
       {| after := after (resolve env self name); requests := [];
          returned := Ret a |} /\
       requests (resolve env self name)
       ++ requests (resolve env2 (after (resolve env self name)) name) = [url]).
Proof.
  intros Hkey url stale.
  assert (Hhit : forall self' env entry,
    _cache self' !! key = Some entry ->
    PrimFloat.ltb (time_check env) (expires_at entry) = true ->
    resolve env self' name =
    {| after := self'; requests := []; returned := Ret (agent entry) |}).
  { intros self' env entry Hentry Hlt. apply (resolve_hit _ _ _ key); [exact Hkey |].
    apply cache_hit_Some. eauto. }
  assert (Hmiss : forall env, stale env -> cache_hit self (time_check env) key = None).
  { intros env Hstale. apply cache_hit_None. exact Hstale. }
  split; [apply Hhit |]. split.
  - intros env Hstale. apply (resolve_miss env self name key Hkey (Hmiss env Hstale)).
  - intros env data a z x Hstale Hget Hparse Httl Hx.
    assert (Ho : resolve env self name =
      {| after :=
           set_cache self
             (<[key := {| agent := a;
                          expires_at := PrimFloat.add (time_store env) x |}]>
                (_cache self));
         requests := [url];
         returned := Ret a |}).
    { apply (resolve_miss_ok env self name key data a);
        [exact Hkey | apply Hmiss, Hstale | | exact Hparse |].
      - fold url. rewrite Hget. reflexivity.
      - rewrite Httl. apply add_ttl_int, Hx. }
    split; [exact Ho |].
    intros env2 Hlt. rewrite Ho. cbn [after requests].
    rewrite (Hhit _ env2 {| agent := a;
                            expires_at := PrimFloat.add (time_store env) x |});
      [split; reflexivity | apply lookup_insert_eq | exact Hlt].
Qed.

(** "alice", resolved at time 100 with a ttl of 60, is stored at 101 and
    cached until 161: a second call at 150 sends nothing and returns the
    same agent; a call at 200 sends one request and moves the expiry to
    261. *)
Lemma resolve_cache_ttl_witness :
  let url := str "http://185.204.169.26:3000/dns/lookup/alice" in
  let o1 := Examples.first_call in
  let o2 := resolve (Examples.env_at 150 Examples.service_ok) (after o1) (str "alice") in
  let o3 := resolve (Examples.env_at 200 Examples.service_ok) (after o1) (str "alice") in
  expires_at <$> _cache (after o1) !! str "alice" = Some 161%float /\
  o2 = {| after := after o1; requests := [];
          returned := Ret (Examples.alice_at 100) |} /\
  requests o1 ++ requests o2 = [url] /\
  requests o3 = [url] /\
  returned o3 = Ret (Examples.alice_at 200) /\
  expires_at <$> _cache (after o3) !! str "alice" = Some 261%float.
Proof.
  cbv zeta.
  assert (Hkey : checked_name (str "alice") = Ret (str "alice"))
    by (vm_compute; reflexivity).
  destruct (resolve_cache_ttl Examples.resolver (str "alice") (str "alice") Hkey)
    as (_ & _ & Hfirst).
  destruct (Hfirst (Examples.env_at 100 Examples.service_ok) Examples.payload
              (Examples.alice_at 100) 60%Z 60%float) as [Ho1 Hlater].
  { intros entry H. vm_compute in H. discriminate. }
  { reflexivity. }
  { vm_compute. reflexivity. }
  { reflexivity. }
  { vm_compute. reflexivity. }
  fold Examples.first_call in Ho1, Hlater.
  destruct (Hlater (Examples.env_at 150 Examples.service_ok) eq_refl) as [Ho2 Hcount].
  destruct (resolve_cache_ttl (after Examples.first_call) (str "alice") (str "alice")
              Hkey) as (_ & _ & Hexpired).
  destruct (Hexpired (Examples.env_at 200 Examples.service_ok) Examples.payload
              (Examples.alice_at 200) 60%Z 60%float) as [Ho3 _].
  { intros entry H. rewrite Ho1 in H. cbn [after set_cache _cache] in H.
    rewrite lookup_insert_eq in H. injection H as <-. reflexivity. }
  { reflexivity. }
  { vm_compute. reflexivity. }
  { reflexivity. }
  { vm_compute. reflexivity. }
  split; [rewrite Ho1; cbn [after set_cache _cache]; rewrite lookup_insert_eq;
          reflexivity |].
  split; [exact Ho2 |]. split; [exact Hcount |].
  rewrite Ho3. cbn [after requests returned set_cache _cache].
  split; [reflexivity |]. split; [reflexivity |].
  rewrite lookup_insert_eq. reflexivity.
Defined.

(** C4 at the bare name "ALICE": with "alice" cached, resolving "ALICE"
    does not find that entry; it asks the service for "ALICE" and stores a
    second entry under "ALICE".  The URI "agent://ALICE" is lowercased by
    [parse_agent_uri] and does find the entry of "alice". *)
Theorem resolve_bare_uppercase_own_entry :
  let o2 := resolve (Examples.env_at 150 Examples.service_ok)
              (after Examples.first_call) (str "ALICE") in
  let o3 := resolve (Examples.env_at 150 Examples.service_ok)
              (after Examples.first_call) (str "agent://ALICE") in
  checked_name (str "ALICE") = Ret (str "ALICE") /\
  requests o2 = [str "http://185.204.169.26:3000/dns/lookup/ALICE"] /\
  dom (_cache (after o2)) = {[str "alice"; str "ALICE"]} /\
  cache_size (after o2) = 2 /\
  checked_name (str "agent://ALICE") = Ret (str "alice") /\
  requests o3 = [] /\
  returned o3 = returned Examples.first_call.
Proof. repeat split; vm_compute; reflexivity. Qed.

(** The name a URI is looked up under is lowercase. *)
Lemma checked_name_uri_lowercase (u k : pystr) :
  startswith (str "agent://") u = true -> checked_name u = Ret k -> lower k = k.
Proof.
  intros Hp. unfold checked_name. rewrite Hp.
  destruct (parse_agent_uri u) as [k'|] eqn:Hparse; cbn [bind]; [| discriminate].
  destruct (parsed_name_valid u k' Hparse) as [-> Hlow]. cbn [negb].
  intros [= <-]. exact Hlow.
Qed.

(** Inside the [try], every [Exception] comes out as a [DNSError]. *)
Lemma lookup_error_typed (reply : http_reply) (name : pystr) (e : exn) :
  lookup reply name = Raise e -> is_Exception (exn_class e) = true ->
  exists code, exn_class e = DNSError code.
Proof.
  unfold lookup. destruct (lookup_try reply name) as [data|e0]; [discriminate |].
  intros [= <-]. unfold lookup_except.
  destruct (exn_class e0) eqn:Hc; cbn; try (eexists; reflexivity);
    rewrite ?Hc; try discriminate; eauto.
Qed.

(** A 200 response whose body is not JSON is reported as [SERVER_ERROR]. *)
Lemma lookup_invalid_json (name message : pystr) :
  lookup (Response 200 (Raise (Exn JSONDecodeError message))) name =
  Raise (DNSError_new SERVER_ERROR (str "Unexpected error: " ++ message)).
Proof. reflexivity. Qed.

(** C10 at two answers of the service.  A 200 response whose body is the
    JSON array [[]]: the body decodes, the [try] is left, and
    [data.get("agent", data)] raises [AttributeError], which no handler
    turns into a [DNSError].  A 200 response whose body is an object with
    the ttl "soon": [time.time() + agent.ttl] raises [TypeError].  With a
    body that is not JSON the same call raises [SERVER_ERROR]. *)
Theorem resolve_raises_untyped :
  returned (resolve (Examples.env_at 100 Examples.service_array) Examples.resolver
              (str "alice")) =
  Raise (Exn AttributeError (str "'list' object has no attribute 'get'")) /\
  returned (resolve (Examples.env_at 100 Examples.service_ttl_string)
              Examples.resolver (str "alice")) =
  Raise (Exn TypeError
           (str "unsupported operand type(s) for +: 'float' and 'str'")) /\
  returned (resolve (Examples.env_at 100 Examples.service_no_json)
              Examples.resolver (str "alice")) =
  Raise (DNSError_new SERVER_ERROR (str "Unexpected error: Expecting value")).
Proof. repeat split; vm_compute; reflexivity. Qed.

End ResolverClaims.

(** * Further properties of the code *)

(** ** Names and URIs *)

Section MoreNames.
Import Py Re Core.

Lemma drop_agent_prefix (t : pystr) : drop 8 (str "agent://" ++ t) = t.
Proof. reflexivity. Qed.

Lemma startswith_agent_prefix (t : pystr) :
  startswith (str "agent://") (str "agent://" ++ t) = true.
Proof. apply startswith_prefix. eauto. Qed.

(** X1.  Parsing a URI is checking the prefix and validating the rest in
    lowercase: for every [t], [parse_agent_uri("agent://" + t)] is
    [t.lower()] when [validate_agent_name(t.lower())] holds and [None]
    otherwise; a string without the prefix parses to [None]; and
    [to_agent_uri(n)] is a valid URI exactly when [n.lower()] is a valid
    name. *)
Theorem parse_agent_uri_is_validate_lower :
  (forall t, parse_agent_uri (str "agent://" ++ t) =
             if validate_agent_name (lower t) then Some (lower t) else None) /\
  (forall u, startswith (str "agent://") u = false -> parse_agent_uri u = None) /\
  (forall n, is_valid_agent_uri (to_agent_uri n) = validate_agent_name (lower n)).
Proof.
  assert (H1 : forall t, parse_agent_uri (str "agent://" ++ t) =
             if validate_agent_name (lower t) then Some (lower t) else None).
  { intros t. destruct (validate_agent_name (lower t)) eqn:Hv.
    - apply validate_agent_name_true in Hv. rewrite lower_idem in Hv.
      apply parse_agent_uri_Some. rewrite drop_agent_prefix.
      split; [apply startswith_agent_prefix |]. split; [reflexivity | exact Hv].
    - destruct (parse_agent_uri (str "agent://" ++ t)) as [n|] eqn:Hp; [| reflexivity].
      apply parse_agent_uri_Some in Hp as (_ & -> & Hrest).
      rewrite drop_agent_prefix in Hrest.
      assert (Ht : validate_agent_name (lower t) = true).
      { apply validate_agent_name_true. rewrite lower_idem. exact Hrest. }
      congruence. }
  split; [exact H1 |]. split.
  - intros u Hu. unfold parse_agent_uri. rewrite Hu. reflexivity.
  - intros n. unfold is_valid_agent_uri, to_agent_uri. rewrite H1, lower_idem.
    destruct (validate_agent_name (lower n)).
    + apply bool_decide_eq_true. discriminate.
    + apply bool_decide_eq_false. intros H. apply H. reflexivity.
Qed.

Lemma parse_agent_uri_is_validate_lower_witness :
  parse_agent_uri (str "http://alice") = None.
Proof.
  apply (proj1 (proj2 parse_agent_uri_is_validate_lower)). reflexivity.
Defined.

(** X2.  A name that [parse_agent_uri] returns is canonical: it is its own
    lowercase form, [validate_agent_name] accepts it, and its URI parses
    back to the same name. *)
Theorem parse_agent_uri_canonical (u n : pystr) :
  parse_agent_uri u = Some n ->
  lower n = n /\ validate_agent_name n = true /\
  parse_agent_uri (to_agent_uri n) = Some n.
Proof.
  intros H. destruct (parsed_name_valid u n H) as [Hv Hlow].
  split; [exact Hlow |]. split; [exact Hv |].
  rewrite <- Hlow at 2. apply parse_to_agent_uri; [exact Hv |].
  rewrite Hlow. apply validate_agent_name_true in Hv. lia.
Qed.

Lemma parse_agent_uri_canonical_witness :
  lower (str "my-agent") = str "my-agent" /\
  validate_agent_name (str "my-agent") = true /\
  parse_agent_uri (to_agent_uri (str "my-agent")) = Some (str "my-agent").
Proof.
  apply (parse_agent_uri_canonical (str "agent://My-Agent")).
  vm_compute. reflexivity.
Defined.

(** X3.  [validate_agent_name] does not look at the case of a name whose
    lowercase form has as many code points as the name: it gives the same
    answer on the name and on its lowercase form. *)
Theorem validate_agent_name_ignores_case (n : pystr) :
  length (lower n) = length n ->
  validate_agent_name (lower n) = validate_agent_name n.
Proof.
  intros Hlen. apply eq_true_iff_eq.
  rewrite !validate_agent_name_true, lower_idem, Hlen.
  rewrite (lower_head n 0x2D), (lower_last n 0x2D) by auto. reflexivity.
Qed.

Lemma validate_agent_name_ignores_case_witness :
  validate_agent_name (lower (str "My-Agent")) = validate_agent_name (str "My-Agent").
Proof. apply validate_agent_name_ignores_case. reflexivity. Defined.

(** X4.  A valid name stays valid with one newline appended: if
    [validate_agent_name(n)] holds, [n] has fewer than 50 code points and
    does not itself end in a newline, then [validate_agent_name(n + "\n")]
    holds, because [$] in the pattern also matches before a final
    newline. *)
Theorem validate_agent_name_accepts_final_newline (n : pystr) :
  validate_agent_name n = true -> last n <> Some 10%N -> length n < 50 ->
  validate_agent_name (n ++ [10%N]) = true.
Proof.
  intros Hv Hnl Hlen.
  apply validate_agent_name_true in Hv as (Hl & Hh & Hla & Hre).
  apply validate_agent_name_true. rewrite length_app, last_snoc. cbn [length].
  split; [lia |]. split.
  - destruct n as [|c n]; [simpl in Hl; lia | exact Hh].
  - split; [discriminate |].
    rewrite lower_newline.
    apply match_anchored_spec. right. exists (lower n). split; [reflexivity |].
    apply match_anchored_spec in Hre as [Hm|(t & Ht & _)]; [exact Hm |].
    exfalso. apply Hnl. apply (lower_last n 10); [auto |].
    rewrite Ht. apply last_snoc.
Qed.

Lemma validate_agent_name_accepts_final_newline_witness :
  validate_agent_name (str "alice" ++ [10%N]) = true.
Proof.
  apply validate_agent_name_accepts_final_newline.
  - vm_compute. reflexivity.
  - vm_compute. discriminate.
  - vm_compute. lia.
Defined.

End MoreNames.

(** ** Frames built by the constructors *)

Section MoreFrames.
Import Py Protocol.

(** X5.  With a non-empty generated id, a frame that a constructor builds
    is valid exactly when the constructor's first argument is non-empty:
    the method of a request, the request id of a response or of an error,
    the event name of an event.  The parameters, result, data, code,
    message, session id and timestamp play no part. *)
Theorem created_frames_validity (new_id : pystr) (now : pyfloat) :
  new_id <> [] ->
  (forall method params session_id,
     validate_frame (ARequest (create_request_frame new_id now method params session_id))
     = negb (is_empty method)) /\
  (forall request_id result session_id,
     validate_frame
       (AResponse (create_response_frame new_id now request_id result session_id))
     = negb (is_empty request_id)) /\
  (forall event data session_id,
     validate_frame (AnEvent (create_event_frame new_id now event data session_id))
     = negb (is_empty event)) /\
  (forall request_id code message data session_id,
     validate_frame
       (AnError (create_error_frame new_id now request_id code message data session_id))
     = negb (is_empty request_id)).
Proof.
  intros Hid. apply is_empty_false in Hid.
  repeat split; intros; unfold validate_frame;
    cbn [frame_id create_request_frame create_response_frame create_event_frame
         create_error_frame RequestFrame.id RequestFrame.method ResponseFrame.id
         ResponseFrame.request_id EventFrame.id EventFrame.event ErrorFrame.id
         ErrorFrame.request_id];
    rewrite Hid;
    match goal with |- context [is_empty ?x] => destruct (is_empty x) end;
    reflexivity.
Qed.

Lemma created_frames_validity_witness :
  validate_frame
    (AnEvent (create_event_frame (str "f-1") 0 (str "ping") VNone None)) = true /\
  validate_frame
    (AResponse (create_response_frame (str "f-2") 0 [] VNone None)) = false.
Proof.
  split.
  - apply (proj1 (proj2 (proj2 (created_frames_validity (str "f-1") 0
                                   ltac:(discriminate))))
             (str "ping") VNone None).
  - apply (proj1 (proj2 (created_frames_validity (str "f-2") 0 ltac:(discriminate)))
             [] VNone None).
Defined.

End MoreFrames.

(** ** The registry: register, unregister, lookup *)

Section MoreTools.
Import Py Tools.

Lemma contains_true (self : ToolRegistry) (name : pystr) :
  contains self name = true <-> is_Some (_tools self !! name).
Proof. unfold contains. apply bool_decide_eq_true. Qed.

Lemma contains_false (self : ToolRegistry) (name : pystr) :
  contains self name = false <-> _tools self !! name = None.
Proof.
  unfold contains. rewrite bool_decide_eq_false, eq_None_not_Some. reflexivity.
Qed.

(** X6.  After [register(name, handler, ...)], [get(name)] gives the
    returned definition with that handler and [name in registry] holds;
    every other name is looked up as before; the registry has one tool
    more if the name was new and as many as before if it replaced one; and
    [invoke(name, ...)] runs the new handler whatever was registered under
    the name before. *)
Theorem register_then_get (self : ToolRegistry) (name : pystr)
    (handler : ToolHandler) (description : pystr)
    (input_schema output_schema : option pyval) :
  let r := register self name handler description input_schema output_schema in
  get (fst r) name = Some (snd r, handler) /\
  Tools.name (snd r) = name /\
  contains (fst r) name = true /\
  (forall other, other <> name -> get (fst r) other = get self other) /\
  len (fst r) = (if contains self name then len self else S (len self)) /\
  (forall self2 params context,
     invoke (fst r) name params context =
     invoke (fst (register self2 name handler description input_schema output_schema))
       name params context).
Proof.
  cbv zeta. unfold register, get, len. cbn [fst snd _tools Tools.name].
  split; [apply lookup_insert_eq |]. split; [reflexivity |].
  split; [apply contains_true; cbn [_tools]; rewrite lookup_insert_eq; eauto |].
  split; [intros other Hne; apply lookup_insert_ne; congruence |].
  split.
  - rewrite map_size_insert.
    destruct (contains self name) eqn:Hc.
    + apply contains_true in Hc as [x ->]. reflexivity.
    + apply contains_false in Hc as ->. reflexivity.
  - intros self2 params context. unfold invoke. cbn [_tools].
    rewrite !lookup_insert_eq. reflexivity.
Qed.

(** X7.  [unregister(name)] returns whether the name was registered.
    Afterwards the name is not in the registry, a second [unregister] of it
    returns [False], [invoke] of it reports "Tool not found", every other
    name is looked up as before, and the registry has one tool fewer if the
    name was registered and as many as before if not. *)
Theorem unregister_then_absent (self : ToolRegistry) (name : pystr) :
  let r := unregister self name in
  snd r = contains self name /\
  contains (fst r) name = false /\
  snd (unregister (fst r) name) = false /\
  (forall params context,
     invoke (fst r) name params context =
     Ret {| success := false; result := VNone;
            error := Some (str "Tool not found: " ++ name) |}) /\
  (forall other, other <> name -> get (fst r) other = get self other) /\
  len (fst r) = (if contains self name then pred (len self) else len self).
Proof.
  cbv zeta. unfold unregister, get, len. cbn [fst snd _tools].
  assert (Hgone : contains {| _tools := delete name (_tools self) |} name = false).
  { apply contains_false. cbn [_tools]. apply lookup_delete_eq. }
  split; [reflexivity |]. split; [exact Hgone |]. split; [exact Hgone |].
  split; [| split].
  - intros params context. unfold invoke. cbn [_tools].
    rewrite lookup_delete_eq. reflexivity.
  - intros other Hne. apply lookup_delete_ne. congruence.
  - rewrite map_size_delete.
    destruct (contains self name) eqn:Hc.
    + apply contains_true in Hc as [x ->]. reflexivity.
    + apply contains_false in Hc as ->. reflexivity.
Qed.

(** X8.  Registering a name that was not registered and unregistering it
    again gives back the registry as it was. *)
Theorem register_unregister_restores (self : ToolRegistry) (name : pystr)
    (handler : ToolHandler) (description : pystr)
    (input_schema output_schema : option pyval) :
  contains self name = false ->
  unregister (fst (register self name handler description input_schema output_schema))
    name = (self, true).
Proof.
  intros Hc. apply contains_false in Hc.
  unfold unregister, register. cbn [fst _tools].
  rewrite delete_insert_eq, delete_id by exact Hc.
  rewrite lookup_insert_eq. destruct self as [m]. reflexivity.
Qed.

Lemma register_unregister_restores_witness :
  unregister (fst (register init (str "test")
                     (handler0 (str "handler") (Ret (VStr (str "ok"))))
                     [] None None)) (str "test")
  = (init, true).
Proof. apply register_unregister_restores. apply contains_false. reflexivity. Defined.

End MoreTools.

(** ** The resolver: errors, cache invariants, keys *)

Section MoreResolver.
Import Py Core DNS.

Lemma bind_Ret_inv {A B} (m : Py.result A) (k : A -> Py.result B) (b : B) :
  Py.bind m k = Ret b -> exists a, m = Ret a /\ k a = Ret b.
Proof. destruct m as [a|e]; [eauto | discriminate]. Qed.

(** The agent that [parse_response] builds carries the name it was asked
    for and the ttl of the payload, or the resolver's default. *)
Lemma parse_response_fields self name t data a :
  parse_response self name t data = Ret a ->
  ResolvedAgent.name a = name /\ ResolvedAgent.resolved_at a = t /\
  exists agent_data,
    Py.get data (str "agent") data = Ret agent_data /\
    Py.get agent_data (str "ttl") (VInt (default_ttl_seconds (_config self)))
    = Ret (ResolvedAgent.ttl a).
Proof.
  unfold parse_response. intros H.
  apply bind_Ret_inv in H as (agent_data & Hdata & H).
  apply bind_Ret_inv in H as (tools_raw & _ & H).
  apply bind_Ret_inv in H as (ts & _ & H).
  apply bind_Ret_inv in H as (tools & _ & H).
  apply bind_Ret_inv in H as (endpoint & _ & H).
  apply bind_Ret_inv in H as (pk & _ & H).
  apply bind_Ret_inv in H as (public_key & _ & H).
  apply bind_Ret_inv in H as (capabilities & _ & H).
  apply bind_Ret_inv in H as (ttl & Httl & H).
  apply bind_Ret_inv in H as (kvs & _ & H).
  injection H as <-. cbn. eauto.
Qed.

(** On a miss, the agent returned is the one parsed from the body of the
    answer. *)
Lemma resolve_miss_parsed env self name key a :
  checked_name name = Ret key -> cache_hit self (time_check env) key = None ->
  returned (resolve env self name) = Ret a ->
  exists data,
    lookup (http_get env (_base_url self ++ str "/dns/lookup/" ++ key)) key = Ret data /\
    parse_response self key (time_resolved env) data = Ret a.
Proof.
  intros Hkey Hmiss. unfold resolve. rewrite Hkey, Hmiss. cbv zeta.
  destruct (lookup _ key) as [data|e] eqn:Hl; cbn [bind]; [| discriminate].
  destruct (parse_response self key (time_resolved env) data) as [a'|e] eqn:Hp;
    cbn [bind]; [| discriminate].
  destruct (add_ttl (time_store env) (ResolvedAgent.ttl a')) as [exp|e];
    cbn [bind]; [| discriminate].
  cbn [returned agent]. intros [= <-]. eauto.
Qed.

Lemma returned_Ret_key env self name a :
  returned (resolve env self name) = Ret a -> exists key, checked_name name = Ret key.
Proof.
  destruct (checked_name name) as [key|e] eqn:Hk; [eauto |].
  rewrite (resolve_rejected _ _ _ _ Hk). discriminate.
Qed.

(** Under the invariant, what [resolve] returns is named as the key. *)
Lemma resolve_returns_named env self name key a :
  Inv.cache_named self -> checked_name name = Ret key ->
  returned (resolve env self name) = Ret a -> ResolvedAgent.name a = key.
Proof.
  intros Hinv Hkey Hret.
  destruct (cache_hit self (time_check env) key) as [a'|] eqn:Hc.
  - rewrite (resolve_hit _ _ _ _ _ Hkey Hc) in Hret. injection Hret as ->.
    apply cache_hit_Some in Hc as (entry & Hentry & _ & <-).
    exact (Hinv key entry Hentry).
  - destruct (resolve_miss_parsed _ _ _ _ _ Hkey Hc Hret) as (data & _ & Hp).
    apply (parse_response_fields _ _ _ _ _ Hp).
Qed.

(** No valid name begins with "agent://": the colon is outside the
    pattern's classes. *)
Lemma valid_name_not_uri (t : pystr) :
  validate_agent_name (str "agent://" ++ t) = false.
Proof.
  apply not_true_iff_false. intros Hv.
  apply validate_agent_name_true in Hv as (_ & _ & _ & Hre).
  rewrite lower_agent_prefix in Hre.
  assert (Hbad : ~ Forall (fun c => Re.in_class c name_char_hyphen = true)
                          (str "agent://")).
  { intros HF. rewrite Forall_forall in HF.
    assert (Hc : Re.in_class 58%N name_char_hyphen = true).
    { apply HF. apply list_elem_of_In. do 5 right. left. reflexivity. }
    vm_compute in Hc. discriminate. }
  apply match_anchored_spec in Hre as [Hm|(t' & Ht & Hm)].
  - apply agent_name_re_matches in Hm as (Hall & _).
    apply Forall_app in Hall as [Hall _]. exact (Hbad Hall).
  - apply agent_name_re_matches in Hm as (Hall & _).
    destruct (lower t) as [|x l _] using rev_ind.
    + rewrite app_nil_r in Ht. apply (f_equal last) in Ht.
      rewrite last_snoc in Ht. vm_compute in Ht. discriminate.
    + rewrite app_assoc in Ht. apply app_inj_tail in Ht as [<- _].
      apply Forall_app in Hall as [Hall _]. exact (Hbad Hall).
Qed.

Lemma checked_name_valid (n : pystr) :
  validate_agent_name n = true -> checked_name n = Ret n.
Proof.
  intros Hv. apply checked_name_bare; [| exact Hv].
  destruct (startswith (str "agent://") n) eqn:Hp; [| reflexivity].
  apply startswith_prefix in Hp as [t ->].
  rewrite valid_name_not_uri in Hv. discriminate.
Qed.

Lemma resolve_miss_raise env self name key e :
  checked_name name = Ret key -> cache_hit self (time_check env) key = None ->
  lookup (http_get env (_base_url self ++ str "/dns/lookup/" ++ key)) key = Raise e ->
  resolve env self name =
  {| after := self; requests := [_base_url self ++ str "/dns/lookup/" ++ key];
     returned := Raise e |}.
Proof.
  intros Hkey Hmiss Hl. unfold resolve. rewrite Hkey, Hmiss. cbv zeta.
  rewrite Hl. reflexivity.
Qed.

(** X9.  When the name is not served from the cache, the answer of the
    directory decides the error, and in each case exactly one request was
    sent and the resolver is unchanged: status 404 gives [NOT_FOUND],
    whatever the body; any other status but 200 gives [SERVER_ERROR] with
    the status in the message; a timeout exception gives [TIMEOUT]; a
    connect error gives [NETWORK_ERROR] with the exception's message; any
    other [Exception], also one raised by decoding the body of a 200
    response, gives [SERVER_ERROR] "Unexpected error". *)
Theorem resolve_error_mapping env self name key :
  checked_name name = Ret key -> cache_hit self (time_check env) key = None ->
  let url := _base_url self ++ str "/dns/lookup/" ++ key in
  let failed code message :=
    resolve env self name =
    {| after := self; requests := [url];
       returned := Raise (DNSError_new code message) |} in
  (forall json, http_get env url = Response 404 json ->
     failed NOT_FOUND (str "Agent not found: " ++ key)) /\
  (forall status json,
     http_get env url = Response status json -> status <> 404%Z -> status <> 200%Z ->
     failed SERVER_ERROR (str "DNS server error: " ++ str (pretty status))) /\
  (forall e, http_get env url = GetRaises e -> exn_class e = HttpxTimeoutException ->
     failed TIMEOUT (str "DNS lookup timed out for " ++ key)) /\
  (forall e, http_get env url = GetRaises e -> exn_class e = HttpxConnectError ->
     failed NETWORK_ERROR (str "Cannot reach DNS server: " ++ exn_msg e)) /\
  (forall e,
     http_get env url = GetRaises e \/ http_get env url = Response 200 (Raise e) ->
     is_Exception (exn_class e) = true ->
     exn_class e <> HttpxTimeoutException -> exn_class e <> HttpxConnectError ->
     (forall code, exn_class e <> DNSError code) ->
     failed SERVER_ERROR (str "Unexpected error: " ++ exn_msg e)).
Proof.
  intros Hkey Hmiss url failed. subst failed. cbv beta.
  assert (Hother : forall e,
    is_Exception (exn_class e) = true ->
    exn_class e <> HttpxTimeoutException -> exn_class e <> HttpxConnectError ->
    (forall code, exn_class e <> DNSError code) ->
    lookup_except key e
    = DNSError_new SERVER_ERROR (str "Unexpected error: " ++ exn_msg e)).
  { intros e Hex Ht Hc Hd. unfold lookup_except.
    destruct (exn_class e) eqn:Hcl; try reflexivity; try discriminate;
      try congruence; exfalso; exact (Hd _ eq_refl). }
  split; [|split; [|split; [|split]]].
  - intros json Hr. apply (resolve_miss_raise _ _ _ key); [assumption .. |].
    fold url. rewrite Hr. reflexivity.
  - intros status json Hr H404 H200.
    apply (resolve_miss_raise _ _ _ key); [assumption .. |].
    fold url. rewrite Hr. unfold lookup, lookup_try.
    apply Z.eqb_neq in H404, H200. rewrite H404, H200. reflexivity.
  - intros e Hr Hcl. apply (resolve_miss_raise _ _ _ key); [assumption .. |].
    fold url. rewrite Hr. unfold lookup, lookup_try, lookup_except.
    rewrite Hcl. reflexivity.
  - intros e Hr Hcl. apply (resolve_miss_raise _ _ _ key); [assumption .. |].
    fold url. rewrite Hr. unfold lookup, lookup_try, lookup_except.
    rewrite Hcl. reflexivity.
  - intros e Hr Hex Ht Hc Hd.
    apply (resolve_miss_raise _ _ _ key); [assumption .. |].
    fold url. unfold lookup.
    destruct Hr as [-> | ->]; cbn [lookup_try Z.eqb Pos.eqb negb];
      rewrite (Hother e Hex Ht Hc Hd); reflexivity.
Qed.

Lemma resolve_error_mapping_witness :
  resolve (Examples.env_at 100 (fun _ => Response 404 (Ret VNone))) Examples.resolver
    (str "alice") =
  {| after := Examples.resolver;
     requests := [str "http://185.204.169.26:3000/dns/lookup/alice"];
     returned := Raise (DNSError_new NOT_FOUND (str "Agent not found: alice")) |} /\
  resolve (Examples.env_at 100
             (fun _ => GetRaises (Exn HttpxConnectError (str "refused"))))
    Examples.resolver (str "alice") =
  {| after := Examples.resolver;
     requests := [str "http://185.204.169.26:3000/dns/lookup/alice"];
     returned := Raise (DNSError_new NETWORK_ERROR
                          (str "Cannot reach DNS server: refused")) |}.
Proof.
  assert (Hkey : checked_name (str "alice") = Ret (str "alice"))
    by (vm_compute; reflexivity).
  split.
  - apply (proj1 (resolve_error_mapping
                    (Examples.env_at 100 (fun _ => Response 404 (Ret VNone)))
                    Examples.resolver (str "alice") (str "alice") Hkey eq_refl)
             (Ret VNone)).
    reflexivity.
  - apply (proj1 (proj2 (proj2 (proj2 (resolve_error_mapping
                    (Examples.env_at 100
                       (fun _ => GetRaises (Exn HttpxConnectError (str "refused"))))
                    Examples.resolver (str "alice") (str "alice") Hkey eq_refl))))
             (Exn HttpxConnectError (str "refused"))); reflexivity.
Defined.

(** X10.  Every cache entry holds an agent named as the key it is stored
    under: this holds for a new resolver and after [clear_cache], and
    [resolve] keeps it.  While it holds, the agent [resolve] returns is
    named as the name it was looked up under, whatever name the payload
    carries. *)
Theorem cache_named_invariant :
  (forall server port timeout_ms use_https,
     Inv.cache_named (init server port timeout_ms use_https)) /\
  (forall self, Inv.cache_named (clear_cache self)) /\
  (forall env self name,
     Inv.cache_named self -> Inv.cache_named (after (resolve env self name))) /\
  (forall env self name key a,
     Inv.cache_named self -> checked_name name = Ret key ->
     returned (resolve env self name) = Ret a -> ResolvedAgent.name a = key).
Proof.
  split; [|split; [|split]].
  - intros ? ? ? ? key entry H. cbn in H. rewrite lookup_empty in H. discriminate.
  - intros self key entry H. cbn in H. rewrite lookup_empty in H. discriminate.
  - intros env self name Hinv.
    destruct (returned (resolve env self name)) as [a|e] eqn:Hret;
      [| rewrite (resolve_failure_keeps_state _ _ _ _ Hret); exact Hinv].
    destruct (returned_Ret_key _ _ _ _ Hret) as [key Hkey].
    pose proof (resolve_returns_named _ _ _ _ _ Hinv Hkey Hret) as Hname.
    destruct (cache_hit self (time_check env) key) as [a'|] eqn:Hc.
    + rewrite (resolve_hit _ _ _ _ _ Hkey Hc). exact Hinv.
    + destruct (resolve_miss _ _ _ _ Hkey Hc) as (_ & _ & Hok).
      destruct (Hok a Hret) as (exp & _ & ->).
      intros k entry. cbn [set_cache _cache]. rewrite lookup_insert.
      destruct (decide (key = k)) as [<-|Hne]; [| apply Hinv].
      intros [= <-]. exact Hname.
  - intros env self name key a. apply resolve_returns_named.
Qed.

(** X11.  One call of [resolve] leaves the configuration and the base URL
    alone, changes no cache entry but the one of the name it looked up,
    removes none, and adds at most one. *)
Theorem resolve_touches_one_entry env self name :
  _config (after (resolve env self name)) = _config self /\
  _base_url (after (resolve env self name)) = _base_url self /\
  (forall k, checked_name name <> Ret k ->
     _cache (after (resolve env self name)) !! k = _cache self !! k) /\
  (forall k, is_Some (_cache self !! k) ->
     is_Some (_cache (after (resolve env self name)) !! k)) /\
  cache_size (after (resolve env self name)) <= S (cache_size self).
Proof.
  assert (Hsame : after (resolve env self name) = self ->
    _config (after (resolve env self name)) = _config self /\
    _base_url (after (resolve env self name)) = _base_url self /\
    (forall k, checked_name name <> Ret k ->
       _cache (after (resolve env self name)) !! k = _cache self !! k) /\
    (forall k, is_Some (_cache self !! k) ->
       is_Some (_cache (after (resolve env self name)) !! k)) /\
    cache_size (after (resolve env self name)) <= S (cache_size self)).
  { intros ->. repeat split; auto. }
  destruct (returned (resolve env self name)) as [a|e] eqn:Hret;
    [| apply Hsame, (resolve_failure_keeps_state _ _ _ _ Hret)].
  destruct (returned_Ret_key _ _ _ _ Hret) as [key Hkey].
  destruct (cache_hit self (time_check env) key) as [a'|] eqn:Hc.
  - apply Hsame. rewrite (resolve_hit _ _ _ _ _ Hkey Hc). reflexivity.
  - destruct (resolve_miss _ _ _ _ Hkey Hc) as (_ & _ & Hok).
    destruct (Hok a Hret) as (exp & _ & ->).
    unfold cache_size. cbn [set_cache _config _base_url _cache].
    split; [reflexivity |]. split; [reflexivity |]. split; [| split].
    + intros k Hk. apply lookup_insert_ne. congruence.
    + intros k Hk. rewrite lookup_insert. destruct (decide (key = k)); eauto.
    + rewrite map_size_insert. destruct (_cache self !! key); simpl; lia.
Qed.

(** X12.  After [clear_cache] the cache is empty, the configuration and
    the base URL are as before, and the next [resolve] of any accepted
    target sends a request to the directory. *)
Theorem clear_cache_forgets self :
  cache_size (clear_cache self) = 0 /\
  _config (clear_cache self) = _config self /\
  _base_url (clear_cache self) = _base_url self /\
  (forall env name key,
     checked_name name = Ret key ->
     requests (resolve env (clear_cache self) name)
     = [_base_url self ++ str "/dns/lookup/" ++ key]).
Proof.
  split; [apply map_size_empty |]. split; [reflexivity |]. split; [reflexivity |].
  intros env name key Hkey.
  apply (resolve_miss env (clear_cache self) name key Hkey).
  unfold cache_hit. cbn. rewrite lookup_empty. reflexivity.
Qed.

Lemma clear_cache_forgets_witness :
  requests (resolve (Examples.env_at 150 Examples.service_ok)
              (clear_cache (after Examples.first_call)) (str "alice"))
  = [str "http://185.204.169.26:3000/dns/lookup/alice"].
Proof.
  apply (proj2 (proj2 (proj2 (clear_cache_forgets (after Examples.first_call))))
           (Examples.env_at 150 Examples.service_ok) (str "alice") (str "alice")).
  vm_compute. reflexivity.
Defined.

(** X13.  A payload wrapped as [{"agent": inner}] is read as [inner]
    alone, provided [inner] is not itself an object with an "agent" key:
    both give the same agent or raise the same exception. *)
Theorem parse_response_unwraps self name t d inner :
  assoc (str "agent") d = Some inner ->
  (forall d', inner = VDict d' -> assoc (str "agent") d' = None) ->
  parse_response self name t (VDict d) = parse_response self name t inner.
Proof.
  intros Hd Hinner. unfold parse_response.
  cbn [Py.get]. rewrite Hd. cbn [default bind].
  destruct inner as [| | | | | |d']; try reflexivity.
  cbn [Py.get]. rewrite (Hinner d' eq_refl). reflexivity.
Qed.

Lemma parse_response_unwraps_witness :
  parse_response Examples.resolver (str "bob") 0
    (VDict [(str "agent", Examples.payload)])
  = parse_response Examples.resolver (str "bob") 0 Examples.payload.
Proof.
  apply parse_response_unwraps.
  - reflexivity.
  - intros d' [= <-]. reflexivity.
Defined.

(** Every call of [resolve] leaves the configuration alone. *)
Lemma resolve_keeps_config env self name :
  _config (after (resolve env self name)) = _config self.
Proof.
  destruct (returned (resolve env self name)) as [a|e] eqn:Hret;
    [| rewrite (resolve_failure_keeps_state _ _ _ _ Hret); reflexivity].
  destruct (returned_Ret_key _ _ _ _ Hret) as [key Hkey].
  destruct (cache_hit self (time_check env) key) as [a'|] eqn:Hc.
  - rewrite (resolve_hit _ _ _ _ _ Hkey Hc). reflexivity.
  - destruct (resolve_miss _ _ _ _ Hkey Hc) as (_ & _ & Hok).
    destruct (Hok a Hret) as (exp & _ & ->). reflexivity.
Qed.

(** X14.  A payload object without a "ttl" (and without an "agent"
    wrapper) is cached for the resolver's default: when the directory
    answers a miss with such an object and it is read as an agent,
    [resolve] returns that agent, the agent has the default as its ttl,
    and the entry expires that many seconds after the clock reading at the
    store.  The constructor sets the default to 300, and [resolve] never
    changes it. *)
Theorem resolve_default_ttl env self name key d a x :
  checked_name name = Ret key -> cache_hit self (time_check env) key = None ->
  http_get env (_base_url self ++ str "/dns/lookup/" ++ key)
  = Response 200 (Ret (VDict d)) ->
  assoc (str "agent") d = None -> assoc (str "ttl") d = None ->
  parse_response self key (time_resolved env) (VDict d) = Ret a ->
  float_of_int (default_ttl_seconds (_config self)) = Ret x ->
  ResolvedAgent.ttl a = VInt (default_ttl_seconds (_config self)) /\
  resolve env self name =
  {| after :=
       set_cache self
         (<[key := {| agent := a;
                      expires_at := PrimFloat.add (time_store env) x |}]>
            (_cache self));
     requests := [_base_url self ++ str "/dns/lookup/" ++ key];
     returned := Ret a |} /\
  (forall server port timeout_ms use_https,
     default_ttl_seconds (_config (init server port timeout_ms use_https)) = 300%Z) /\
  (forall env' name',
     default_ttl_seconds (_config (after (resolve env' self name')))
     = default_ttl_seconds (_config self)).
Proof.
  intros Hkey Hmiss Hreply Hagent Httl Hp Hx.
  assert (Ha : ResolvedAgent.ttl a = VInt (default_ttl_seconds (_config self))).
  { apply parse_response_fields in Hp as (_ & _ & agent_data & Hdata & Ha).
    cbn [Py.get] in Hdata. rewrite Hagent in Hdata. injection Hdata as <-.
    cbn [Py.get] in Ha. rewrite Httl in Ha. injection Ha as Ha. auto. }
  split; [exact Ha |]. split; [| split; [reflexivity |]].
  - apply (resolve_miss_ok env self name key (VDict d) a);
      [exact Hkey | exact Hmiss | | exact Hp |].
    + rewrite Hreply. reflexivity.
    + rewrite Ha. apply add_ttl_int, Hx.
  - intros env' name'. rewrite resolve_keeps_config. reflexivity.
Qed.

Lemma resolve_default_ttl_witness :
  let env := Examples.env_at 100 (fun _ => Response 200 (Ret (VDict []))) in
  expires_at <$> _cache (after (resolve env Examples.resolver (str "alice")))
                   !! str "alice"
  = Some 401%float.
Proof.
  cbv zeta.
  destruct (resolve_default_ttl
              (Examples.env_at 100 (fun _ => Response 200 (Ret (VDict []))))
              Examples.resolver (str "alice") (str "alice") []
              {| ResolvedAgent.name := str "alice";
                 ResolvedAgent.endpoint := VStr [];
                 ResolvedAgent.public_key := VStr [];
                 ResolvedAgent.tools := [];
                 ResolvedAgent.capabilities := VList [];
                 ResolvedAgent.ttl := VInt 300;
                 ResolvedAgent.resolved_at := 100;
                 ResolvedAgent.metadata := [] |}
              300%float)
    as (_ & Ho & _).
  - vm_compute. reflexivity.
  - reflexivity.
  - reflexivity.
  - reflexivity.
  - reflexivity.
  - vm_compute. reflexivity.
  - vm_compute. reflexivity.
  - rewrite Ho. cbn [after set_cache _cache]. rewrite lookup_insert_eq. reflexivity.
Defined.

(** A miss whose answer is read as an agent, but whose ttl cannot be added
    to the clock. *)
Lemma resolve_miss_ttl_raise env self name key data a e :
  checked_name name = Ret key -> cache_hit self (time_check env) key = None ->
  lookup (http_get env (_base_url self ++ str "/dns/lookup/" ++ key)) key = Ret data ->
  parse_response self key (time_resolved env) data = Ret a ->
  add_ttl (time_store env) (ResolvedAgent.ttl a) = Raise e ->
  resolve env self name =
  {| after := self; requests := [_base_url self ++ str "/dns/lookup/" ++ key];
     returned := Raise e |}.
Proof.
  intros Hkey Hmiss Hl Hp Hexp. unfold resolve. rewrite Hkey, Hmiss. cbv zeta.
  rewrite Hl. cbn [bind]. rewrite Hp. cbn [bind]. rewrite Hexp. reflexivity.
Qed.

(** X27.  What the ttl of the payload does to the entry, when the
    directory answers a miss with a payload that is read as an agent.  A
    float ttl is added to the clock reading at the store as it is, and
    [True] and [False] count as 1 and 0.  An [int] from [2^1024 - 2^970] on
    (in absolute value) cannot be converted to a float: [resolve] raises
    [OverflowError] after the request was sent and caches nothing.  A ttl
    that is [None], a string, a list or an object makes it raise
    [TypeError] in the same way. *)
Theorem resolve_ttl_kinds env self name key data a :
  checked_name name = Ret key -> cache_hit self (time_check env) key = None ->
  http_get env (_base_url self ++ str "/dns/lookup/" ++ key)
  = Response 200 (Ret data) ->
  parse_response self key (time_resolved env) data = Ret a ->
  let url := _base_url self ++ str "/dns/lookup/" ++ key in
  let stored x :=
    resolve env self name =
    {| after :=
         set_cache self
           (<[key := {| agent := a;
                        expires_at := PrimFloat.add (time_store env) x |}]>
              (_cache self));
       requests := [url]; returned := Ret a |} in
  let raised e :=
    resolve env self name =
    {| after := self; requests := [url]; returned := Raise e |} in
  (forall x, ResolvedAgent.ttl a = VFloat x -> stored x) /\
  (forall b, ResolvedAgent.ttl a = VBool b -> stored (if b then 1 else 0)%float) /\
  (forall z, ResolvedAgent.ttl a = VInt z ->
     (2 ^ 1024 - 2 ^ 970 <= Z.abs z)%Z ->
     raised (Exn OverflowError (str "int too large to convert to float"))) /\
  (forall v, ResolvedAgent.ttl a = v ->
     as_number v = None ->
     raised (Exn TypeError
               (str "unsupported operand type(s) for +: 'float' and '"
                ++ type_name v ++ str "'"))).
Proof.
  intros Hkey Hmiss Hreply Hp url stored raised. subst url stored raised. cbv beta.
  assert (Hl : lookup (http_get env (_base_url self ++ str "/dns/lookup/" ++ key)) key
               = Ret data)
    by (rewrite Hreply; reflexivity).
  split; [|split; [|split]].
  - intros x Hx. apply (resolve_miss_ok env self name key data a); try assumption.
    rewrite Hx. reflexivity.
  - intros b Hb. apply (resolve_miss_ok env self name key data a); try assumption.
    rewrite Hb. destruct b; vm_compute; reflexivity.
  - intros z Hz Hbig.
    apply (resolve_miss_ttl_raise env self name key data a); try assumption.
    rewrite Hz. unfold add_ttl, float_add. cbn [as_number]. unfold float_of_int.
    rewrite (proj2 (Z.leb_le _ _) Hbig). reflexivity.
  - intros v Hv Hnum.
    apply (resolve_miss_ttl_raise env self name key data a); try assumption.
    rewrite Hv. unfold add_ttl, float_add. rewrite Hnum. reflexivity.
Qed.

Lemma resolve_ttl_kinds_witness :
  let huge := VDict [(str "ttl", VInt (2 ^ 1024))] in
  resolve (Examples.env_at 100 (fun _ => Response 200 (Ret huge)))
    Examples.resolver (str "alice")
  = {| after := Examples.resolver;
       requests := [str "http://185.204.169.26:3000/dns/lookup/alice"];
       returned :=
         Raise (Exn OverflowError (str "int too large to convert to float")) |}.
Proof.
  cbv zeta.
  apply (proj1 (proj2 (proj2 (resolve_ttl_kinds
           (Examples.env_at 100
              (fun _ => Response 200 (Ret (VDict [(str "ttl", VInt (2 ^ 1024))]))))
           Examples.resolver (str "alice") (str "alice")
           (VDict [(str "ttl", VInt (2 ^ 1024))])
           {| ResolvedAgent.name := str "alice";
              ResolvedAgent.endpoint := VStr [];
              ResolvedAgent.public_key := VStr [];
              ResolvedAgent.tools := [];
              ResolvedAgent.capabilities := VList [];
              ResolvedAgent.ttl := VInt (2 ^ 1024);
              ResolvedAgent.resolved_at := 100;
              ResolvedAgent.metadata := [] |}
           ltac:(vm_compute; reflexivity) eq_refl eq_refl
           ltac:(vm_compute; reflexivity))))
           (2 ^ 1024)%Z eq_refl).
  vm_compute. discriminate.
Defined.

Lemma checked_name_uri_parsed (u key : pystr) :
  startswith (str "agent://") u = true -> checked_name u = Ret key ->
  parse_agent_uri u = Some key.
Proof.
  intros Hp. unfold checked_name. rewrite Hp.
  destruct (parse_agent_uri u) as [k|]; cbn [bind]; [| discriminate].
  destruct (validate_agent_name k); cbn [negb]; [| discriminate].
  intros [= <-]. reflexivity.
Qed.

(** X15.  While every cache entry is named as its key, resolving a valid
    lowercase URI returns an agent whose [uri] is that URI, from the cache
    or from the directory. *)
Theorem resolved_uri_is_target env self u a :
  Inv.cache_named self ->
  startswith (str "agent://") u = true -> lower u = u ->
  returned (resolve env self u) = Ret a ->
  ResolvedAgent.uri a = u.
Proof.
  intros Hinv Hp Hlow Hret.
  destruct (returned_Ret_key _ _ _ _ Hret) as [key Hkey].
  pose proof (checked_name_uri_parsed u key Hp Hkey) as Hparse.
  rewrite <- (to_agent_uri_parse_lowercase u key Hparse Hlow).
  unfold ResolvedAgent.uri, to_agent_uri.
  rewrite (resolve_returns_named _ _ _ _ _ Hinv Hkey Hret).
  destruct (parsed_name_valid u key Hparse) as [_ ->]. reflexivity.
Qed.

Lemma resolved_uri_is_target_witness :
  exists a,
    returned (resolve (Examples.env_at 100 Examples.service_ok) Examples.resolver
                (str "agent://alice")) = Ret a /\
    ResolvedAgent.uri a = str "agent://alice".
Proof.
  destruct (returned (resolve (Examples.env_at 100 Examples.service_ok)
                        Examples.resolver (str "agent://alice")))
    as [a|e] eqn:Hret; [| vm_compute in Hret; discriminate].
  exists a. split; [reflexivity |].
  apply (resolved_uri_is_target (Examples.env_at 100 Examples.service_ok)
           Examples.resolver (str "agent://alice") a).
  - intros key entry H. vm_compute in H. discriminate.
  - reflexivity.
  - reflexivity.
  - exact Hret.
Defined.

(** X16.  A valid name is looked up under itself, and its URI under its
    lowercase form (when that form has at most 50 code points).  So for a
    valid name that is already lowercase, resolving the name and resolving
    its URI are the same call: same request or same cache entry, same
    result. *)
Theorem uri_and_name_share_key (n : pystr) :
  validate_agent_name n = true ->
  checked_name n = Ret n /\
  (length (lower n) <= 50 -> checked_name (to_agent_uri n) = Ret (lower n)) /\
  (lower n = n ->
   forall env self, resolve env self (to_agent_uri n) = resolve env self n).
Proof.
  intros Hv.
  assert (Huri : length (lower n) <= 50 ->
                 checked_name (to_agent_uri n) = Ret (lower n)).
  { intros Hlen. apply checked_name_uri, parse_to_agent_uri; assumption. }
  split; [apply checked_name_valid, Hv |]. split; [exact Huri |].
  intros Hlow env self. unfold resolve.
  rewrite (checked_name_valid n Hv), Huri, Hlow; [reflexivity |].
  rewrite Hlow. apply validate_agent_name_true in Hv. lia.
Qed.

Lemma uri_and_name_share_key_witness :
  resolve (Examples.env_at 150 Examples.service_ok) (after Examples.first_call)
    (to_agent_uri (str "alice"))
  = resolve (Examples.env_at 150 Examples.service_ok) (after Examples.first_call)
      (str "alice").
Proof.
  apply (proj2 (proj2 (uri_and_name_share_key (str "alice") eq_refl))).
  reflexivity.
Defined.

End MoreResolver.

(** ** The agent: construction, tools, lifecycle, sessions, registration *)

Section MoreAgent.
Import Py Core AgentPy.

Lemma parse_prefixed (n : pystr) :
  validate_agent_name n = true -> length (lower n) <= 50 ->
  parse_agent_uri (str "agent://" ++ n) = Some (lower n).
Proof.
  intros Hv Hlen. apply validate_agent_name_true in Hv as (Hl & Hh & Hla & Hre).
  apply parse_agent_uri_Some. rewrite drop_agent_prefix.
  split; [apply startswith_agent_prefix |]. split; [reflexivity |].
  pose proof (lower_length_ge n).
  rewrite (lower_head n 0x2D), (lower_last n 0x2D) by auto.
  repeat split; try assumption; lia.
Qed.

Lemma set_resolver_same (self : Agent) : set_resolver (_resolver self) self = self.
Proof. destruct self. reflexivity. Qed.

(** X17.  An agent that the constructor builds is not running and has no
    sessions; its [uri] is "agent://" followed by its name as given.  The
    [uri] parses to the lowercase form of the name (when that form has at
    most 50 code points), so it is the canonical URI [to_agent_uri(name)]
    exactly when the name is lowercase. *)
Theorem init_agent_uri (n n_repr : pystr) (config : option AgentConfig)
    (keys : KeyPair) (a : Agent) :
  init n n_repr config keys = Ret a ->
  is_running a = false /\ sessions a = ∅ /\ AgentPy.name a = n /\
  uri a = str "agent://" ++ n /\
  (length (lower n) <= 50 -> parse_agent_uri (uri a) = Some (lower n)) /\
  (uri a = to_agent_uri n <-> lower n = n).
Proof.
  unfold init. destruct (validate_agent_name n) eqn:Hv; cbn [negb]; [| discriminate].
  intros [= <-]. unfold is_running, sessions, AgentPy.name, uri.
  cbn [_is_running _sessions _name].
  repeat split; try reflexivity.
  - intros Hlen. apply parse_prefixed; assumption.
  - unfold to_agent_uri. intros H. apply app_inv_head in H. congruence.
  - unfold to_agent_uri. intros ->. reflexivity.
Qed.

Lemma init_agent_uri_witness :
  parse_agent_uri (uri Examples.agent) = Some (lower (str "test-agent")).
Proof.
  apply (init_agent_uri (str "test-agent") (str "'test-agent'") None
           {| public_key_b64 := str "cHVi" |} Examples.agent).
  - vm_compute. reflexivity.
  - vm_compute. lia.
Defined.

(** X18.  After [register_tool(name, handler, ...)], [invoke_tool(name,
    ...)] is [invoke] on a registry that holds this one tool, for every
    session id, existing or not; every other name is invoked as before;
    sessions, resolver and running state are untouched. *)
Theorem register_tool_then_invoke (self : Agent) (n : pystr)
    (handler : Tools.ToolHandler) (description : pystr)
    (input_schema output_schema : option pyval) :
  let a := fst (register_tool self n handler description input_schema output_schema) in
  (forall params session_id context,
     invoke_tool a n params session_id =
     Tools.invoke
       (fst (Tools.register Tools.init n handler description input_schema output_schema))
       n params context) /\
  (forall other params session_id,
     other <> n ->
     invoke_tool a other params session_id = invoke_tool self other params session_id) /\
  _sessions a = _sessions self /\ _resolver a = _resolver self /\
  _is_running a = _is_running self.
Proof.
  cbv zeta. unfold register_tool, invoke_tool, Tools.register, Tools.invoke.
  cbn. split; [| split; [| auto]].
  - intros params session_id context. rewrite !lookup_insert_eq. reflexivity.
  - intros other params session_id Hne.
    rewrite lookup_insert_ne by congruence. reflexivity.
Qed.

(** X19.  [start] twice is [start] once, and [start] keeps the sessions;
    [stop] twice is [stop] once; after [stop] the agent is not running;
    after [start] and [stop] no session is left in the dict; neither
    touches the tools or the resolver. *)
Theorem start_stop_lifecycle (objs : store) (self : Agent) :
  start (start self) = start self /\
  _is_running (start self) = true /\
  _sessions (start self) = _sessions self /\
  stop (fst (stop objs self)) (snd (stop objs self)) = stop objs self /\
  _is_running (snd (stop objs self)) = false /\
  _sessions (snd (stop objs (start self))) = ∅ /\
  _tool_registry (snd (stop objs (start self))) = _tool_registry self /\
  _resolver (snd (stop objs (start self))) = _resolver self.
Proof.
  unfold start, stop. destruct self as [? ? ? ? ? ? ? ? run].
  destruct run; cbn; repeat split; reflexivity.
Qed.

Lemma checked_name_invalid (target : pystr) :
  validate_agent_name target = false -> is_valid_agent_uri target = false ->
  exists message,
    DNS.checked_name target = Raise (DNS.DNSError_new INVALID_NAME message).
Proof.
  intros Hname Huri.
  assert (Hparse : parse_agent_uri target = None).
  { unfold is_valid_agent_uri in Huri. apply bool_decide_eq_false in Huri.
    destruct (parse_agent_uri target); [exfalso; apply Huri; discriminate | reflexivity]. }
  unfold DNS.checked_name.
  destruct (startswith (str "agent://") target); eexists.
  - rewrite Hparse. reflexivity.
  - cbn [bind]. rewrite Hname. reflexivity.
Qed.

(** X20.  When the resolution fails with an [Exception], [connect] raises
    nothing: it returns [success=False] with the error "DNS resolution
    failed: " and the exception's message, creates no session and leaves
    the agent and the session objects as they were.  An invalid target is
    such a case, with an [INVALID_NAME] message. *)
Theorem connect_reports_failure (env : ConnectEnv) (objs : store) (self : Agent)
    (target : pystr) :
  (forall e,
     DNS.returned (DNS.resolve (dns_env env) (_resolver self) target) = Raise e ->
     is_Exception (exn_class e) = true ->
     connect env objs self target =
     {| objs_after := objs; agent_after := self;
        got := Ret {| success := false; session := None;
                      error := Some (str "DNS resolution failed: " ++ exn_msg e) |} |}) /\
  (validate_agent_name target = false -> is_valid_agent_uri target = false ->
   exists message,
     connect env objs self target =
     {| objs_after := objs; agent_after := self;
        got := Ret {| success := false; session := None;
                      error := Some (str "DNS resolution failed: [INVALID_NAME] "
                                     ++ message) |} |}).
Proof.
  assert (Hfail : forall e,
     DNS.returned (DNS.resolve (dns_env env) (_resolver self) target) = Raise e ->
     is_Exception (exn_class e) = true ->
     connect env objs self target =
     {| objs_after := objs; agent_after := self;
        got := Ret {| success := false; session := None;
                      error := Some (str "DNS resolution failed: " ++ exn_msg e) |} |}).
  { intros e Hret Hex. unfold connect. cbv zeta.
    rewrite (resolve_failure_keeps_state _ _ _ _ Hret), Hret, Hex, set_resolver_same.
    reflexivity. }
  split; [exact Hfail |].
  intros Hname Huri. destruct (checked_name_invalid target Hname Huri) as [message Hk].
  exists message.
  rewrite (Hfail (DNS.DNSError_new INVALID_NAME message)); [reflexivity | | reflexivity].
  rewrite (resolve_rejected _ _ _ _ Hk). reflexivity.
Qed.

Lemma connect_reports_failure_witness :
  exists message,
    connect (Examples.connect_env (str "id-1") 100) Examples.objects
      Examples.running_agent (str "agent://bad_name!") =
    {| objs_after := Examples.objects; agent_after := Examples.running_agent;
       got := Ret {| success := false; session := None;
                     error := Some (str "DNS resolution failed: [INVALID_NAME] "
                                    ++ message) |} |}.
Proof.
  apply (proj2 (connect_reports_failure (Examples.connect_env (str "id-1") 100)
                  Examples.objects Examples.running_agent (str "agent://bad_name!"))).
  - vm_compute. reflexivity.
  - vm_compute. reflexivity.
Defined.

(** A successful [connect], step by step. *)
Lemma connect_success (env : ConnectEnv) (objs : store) (self : Agent)
    (target : pystr) (res : ConnectResult) :
  got (connect env objs self target) = Ret res -> success res = true ->
  exists resolved,
    DNS.returned (DNS.resolve (dns_env env) (_resolver self) target) = Ret resolved /\
    connect env objs self target =
    {| objs_after :=
         <[fresh (dom objs) :=
             Session.new (new_id env) (_identity self)
               {| Core.name := DNS.ResolvedAgent.name resolved;
                  Core.public_key := DNS.ResolvedAgent.public_key resolved;
                  Core.description := [] |}
               (Some ACTIVE) (time_created env) (time_updated env)]> objs;
       agent_after :=
         set_sessions (<[new_id env := fresh (dom objs)]> (_sessions self))
           (set_resolver
              (DNS.after (DNS.resolve (dns_env env) (_resolver self) target)) self);
       got := Ret {| success := true; session := Some (fresh (dom objs));
                     error := None |} |}.
Proof.
  unfold connect. cbv zeta.
  destruct (DNS.returned (DNS.resolve (dns_env env) (_resolver self) target))
    as [resolved|e]; cbn [got].
  - intros _ _. exists resolved. split; reflexivity.
  - destruct (is_Exception (exn_class e)); [| discriminate].
    intros [= <-]. discriminate.
Qed.



(** X22.  [send] returns [True] exactly when the session id is in the
    dict, and [call_tool] raises [RuntimeError] "Session not found"
    exactly when it is not, returning [None] otherwise, whatever the tool
    and its parameters.  So after [stop] on a running agent every [send]
    returns [False], and after a successful [connect] a [send] to the new
    id returns [True]. *)
Theorem send_and_call_tool_need_session (fid : pystr) (now : pyfloat) (self : Agent)
    (session_id : pystr) :
  (forall event data,
     fst (send fid now self session_id event data)
     = bool_decide (is_Some (_sessions self !! session_id))) /\
  (forall tool_name params,
     fst (call_tool fid now self session_id tool_name params)
     = if bool_decide (is_Some (_sessions self !! session_id)) then Ret VNone
       else Raise (Exn RuntimeError (str "Session not found: " ++ session_id))) /\
  (forall objs event data,
     _is_running self = true ->
     fst (send fid now (snd (stop objs self)) session_id event data) = false) /\
  (forall env objs target res event data,
     got (connect env objs self target) = Ret res -> success res = true ->
     fst (send fid now (agent_after (connect env objs self target)) (new_id env)
            event data) = true).
Proof.
  split; [| split; [| split]].
  - intros event data. unfold send.
    destruct (_sessions self !! session_id); reflexivity.
  - intros tool_name params. unfold call_tool.
    destruct (_sessions self !! session_id); reflexivity.
  - intros objs event data Hrun. unfold send, stop. rewrite Hrun.
    cbn [negb snd set_running set_sessions _sessions].
    rewrite lookup_empty. reflexivity.
  - intros env objs target res event data Hgot Hok.
    destruct (connect_success env objs self target res Hgot Hok) as (resolved & _ & ->).
    unfold send. cbn [agent_after set_sessions _sessions].
    rewrite lookup_insert_eq. reflexivity.
Qed.

Lemma send_and_call_tool_need_session_witness :
  fst (send (str "f-1") 0 (snd (stop Examples.objects Examples.running_agent))
         (str "s1") (str "ping") VNone) = false /\
  fst (send (str "f-1") 0 Examples.running_agent (str "s1") (str "ping") VNone)
  = true.
Proof.
  destruct (send_and_call_tool_need_session (str "f-1") 0 Examples.running_agent
              (str "s1")) as (Hsend & _ & Hstop & _).
  split.
  - apply Hstop. reflexivity.
  - rewrite Hsend. vm_compute. reflexivity.
Defined.

(** X23.  The frames that [call_tool] and [send] build for a known
    session, given a non-empty generated id: the request frame of
    [call_tool] is always valid, has the method "tool.invoke", the session
    id, and carries the tool name under "tool" and the parameters (an empty
    dict when none are given) under "input"; the event frame of [send] is
    valid exactly when the event name is non-empty. *)
Theorem frames_of_call_tool_and_send (fid : pystr) (now : pyfloat) (self : Agent)
    (session_id : pystr) :
  fid <> [] -> is_Some (_sessions self !! session_id) ->
  (forall tool_name params,
     exists frame,
       snd (call_tool fid now self session_id tool_name params) = Some frame /\
       Protocol.validate_frame (Protocol.ARequest frame) = true /\
       Protocol.RequestFrame.method frame = str "tool.invoke" /\
       Protocol.RequestFrame.session_id frame = Some session_id /\
       Protocol.RequestFrame.params frame
       = [(str "tool", VStr tool_name); (str "input", VDict (default [] params))]) /\
  (forall event data,
     exists frame,
       snd (send fid now self session_id event data) = Some frame /\
       Protocol.EventFrame.session_id frame = Some session_id /\
       Protocol.validate_frame (Protocol.AnEvent frame)
       = negb (Protocol.is_empty event)).
Proof.
  intros Hid [r Hr]. apply is_empty_false in Hid.
  split.
  - intros tool_name params. unfold call_tool. rewrite Hr. cbn [snd].
    eexists. split; [reflexivity |].
    unfold Protocol.validate_frame.
    cbn [Protocol.frame_id Protocol.create_request_frame Protocol.RequestFrame.id
         Protocol.RequestFrame.method Protocol.RequestFrame.session_id
         Protocol.RequestFrame.params].
    rewrite Hid. split; [reflexivity |]. split; [reflexivity |].
    split; reflexivity.
  - intros event data. unfold send. rewrite Hr. cbn [snd].
    eexists. split; [reflexivity |]. split; [reflexivity |].
    unfold Protocol.validate_frame.
    cbn [Protocol.frame_id Protocol.create_event_frame Protocol.EventFrame.id
         Protocol.EventFrame.event].
    rewrite Hid. destruct (Protocol.is_empty event); reflexivity.
Qed.

Lemma frames_of_call_tool_and_send_witness :
  exists frame,
    snd (call_tool (str "f-1") 0 Examples.running_agent (str "s1") (str "greet") None)
    = Some frame /\
    Protocol.validate_frame (Protocol.ARequest frame) = true.
Proof.
  destruct (proj1 (frames_of_call_tool_and_send (str "f-1") 0 Examples.running_agent
                     (str "s1") ltac:(discriminate)
                     ltac:(exists 1%positive; vm_compute; reflexivity))
              (str "greet") None) as (frame & Hf & Hv & _).
  exists frame. auto.
Defined.

(** X24.  [connect] works on an agent that was never started, and [stop]
    on such an agent does nothing: the session just connected stays in the
    dict, in state [ACTIVE]. *)
Theorem stop_keeps_sessions_of_unstarted_agent (env : ConnectEnv) (objs : store)
    (self : Agent) (target : pystr) (res : ConnectResult) :
  _is_running self = false ->
  got (connect env objs self target) = Ret res -> success res = true ->
  stop (objs_after (connect env objs self target))
       (agent_after (connect env objs self target))
  = (objs_after (connect env objs self target),
     agent_after (connect env objs self target)) /\
  exists r s,
    _sessions (agent_after (connect env objs self target)) !! new_id env = Some r /\
    objs_after (connect env objs self target) !! r = Some s /\
    Session.state s = ACTIVE.
Proof.
  intros Hrun Hgot Hok.
  destruct (connect_success env objs self target res Hgot Hok) as (resolved & _ & ->).
  cbn [objs_after agent_after]. split.
  - apply stop_not_running. exact Hrun.
  - eexists _, _. cbn [set_sessions _sessions]. rewrite !lookup_insert_eq.
    split; [reflexivity |]. split; reflexivity.
Qed.

Lemma stop_keeps_sessions_of_unstarted_agent_witness :
  let c := connect (Examples.connect_env (str "id-1") 100) ∅ Examples.agent
             (str "bob") in
  stop (objs_after c) (agent_after c) = (objs_after c, agent_after c).
Proof.
  cbv zeta.
  apply (stop_keeps_sessions_of_unstarted_agent
           (Examples.connect_env (str "id-1") 100) ∅ Examples.agent (str "bob")
           {| success := true; session := Some 1%positive; error := None |}).
  - reflexivity.
  - vm_compute. reflexivity.
  - reflexivity.
Defined.


End MoreAgent.

(** ** The command line *)

Section MoreCli.
Import Py Core Cli.

Lemma endswith_suffix (p s : pystr) :
  endswith p s = true <-> exists t, s = t ++ p.
Proof.
  unfold endswith. rewrite startswith_prefix. split.
  - intros [t Ht]. exists (rev t).
    rewrite <- (rev_involutive s), Ht, rev_app_distr, rev_involutive. reflexivity.
  - intros [t ->]. exists (rev t). apply rev_app_distr.
Qed.

(** X26.  The [validate] command and the resolver accept the same
    targets: the command returns without calling [sys.exit] exactly when
    [resolve] would look the target up under some name, and it exits with
    status 1 otherwise.  When it accepts, the line it prints ends with
    "agent://" followed by that very name. *)
Theorem cli_validate_agrees_with_resolver (target : pystr) :
  (exit_status (_validate target) = None <->
   exists key, DNS.checked_name target = Ret key) /\
  (exit_status (_validate target) = None \/ exit_status (_validate target) = Some 1%Z) /\
  (forall key, DNS.checked_name target = Ret key ->
     endswith (str "agent://" ++ key ++ [10%N]) (stdout (_validate target)) = true).
Proof.
  unfold _validate, DNS.checked_name.
  destruct (startswith (str "agent://") target).
  - destruct (parse_agent_uri target) as [[|c k]|] eqn:Hp; cbn [exit_status bind stdout].
    + split; [| split; [auto |]].
      * split; [discriminate |]. intros [key H]. vm_compute in H. discriminate.
      * intros key H. vm_compute in H. discriminate.
    + destruct (parsed_name_valid _ _ Hp) as [-> _]. cbn [negb].
      split; [| split; [auto |]].
      * split; eauto.
      * intros key [= <-]. unfold printed. apply endswith_suffix.
        exists (check_mark ++ str " Valid URI: ").
        rewrite <- !app_assoc. reflexivity.
    + split; [| split; [auto |]].
      * split; [discriminate | intros [key H]; discriminate].
      * discriminate.
  - cbn [bind]. destruct (validate_agent_name target); cbn [exit_status negb stdout].
    + split; [| split; [auto |]].
      * split; eauto.
      * intros key [= <-]. unfold printed. apply endswith_suffix.
        exists (check_mark ++ str " Valid name: " ++ target ++ str " " ++ arrow
                ++ str " ").
        rewrite <- !app_assoc. reflexivity.
    + split; [| split; [auto |]].
      * split; [discriminate | intros [key H]; discriminate].
      * discriminate.
Qed.

End MoreCli.
